(** * Connect Four backend: board engine, session manager, bot, matchmaking

    A shallow embedding of the Go sources
      - models  (Game, Player, Move and the board methods),
      - game    (Manager.MakeMove, Manager.cleanupDisconnectedPlayers),
      - bot     (GetBestMove, findWinningMove),
      - matchmaking (Queue, MatchmakingService.processMatches),
    followed by the properties proved about them.

    Conventions.
      - Go [int] is a 64-bit signed integer: it is a [Z], and every
        arithmetic result goes through [int_wrap].
      - [uuid.UUID] is a 128-bit value, an [N].
      - [time.Time] is a [Z] (nanoseconds); a function that calls
        [time.Now()] takes the reading as an argument.
      - A method with a pointer receiver [(g *Game)] is a function from the
        pointee to the result and the updated pointee.
      - [sync.RWMutex] is not modelled: each Manager operation below is the
        body of its critical section, run from start to end. *)

From Stdlib Require Import ZArith Lia List Bool.
From stdpp Require Import base option list gmap strings fin_maps.

Local Open Scope Z_scope.

(* ===================================================================== *)
(** ** Machine integers, identifiers, time *)
(* ===================================================================== *)

Definition int_wrap (z : Z) : Z := (z + 2 ^ 63) mod 2 ^ 64 - 2 ^ 63.

Definition int_add (a b : Z) : Z := int_wrap (a + b).
Definition int_sub (a b : Z) : Z := int_wrap (a - b).
Definition int_mul (a b : Z) : Z := int_wrap (a * b).

Abbreviation UUID := N.
Abbreviation Time := Z.

(** [uuid.Nil], the zero value of a UUID field. *)
Definition uuid_Nil : UUID := 0%N.

(* ===================================================================== *)
(** ** package models *)
(* ===================================================================== *)

Inductive GameState : Set :=
  | GameStateWaiting
  | GameStatePlaying
  | GameStateFinished.

#[global] Instance GameState_eq_dec : EqDecision GameState.
Proof. solve_decision. Defined.

(** [type PlayerColor int], with [PlayerRed = iota] and [PlayerYellow]. *)
Abbreviation PlayerColor := Z.
Definition PlayerRed : PlayerColor := 0.
Definition PlayerYellow : PlayerColor := 1.

Definition valid_color (c : PlayerColor) : Prop :=
  c = PlayerRed \/ c = PlayerYellow.

Record Player : Type := mkPlayer {
  Player_ID : UUID;
  Player_Name : string;
  Player_Color : PlayerColor;
  Player_Number : Z;
  Player_IsBot : bool;
  Player_Connected : bool;
  Player_LastSeen : Time
}.

Record Move : Type := mkMove {
  Move_PlayerID : UUID;
  Move_Column : Z;
  Move_Row : Z;
  Move_Color : PlayerColor;
  Move_Timestamp : Time
}.

(** [Board [6][7]int]: six rows of seven cells, row 0 on top. *)
Abbreviation Board := (list (list Z)).

Definition wf_board (b : Board) : Prop :=
  length b = 6%nat /\ Forall (fun row => length row = 7%nat) b.

Definition emptyBoard : Board := replicate 6 (replicate 7 0).

(** [b[r][c]]. Every read in the sources is guarded by a bounds test, so the
    value chosen here outside the array is never observed. *)
Definition Board_at (b : Board) (r c : Z) : Z :=
  if (0 <=? r) && (0 <=? c) then
    match b !! Z.to_nat r with
    | Some row => default 0 (row !! Z.to_nat c)
    | None => 0
    end
  else 0.

(** [b[r][c] = v]. *)
Definition Board_set (b : Board) (r c : Z) (v : Z) : Board :=
  if (0 <=? r) && (0 <=? c) then
    alter (fun row => <[Z.to_nat c := v]> row) (Z.to_nat r) b
  else b.

Record Game : Type := mkGame {
  Game_ID : UUID;
  Game_State : GameState;
  Game_Board : Board;
  Game_Players : Player * Player;
  Game_CurrentTurn : PlayerColor;
  Game_CurrentTurnNumber : Z;
  Game_Winner : option PlayerColor;
  Game_CreatedAt : Time;
  Game_FinishedAt : option Time;
  Game_LastMove : option Move
}.

Definition set_Board (b : Board) (g : Game) : Game :=
  mkGame (Game_ID g) (Game_State g) b (Game_Players g) (Game_CurrentTurn g)
         (Game_CurrentTurnNumber g) (Game_Winner g) (Game_CreatedAt g)
         (Game_FinishedAt g) (Game_LastMove g).

Definition set_LastMove (mv : option Move) (g : Game) : Game :=
  mkGame (Game_ID g) (Game_State g) (Game_Board g) (Game_Players g)
         (Game_CurrentTurn g) (Game_CurrentTurnNumber g) (Game_Winner g)
         (Game_CreatedAt g) (Game_FinishedAt g) mv.

Definition set_State (s : GameState) (g : Game) : Game :=
  mkGame (Game_ID g) s (Game_Board g) (Game_Players g) (Game_CurrentTurn g)
         (Game_CurrentTurnNumber g) (Game_Winner g) (Game_CreatedAt g)
         (Game_FinishedAt g) (Game_LastMove g).

Definition set_Winner (w : option PlayerColor) (g : Game) : Game :=
  mkGame (Game_ID g) (Game_State g) (Game_Board g) (Game_Players g)
         (Game_CurrentTurn g) (Game_CurrentTurnNumber g) w (Game_CreatedAt g)
         (Game_FinishedAt g) (Game_LastMove g).

Definition set_FinishedAt (t : option Time) (g : Game) : Game :=
  mkGame (Game_ID g) (Game_State g) (Game_Board g) (Game_Players g)
         (Game_CurrentTurn g) (Game_CurrentTurnNumber g) (Game_Winner g)
         (Game_CreatedAt g) t (Game_LastMove g).

Definition set_CurrentTurn (c : PlayerColor) (n : Z) (g : Game) : Game :=
  mkGame (Game_ID g) (Game_State g) (Game_Board g) (Game_Players g) c n
         (Game_Winner g) (Game_CreatedAt g) (Game_FinishedAt g)
         (Game_LastMove g).

(** *** Board methods *)

(** [func (g *Game) IsValidMove(column int) bool] *)
Definition Game_IsValidMove (g : Game) (column : Z) : bool :=
  if (column <? 0) || (column >=? 7) then false
  else Board_at (Game_Board g) 0 column =? 0.

(** The loop [row := -1; for r := 5; r >= 0; r-- { if b[r][column] == 0
    { row = r; break } }], started with [n] rows left to visit
    (rows [n-1], ..., [0]). *)
Fixpoint lowestEmptyRow (b : Board) (column : Z) (n : nat) : Z :=
  match n with
  | O => -1
  | S k =>
      if Board_at b (Z.of_nat k) column =? 0 then Z.of_nat k
      else lowestEmptyRow b column k
  end.

(** [func (g *Game) MakeMove(column int, color PlayerColor) *Move];
    [None] is the [nil] result, in which case [g] is left as it was.
    [now] is the reading of [time.Now()]. *)
Definition Game_MakeMove (now : Time) (column : Z) (color : PlayerColor)
    (g : Game) : option Move * Game :=
  if negb (Game_IsValidMove g column) then (None, g)
  else
    let row := lowestEmptyRow (Game_Board g) column 6 in
    if row =? -1 then (None, g)
    else
      let g1 := set_Board (Board_set (Game_Board g) row column
                                     (int_add color 1)) g in
      let move := mkMove uuid_Nil column row color now in
      (Some move, set_LastMove (Some move) g1).

(** [func (g *Game) checkLine(startRow, startCol, deltaRow, deltaCol,
    player int) bool] *)
Definition Game_checkLine (g : Game)
    (startRow startCol deltaRow deltaCol player : Z) : bool :=
  forallb
    (fun i =>
       let row := int_add startRow (int_mul i deltaRow) in
       let col := int_add startCol (int_mul i deltaCol) in
       negb ((row <? 0) || (row >=? 6) || (col <? 0) || (col >=? 7)
             || negb (Board_at (Game_Board g) row col =? player)))
    (seqZ 0 4).

(** The first [Some] produced along a list: a loop whose body may return. *)
Fixpoint first_some {A B : Type} (f : A -> option B) (l : list A) : option B :=
  match l with
  | [] => None
  | x :: l' =>
      match f x with
      | Some y => Some y
      | None => first_some f l'
      end
  end.

(** Body of the inner loop of [CheckWinner] at one cell. *)
Definition CheckWinner_cell (g : Game) (row col : Z) : option PlayerColor :=
  if Board_at (Game_Board g) row col =? 0 then None
  else
    let player := Board_at (Game_Board g) row col in
    if (col <=? 3) && Game_checkLine g row col 0 1 player
    then Some (int_sub player 1)
    else if (row <=? 2) && Game_checkLine g row col 1 0 player
    then Some (int_sub player 1)
    else if (row <=? 2) && (col <=? 3) && Game_checkLine g row col 1 1 player
    then Some (int_sub player 1)
    else if (row <=? 2) && (col >=? 3) && Game_checkLine g row col 1 (-1) player
    then Some (int_sub player 1)
    else None.

(** [func (g *Game) CheckWinner() *PlayerColor] *)
Definition Game_CheckWinner (g : Game) : option PlayerColor :=
  first_some
    (fun row => first_some (fun col => CheckWinner_cell g row col) (seqZ 0 7))
    (seqZ 0 6).

(** [func (g *Game) IsBoardFull() bool] *)
Definition Game_IsBoardFull (g : Game) : bool :=
  forallb (fun col => negb (Board_at (Game_Board g) 0 col =? 0)) (seqZ 0 7).

(** *** Messages (only the payload the session manager sends itself) *)

(** [type GameEndPayload struct]; [GameState *Game] is the game as it is
    when the message is written out. *)
Record GameEndPayload : Type := mkGameEndPayload {
  GameEnd_GameID : UUID;
  GameEnd_Winner : option Player;
  GameEnd_Reason : string;
  GameEnd_GameState : Game;
  GameEnd_Duration : Z;
  GameEnd_IsDraw : bool
}.

Definition MsgGameEnd : string := "game_end".

(** [type WSMessage struct]; the fields a composite literal leaves out hold
    their zero values. *)
Record WSMessage : Type := mkWSMessage {
  WS_Type : string;
  WS_Payload : GameEndPayload;
  WS_Timestamp : Time;
  WS_MessageID : string
}.

(* ===================================================================== *)
(** ** package game: the session manager *)
(* ===================================================================== *)

Inductive GameError : Set :=
  | ErrGameNotFound
  | ErrGameNotActive
  | ErrPlayerNotInGame
  | ErrNotPlayerTurn
  | ErrInvalidMove.

#[global] Instance GameError_eq_dec : EqDecision GameError.
Proof. solve_decision. Defined.

(** A Go result pair [*Move] with an [error]. *)
Inductive MoveResult : Type :=
  | MoveOk (mv : Move)
  | MoveErr (e : GameError).

Record PlayerConnection : Type := mkPlayerConnection {
  Conn_PlayerID : UUID;
  Conn_GameID : UUID;
  Conn_LastSeen : Time
}.

(** [type Manager struct]. [games] maps an id to a [*Game]; [CreateGame] is
    the only writer of the map and stores a fresh object under a fresh id, so
    no two ids share a game and the map holds the games themselves. The
    [*Player]s of a game are held by value for the same reason. *)
Record Manager : Type := mkManager {
  Manager_games : gmap N Game;
  Manager_players : gmap N PlayerConnection
}.

Definition put_game (gameID : UUID) (game : Game) (m : Manager) : Manager :=
  mkManager (<[gameID := game]> (Manager_games m)) (Manager_players m).

Definition players_of (g : Game) : list Player :=
  [fst (Game_Players g); snd (Game_Players g)].

Definition set_Players (ps : Player * Player) (g : Game) : Game :=
  mkGame (Game_ID g) (Game_State g) (Game_Board g) ps (Game_CurrentTurn g)
         (Game_CurrentTurnNumber g) (Game_Winner g) (Game_CreatedAt g)
         (Game_FinishedAt g) (Game_LastMove g).

Definition set_Color (c : PlayerColor) (n : Z) (p : Player) : Player :=
  mkPlayer (Player_ID p) (Player_Name p) c n (Player_IsBot p)
           (Player_Connected p) (Player_LastSeen p).

Definition set_Connected (b : bool) (t : Time) (p : Player) : Player :=
  mkPlayer (Player_ID p) (Player_Name p) (Player_Color p) (Player_Number p)
           (Player_IsBot p) b t.

(** [func (m *Manager) CreateGame(player1, player2 *Player) *Game];
    [gameID] is the value of [uuid.New()]. *)
Definition Manager_CreateGame (now : Time) (gameID : UUID)
    (player1 player2 : Player) (m : Manager) : Game * Manager :=
  let game :=
    mkGame gameID GameStatePlaying emptyBoard
           (set_Color PlayerRed 1 player1, set_Color PlayerYellow 2 player2)
           PlayerRed 1 None now None None in
  (game, put_game gameID game m).

(** The loop [for _, p := range game.Players { if p.ID == playerID
    { player = p; break } }]. *)
Definition find_player (game : Game) (playerID : UUID) : option Player :=
  find (fun p => N.eqb (Player_ID p) playerID) (players_of game).

Definition set_PlayerID (playerID : UUID) (mv : Move) : Move :=
  mkMove playerID (Move_Column mv) (Move_Row mv) (Move_Color mv)
         (Move_Timestamp mv).

(** The block of [Manager.MakeMove] after the placement: [CheckWinner],
    then [IsBoardFull], then the switch of turns. *)
Definition after_move (tEnd : Time) (game2 : Game) : Game :=
  match Game_CheckWinner game2 with
  | Some winner =>
      set_FinishedAt (Some tEnd)
        (set_State GameStateFinished (set_Winner (Some winner) game2))
  | None =>
      if Game_IsBoardFull game2
      then set_FinishedAt (Some tEnd) (set_State GameStateFinished game2)
      else if Game_CurrentTurn game2 =? PlayerRed
      then set_CurrentTurn PlayerYellow 2 game2
      else set_CurrentTurn PlayerRed 1 game2
  end.

(** [func (m *Manager) MakeMove(gameID, playerID uuid.UUID, column int)],
    returning a [*Move] and an [error]. [tMove] and [tEnd] are the two
    readings of [time.Now()]. The [*Move] that [game.MakeMove] returns is the object
    [game.LastMove] points to, so [move.PlayerID = playerID] shows in both. *)
Definition Manager_MakeMove (tMove tEnd : Time) (gameID playerID : UUID)
    (column : Z) (m : Manager) : MoveResult * Manager :=
  match Manager_games m !! gameID with
  | None => (MoveErr ErrGameNotFound, m)
  | Some game =>
      if negb (bool_decide (Game_State game = GameStatePlaying))
      then (MoveErr ErrGameNotActive, m)
      else
        match find_player game playerID with
        | None => (MoveErr ErrPlayerNotInGame, m)
        | Some player =>
            if negb (Player_Color player =? Game_CurrentTurn game)
            then (MoveErr ErrNotPlayerTurn, m)
            else
              match Game_MakeMove tMove column (Player_Color player) game with
              | (None, game1) => (MoveErr ErrInvalidMove, put_game gameID game1 m)
              | (Some move, game1) =>
                  let move' := set_PlayerID playerID move in
                  let game2 := set_LastMove (Some move') game1 in
                  let game3 := after_move tEnd game2 in
                  (MoveOk move', put_game gameID game3 m)
              end
        end
  end.

Definition update_player (playerID : UUID) (f : Player -> Player) (g : Game) : Game :=
  let '(p0, p1) := Game_Players g in
  if N.eqb (Player_ID p0) playerID then set_Players (f p0, p1) g
  else if N.eqb (Player_ID p1) playerID then set_Players (p0, f p1) g
  else g.

(** [func (m *Manager) AddPlayerConnection(playerID, gameID uuid.UUID,
    conn WSConnection)] *)
Definition Manager_AddPlayerConnection (now : Time) (playerID gameID : UUID)
    (m : Manager) : Manager :=
  let players := <[playerID := mkPlayerConnection playerID gameID now]>
                   (Manager_players m) in
  match Manager_games m !! gameID with
  | Some game =>
      mkManager (<[gameID := update_player playerID (set_Connected true now) game]>
                   (Manager_games m)) players
  | None => mkManager (Manager_games m) players
  end.

(** [func (m *Manager) RemovePlayerConnection(playerID uuid.UUID)] *)
Definition Manager_RemovePlayerConnection (now : Time) (playerID : UUID)
    (m : Manager) : Manager :=
  match Manager_players m !! playerID with
  | Some conn =>
      let games :=
        match Manager_games m !! Conn_GameID conn with
        | Some game =>
            <[Conn_GameID conn := update_player playerID (set_Connected false now) game]>
              (Manager_games m)
        | None => Manager_games m
        end in
      mkManager games (delete playerID (Manager_players m))
  | None => m
  end.

(** [func (m *Manager) BroadcastToGame(gameID uuid.UUID, message
    interface{})]: the list of [WriteJSON] calls, each with the player whose
    connection receives [message]. *)
Definition Manager_BroadcastToGame (m : Manager) (gameID : UUID)
    (message : WSMessage) : list (UUID * WSMessage) :=
  match Manager_games m !! gameID with
  | None => []
  | Some game =>
      omap (fun p => match Manager_players m !! Player_ID p with
                     | Some _ => Some (Player_ID p, message)
                     | None => None
                     end)
           (players_of game)
  end.

(** [gracePeriod := 30 * time.Second], in nanoseconds. *)
Definition gracePeriod : Z := 30 * 1000000000.

(** [t.Sub(u)]: the difference, saturated to the range of [time.Duration]. *)
Definition Time_Sub (t u : Time) : Z :=
  Z.max (- 2 ^ 63) (Z.min (2 ^ 63 - 1) (t - u)).

(** The test [!player.Connected && now.Sub(player.LastSeen) > gracePeriod]. *)
Definition disconnectedTooLong (now : Time) (player : Player) : bool :=
  negb (Player_Connected player)
  && (Time_Sub now (Player_LastSeen player) >? gracePeriod).

(** The message literal of the sweep. *)
Definition disconnect_message (gameID : UUID) (game : Game) : WSMessage :=
  mkWSMessage MsgGameEnd
    (mkGameEndPayload gameID None "Player disconnected" game 0 false)
    0 "".

(** What the body of [for gameID, game := range m.games] does to [game]:
    [Some] of the game it leaves when it ends the game, [None] when it skips
    it. The loop over the players acts at the first one that has been away
    too long and then leaves ([break]); [tEnd] is the inner [time.Now()].
    [game.Winner = &p.Color] points into the player; no operation of this
    development writes a player's colour after [CreateGame], so the colour
    itself is recorded. *)
Definition forfeit (now tEnd : Time) (game : Game) : option Game :=
  if negb (bool_decide (Game_State game = GameStatePlaying)) then None
  else
    match find (disconnectedTooLong now) (players_of game) with
    | None => None
    | Some _ =>
        let game1 := set_FinishedAt (Some tEnd)
                       (set_State GameStateFinished game) in
        Some match find Player_Connected (players_of game1) with
             | Some p => set_Winner (Some (Player_Color p)) game1
             | None => game1
             end
    end.

(** The body of the loop, with the broadcast that closes it. The source
    makes this call while it holds [m.mutex] for writing, and
    [BroadcastToGame] begins by taking the same mutex for reading; locking
    is outside this model, which records the writes the call makes once it
    runs. *)
Definition cleanup_game (now tEnd : Time) (gameID : UUID) (m : Manager)
    (game : Game) : Manager * list (UUID * WSMessage) :=
  match forfeit now tEnd game with
  | None => (m, [])
  | Some game' =>
      let m' := put_game gameID game' m in
      (m', Manager_BroadcastToGame m' gameID (disconnect_message gameID game'))
  end.

(** [func (m *Manager) cleanupDisconnectedPlayers()]. Go leaves the order of
    [range] over a map open: [order] is the order of this run, and
    [clock gameID] the inner [time.Now()] read while [gameID] is handled.
    The result is the manager and the messages written out, oldest first. *)
Definition Manager_cleanupDisconnectedPlayers (now : Time) (clock : UUID -> Time)
    (order : list UUID) (m : Manager) : Manager * list (UUID * WSMessage) :=
  foldl
    (fun '(m, out) gameID =>
       match Manager_games m !! gameID with
       | None => (m, out)
       | Some game =>
           let '(m', sent) := cleanup_game now (clock gameID) gameID m game in
           (m', out ++ sent)
       end)
    (m, []) order.

(** *** Sessions as the manager keeps them *)

(** What [CreateGame] sets up and every operation keeps: a 6 x 7 board, the
    first player red and the second yellow, a turn that is one of the two
    colours, and neither winner nor finish time while the game is played. *)
Definition Game_inv (g : Game) : Prop :=
  wf_board (Game_Board g)
  /\ Player_Color (fst (Game_Players g)) = PlayerRed
  /\ Player_Color (snd (Game_Players g)) = PlayerYellow
  /\ valid_color (Game_CurrentTurn g)
  /\ (Game_State g = GameStatePlaying ->
      Game_Winner g = None /\ Game_FinishedAt g = None).

Definition Manager_inv (m : Manager) : Prop :=
  forall gameID game, Manager_games m !! gameID = Some game -> Game_inv game.

(** The operations that act on sessions once they exist. *)
Inductive Op : Type :=
  | OpMakeMove (tMove tEnd : Time) (gameID playerID : UUID) (column : Z)
  | OpSweep (now : Time) (clock : UUID -> Time) (order : list UUID)
  | OpAddConnection (now : Time) (playerID gameID : UUID)
  | OpRemoveConnection (now : Time) (playerID : UUID).

Definition step (m : Manager) (op : Op) : Manager :=
  match op with
  | OpMakeMove tMove tEnd gameID playerID column =>
      snd (Manager_MakeMove tMove tEnd gameID playerID column m)
  | OpSweep now clock order =>
      fst (Manager_cleanupDisconnectedPlayers now clock order m)
  | OpAddConnection now playerID gameID =>
      Manager_AddPlayerConnection now playerID gameID m
  | OpRemoveConnection now playerID =>
      Manager_RemovePlayerConnection now playerID m
  end.

Definition run (ops : list Op) (m : Manager) : Manager := foldl step m ops.

(* ===================================================================== *)
(** ** package bot *)
(* ===================================================================== *)

(** The bot receives a [*Game] and works on a local copy of the pointee, so
    these two functions are written over a memory of [Game] objects:
    [Exec A] is a computation that reads and writes the memory and yields an
    [A]; it has no result when it dereferences an address that holds no
    game. *)
Abbreviation Mem := (gmap positive Game).

Definition Exec (A : Type) : Type := Mem -> option (A * Mem).

#[global] Instance Exec_ret : MRet Exec := fun A a σ => Some (a, σ).

#[global] Instance Exec_bind : MBind Exec := fun A B f c σ =>
  match c σ with
  | Some (a, σ') => f a σ'
  | None => None
  end.

(** [*p] *)
Definition deref (p : positive) : Exec Game := fun σ =>
  match σ !! p with
  | Some g => Some (g, σ)
  | None => None
  end.

(** [*p = g] *)
Definition assign (p : positive) (g : Game) : Exec unit := fun σ =>
  match σ !! p with
  | Some _ => Some (tt, <[p := g]> σ)
  | None => None
  end.

(** A new local variable of type [Game] holding [g]; its address is one
    that is not in use. *)
Definition new_local (g : Game) : Exec positive := fun σ =>
  let p := fresh (dom σ) in Some (p, <[p := g]> σ).

(** A call [p.method(...)] of a method with receiver [*Game]. *)
Definition call {A : Type} (p : positive) (method : Game -> A * Game) : Exec A :=
  g ← deref p;
  let '(a, g') := method g in
  _ ← assign p g';
  mret a.

(** The loop of [findWinningMove] over the columns still to try. *)
Fixpoint findWinningMove_loop (now : Time) (game : positive)
    (color : PlayerColor) (cols : list Z) : Exec Z :=
  match cols with
  | [] => mret (-1)
  | col :: rest =>
      g ← deref game;
      if negb (Game_IsValidMove g col) then findWinningMove_loop now game color rest
      else
        g ← deref game;
        testGame ← new_local g;
        g ← deref game;
        t ← deref testGame;
        _ ← assign testGame (set_Board (Game_Board g) t);
        move ← call testGame (Game_MakeMove now col color);
        match move with
        | None => findWinningMove_loop now game color rest
        | Some _ =>
            winner ← call testGame (fun t => (Game_CheckWinner t, t));
            match winner with
            | Some w =>
                if w =? color then mret col
                else findWinningMove_loop now game color rest
            | None => findWinningMove_loop now game color rest
            end
        end
  end.

(** [func findWinningMove(game *Game, color PlayerColor) int] *)
Definition findWinningMove (now : Time) (game : positive) (color : PlayerColor)
    : Exec Z :=
  findWinningMove_loop now game color (seqZ 0 7).

Definition centerColumns : list Z := [3; 2; 4; 1; 5; 0; 6].

(** [func GetBestMove(game *Game, botColor PlayerColor) int]; [rnd n] is the
    value of [rand.Intn(n)]. *)
Definition GetBestMove (now : Time) (rnd : Z -> Z) (game : positive)
    (botColor : PlayerColor) : Exec Z :=
  move ← findWinningMove now game botColor;
  if negb (move =? -1) then mret move
  else
    let opponentColor :=
      if botColor =? PlayerRed then PlayerYellow else PlayerRed in
    move ← findWinningMove now game opponentColor;
    if negb (move =? -1) then mret move
    else
      g ← deref game;
      match find (Game_IsValidMove g) centerColumns with
      | Some col => mret col
      | None =>
          let validMoves := filter (fun col => Game_IsValidMove g col = true)
                                   (seqZ 0 7) in
          if (0 <? Z.of_nat (length validMoves))
          then mret (default 0 (validMoves !! Z.to_nat
                                   (rnd (Z.of_nat (length validMoves)))))
          else mret (-1)
      end.

(* ===================================================================== *)
(** ** package matchmaking: the queue and the matching pass *)
(* ===================================================================== *)

Record MatchPreferences : Type := mkMatchPreferences {
  Pref_AllowBots : bool;
  Pref_SkillLevel : Z;
  Pref_MaxWaitTime : Z
}.

(** [type QueueEntry struct] (the timer and the connection are left out). *)
Record QueueEntry : Type := mkQueueEntry {
  Entry_PlayerID : UUID;
  Entry_Username : string;
  Entry_JoinedAt : Time;
  Entry_Preferences : MatchPreferences
}.

(** [type Queue struct]: the entries and the ids waiting in [removeChan]
    for the queue worker. *)
Record Queue : Type := mkQueue {
  Queue_entries : gmap N QueueEntry;
  Queue_removeChan : list UUID
}.

(** [func abs(x int) int] *)
Definition abs (x : Z) : Z := if x <? 0 then int_sub 0 x else x.

(** [func (q *Queue) areCompatible(player1, player2 *QueueEntry) bool] *)
Definition Queue_areCompatible (player1 player2 : QueueEntry) : bool :=
  let skillDiff := abs (int_sub (Pref_SkillLevel (Entry_Preferences player1))
                                (Pref_SkillLevel (Entry_Preferences player2))) in
  if skillDiff >? 2 then false else true.

(** [func (q *Queue) GetAllEntries() []*QueueEntry]; [order] is the order in
    which this [range] over the map visits the keys. *)
Definition Queue_GetAllEntries (order : list UUID) (q : Queue) : list QueueEntry :=
  omap (fun k => Queue_entries q !! k) order.

(** [func (q *Queue) GetCompatibleMatch(entry *QueueEntry) *QueueEntry] *)
Definition Queue_GetCompatibleMatch (order : list UUID) (q : Queue)
    (entry : QueueEntry) : option QueueEntry :=
  find (fun candidate =>
          negb (N.eqb (Entry_PlayerID candidate) (Entry_PlayerID entry))
          && Queue_areCompatible entry candidate)
       (omap (fun k => Queue_entries q !! k) order).

(** [func (q *Queue) Remove(playerID uuid.UUID) bool]: the id is handed to
    the worker through [removeChan]. *)
Definition Queue_Remove (playerID : UUID) (q : Queue) : Queue :=
  mkQueue (Queue_entries q) (Queue_removeChan q ++ [playerID]).

(** [func (q *Queue) processRemove(playerID uuid.UUID)], run by the worker
    for an id taken from [removeChan]. *)
Definition Queue_processRemove (playerID : UUID) (q : Queue) : Queue :=
  mkQueue (delete playerID (Queue_entries q)) (Queue_removeChan q).

(** [func (s *MatchmakingService) processMatches()], with the worker not
    scheduled during the pass. [order] is the order of [GetAllEntries],
    [scan i] the order of the [range] inside the [GetCompatibleMatch] call
    of round [i]. The result lists the pairs given to [createPlayerMatch],
    in the order of the calls. *)
Fixpoint processMatches_loop (scan : nat -> list UUID) (i : nat)
    (entries : list QueueEntry) (q : Queue)
    : list (QueueEntry * QueueEntry) * Queue :=
  match entries with
  | [] => ([], q)
  | entry1 :: rest =>
      match Queue_entries q !! Entry_PlayerID entry1 with
      | None => processMatches_loop scan (S i) rest q
      | Some _ =>
          match Queue_GetCompatibleMatch (scan i) q entry1 with
          | Some match_ =>
              let q' := Queue_Remove (Entry_PlayerID match_)
                          (Queue_Remove (Entry_PlayerID entry1) q) in
              let '(pairs, q'') := processMatches_loop scan (S i) rest q' in
              ((entry1, match_) :: pairs, q'')
          | None => processMatches_loop scan (S i) rest q
          end
      end
  end.

Definition processMatches (order : list UUID) (scan : nat -> list UUID)
    (q : Queue) : list (QueueEntry * QueueEntry) * Queue :=
  processMatches_loop scan 0 (Queue_GetAllEntries order q) q.


(* ===================================================================== *)
(** ** The winner scan in the words of the specification *)
(* ===================================================================== *)

(** The four direction vectors, in the order they are tried: horizontal
    (right), vertical (down), diagonal down-right, diagonal down-left. *)
Definition directions : list (Z * Z) := [(0, 1); (1, 0); (1, 1); (1, -1)].

(** All cells, rows ascending (top to bottom), columns ascending inside a
    row (left to right). *)
Definition scan_order : list (Z * Z) :=
  row ← seqZ 0 6; col ← seqZ 0 7; [(row, col)].

Definition in_bounds (row col : Z) : bool :=
  (0 <=? row) && (row <? 6) && (0 <=? col) && (col <? 7).

(** Four consecutive cells from [(row, col)] along [d], all inside the board
    and all of the colour of the first. *)
Definition four_in_line (b : Board) (row col : Z) (d : Z * Z) : bool :=
  forallb
    (fun i => in_bounds (row + i * fst d) (col + i * snd d)
              && (Board_at b (row + i * fst d) (col + i * snd d)
                  =? Board_at b row col))
    [0; 1; 2; 3].

(** The first occupied cell, in [scan_order], that starts a line of four in
    one of the [directions], tried in their order; the answer is the colour
    of that cell (a cell holds the colour plus one). *)
Definition winner_scan (b : Board) : option PlayerColor :=
  first_some
    (fun '(row, col) =>
       if Board_at b row col =? 0 then None
       else first_some
              (fun d => if four_in_line b row col d
                        then Some (int_sub (Board_at b row col) 1)
                        else None)
              directions)
    scan_order.

(* ===================================================================== *)
(** ** A session to run the definitions on *)
(* ===================================================================== *)

Definition alice : Player := mkPlayer 1%N "alice" 0 0 false true 0.
Definition bob : Player := mkPlayer 2%N "bob" 0 0 false true 0.

(** The manager after [CreateGame(alice, bob)] under the id 7. *)
Definition example_game : Game :=
  fst (Manager_CreateGame 0 7%N alice bob (mkManager ∅ ∅)).

Definition example_manager : Manager :=
  snd (Manager_CreateGame 0 7%N alice bob (mkManager ∅ ∅)).

(** The same session after both players connected at time 0 and alice's
    connection was removed at time 0: alice is away, bob is connected. *)
Definition forfeit_manager : Manager :=
  Manager_RemovePlayerConnection 0 1%N
    (Manager_AddPlayerConnection 0 2%N 7%N
       (Manager_AddPlayerConnection 0 1%N 7%N example_manager)).

(** One second after the end of alice's grace period. *)
Definition sweep_time : Time := gracePeriod + 1000000000.

(** [keeps g g']: what a later state [g'] of a session retains of an earlier
    state [g]. Every occupied cell holds what it held, and a game that was
    finished is finished, with the board, winner and finish time it had. *)
Definition keeps (g g' : Game) : Prop :=
  (forall r c, Board_at (Game_Board g) r c <> 0 ->
               Board_at (Game_Board g') r c = Board_at (Game_Board g) r c)
  /\ (Game_State g = GameStateFinished ->
      Game_State g' = GameStateFinished
      /\ Game_Board g' = Game_Board g
      /\ Game_Winner g' = Game_Winner g
      /\ Game_FinishedAt g' = Game_FinishedAt g).

(* ===================================================================== *)
(** ** The bot's tests, on a game *)
(* ===================================================================== *)

(** [col] is a valid move of [g] and [CheckWinner], run on the game after
    the simulated placement of [color] in [col], answers [color]. *)
Definition wins_at (now : Time) (g : Game) (color : PlayerColor) (col : Z) : bool :=
  Game_IsValidMove g col
  && match Game_CheckWinner (snd (Game_MakeMove now col color g)) with
     | Some w => w =? color
     | None => false
     end.

(** The colour [GetBestMove] blocks. *)
Definition opponent (botColor : PlayerColor) : PlayerColor :=
  if botColor =? PlayerRed then PlayerYellow else PlayerRed.

(** [col] is the lowest of the columns 0..6 that satisfies [P]. *)
Definition lowest_column (P : Z -> bool) (col : Z) : Prop :=
  0 <= col < 7 /\ P col = true /\ forall c, 0 <= c < col -> P c = false.

(** No column 0..6 satisfies [P]. *)
Definition no_column (P : Z -> bool) : Prop :=
  forall c, 0 <= c < 7 -> P c = false.

(** The three searches of [GetBestMove], read off the game the pointer
    refers to: used to state what the call returns. *)
Definition best_column (now : Time) (g : Game) (botColor : PlayerColor) : Z :=
  match find (wins_at now g botColor) (seqZ 0 7) with
  | Some col => col
  | None =>
      match find (wins_at now g (opponent botColor)) (seqZ 0 7) with
      | Some col => col
      | None => default (-1) (find (Game_IsValidMove g) centerColumns)
      end
  end.

(** Red in columns 1, 2, 3 of the bottom row, yellow on top of the first
    two, yellow to move: red wins by playing column 0 and by playing
    column 4. *)
Definition double_threat_manager : Manager :=
  run [OpMakeMove 1 1 7%N 1%N 1; OpMakeMove 2 2 7%N 2%N 1;
       OpMakeMove 3 3 7%N 1%N 2; OpMakeMove 4 4 7%N 2%N 2;
       OpMakeMove 5 5 7%N 1%N 3]
      example_manager.

Definition double_threat_game : Game :=
  default example_game (Manager_games double_threat_manager !! 7%N).

(** Three waiting players of the same skill level, who joined at times 1, 2
    and 3. *)
Definition entry_a : QueueEntry :=
  mkQueueEntry 1%N "a" 1 (mkMatchPreferences true 5 10).
Definition entry_b : QueueEntry :=
  mkQueueEntry 2%N "b" 2 (mkMatchPreferences true 5 10).
Definition entry_c : QueueEntry :=
  mkQueueEntry 3%N "c" 3 (mkMatchPreferences true 5 10).

Definition queue_abc : Queue :=
  mkQueue (<[1%N := entry_a]> (<[2%N := entry_b]> (<[3%N := entry_c]> ∅))) [].

(** Both players away since time 0. *)
Definition both_away_manager : Manager :=
  Manager_RemovePlayerConnection 0 2%N forfeit_manager.

Definition both_away_game : Game :=
  default example_game (Manager_games both_away_manager !! 7%N).

(* ===================================================================== *)
(** ** Positions *)
(* ===================================================================== *)

(** Every cell holds 0 (empty), 1 (red) or 2 (yellow). *)
Definition cells_ok (b : Board) : Prop :=
  forall r c, Board_at b r c = 0 \/ Board_at b r c = 1 \/ Board_at b r c = 2.

(** No piece floats: under an occupied cell the column is occupied. *)
Definition gravity (b : Board) : Prop :=
  forall r c, 0 <= r < 5 -> Board_at b r c <> 0 -> Board_at b (r + 1) c <> 0.

(** A position that placements can produce. *)
Definition legal_board (b : Board) : Prop :=
  wf_board b /\ cells_ok b /\ gravity b.

(** The number of occupied cells among the 42. *)
Definition occupied (b : Board) : nat :=
  length (filter (fun rc => Board_at b (fst rc) (snd rc) <> 0) scan_order).

(** A series of [Game.MakeMove] calls on one game, given up at the first
    call that returns [nil]. *)
Fixpoint place_all (now : Time) (moves : list (Z * PlayerColor)) (g : Game)
    : option Game :=
  match moves with
  | [] => Some g
  | (column, color) :: rest =>
      match Game_MakeMove now column color g with
      | (Some _, g') => place_all now rest g'
      | (None, _) => None
      end
  end.

(** What every session of the manager satisfies, beyond [Game_inv]: the
    position is legal, the state is [Playing] or [Finished], a finished
    session has its finish time, the numbers kept for the front end are the
    colours plus one, and while the session is played red is to move
    exactly when the number of pieces is even. *)
Definition Session_ok (g : Game) : Prop :=
  Game_inv g
  /\ legal_board (Game_Board g)
  /\ Game_State g <> GameStateWaiting
  /\ (Game_State g = GameStateFinished -> Game_FinishedAt g <> None)
  /\ Game_CurrentTurnNumber g = Game_CurrentTurn g + 1
  /\ (Game_State g = GameStatePlaying ->
      (Game_CurrentTurn g = PlayerRed <-> Nat.Even (occupied (Game_Board g)))).

Definition Manager_ok (m : Manager) : Prop :=
  forall gameID game, Manager_games m !! gameID = Some game -> Session_ok game.

(** The example session with both players connected at time 0. *)
Definition connected_manager : Manager :=
  Manager_AddPlayerConnection 0 2%N 7%N
    (Manager_AddPlayerConnection 0 1%N 7%N example_manager).

Definition connected_game : Game :=
  default example_game (Manager_games connected_manager !! 7%N).

(* ===================================================================== *)
(** ** package matchmaking: more of the queue *)
(* ===================================================================== *)

(** [func (q *Queue) GetEntry(playerID uuid.UUID)], the entry and whether it
    exists. *)
Definition Queue_GetEntry (playerID : UUID) (q : Queue) : option QueueEntry :=
  Queue_entries q !! playerID.

(** [func (q *Queue) GetOldestEntry() *QueueEntry]; [order] is the order of
    the [range] over the map and [t.Before(u)] is [t < u]. *)
Definition Queue_GetOldestEntry (order : list UUID) (q : Queue)
    : option QueueEntry :=
  foldl (fun oldest entry =>
           match oldest with
           | None => Some entry
           | Some o =>
               if Entry_JoinedAt entry <? Entry_JoinedAt o then Some entry
               else Some o
           end)
        None (omap (fun k => Queue_entries q !! k) order).

(** [func (s *MatchmakingService) calculatePosition(entry *QueueEntry) int];
    [order] is the order of the [range] inside [GetAllEntries]. *)
Definition calculatePosition (order : list UUID) (q : Queue) (entry : QueueEntry)
    : Z :=
  foldl (fun position e =>
           if Entry_JoinedAt e <? Entry_JoinedAt entry then int_add position 1
           else position)
        1 (Queue_GetAllEntries order q).

(* ===================================================================== *)
(** ** package matchmaking: the matchmaker with the ordered queue *)
(* ===================================================================== *)

(** [type QueueEntry struct] as [Matchmaker] fills it: the player and the
    join time (the connection and the timer are left out). *)
Record WaitingEntry : Type := mkWaitingEntry {
  Waiting_Player : Player;
  Waiting_JoinedAt : Time
}.

(** [type Matchmaker struct] *)
Record Matchmaker : Type := mkMatchmaker {
  Matchmaker_queue : list WaitingEntry;
  Matchmaker_gameManager : Manager
}.

(** [type GameFoundPayload struct]; [Game *Game] is the game as it is when
    the message is written out. *)
Record GameFoundPayload : Type := mkGameFoundPayload {
  GameFound_Game : Game;
  GameFound_PlayerID : UUID
}.

(** [func NewBot() *models.Player]; [botID] is the value of [uuid.New()]. *)
Definition NewBot (now : Time) (botID : UUID) : Player :=
  mkPlayer botID "ConnectBot" 0 0 true true now.

(** [func (m *Matchmaker) JoinQueue(playerName string, conn WSConnection)
    *models.Player]; [playerID] is the value of [uuid.New()]. *)
Definition Matchmaker_JoinQueue (now : Time) (playerID : UUID)
    (playerName : string) (mm : Matchmaker) : Player * Matchmaker :=
  let player := mkPlayer playerID playerName 0 0 false true now in
  (player,
   mkMatchmaker (Matchmaker_queue mm ++ [mkWaitingEntry player now])
                (Matchmaker_gameManager mm)).

(** The loop [for i, entry := range m.queue { if entry.Player.ID == playerID
    { m.queue = append(m.queue[:i], m.queue[i+1:]...); break } }]: the
    queue without its first entry for [playerID], and whether there was
    one. *)
Fixpoint remove_entry (playerID : UUID) (queue : list WaitingEntry)
    : list WaitingEntry * bool :=
  match queue with
  | [] => ([], false)
  | entry :: rest =>
      if N.eqb (Player_ID (Waiting_Player entry)) playerID then (rest, true)
      else let '(rest', found) := remove_entry playerID rest in
           (entry :: rest', found)
  end.

(** [func (m *Matchmaker) LeaveQueue(playerID uuid.UUID)] *)
Definition Matchmaker_LeaveQueue (playerID : UUID) (mm : Matchmaker) : Matchmaker :=
  mkMatchmaker (fst (remove_entry playerID (Matchmaker_queue mm)))
               (Matchmaker_gameManager mm).

(** [func (m *Matchmaker) notifyGameFound(entry *QueueEntry, game
    *models.Game)]: the write to the connection of the entry, tagged with
    the id of the entry's player. *)
Definition notifyGameFound (gm : Manager) (entry : WaitingEntry) (game : Game)
    : UUID * GameFoundPayload :=
  (Player_ID (Waiting_Player entry),
   mkGameFoundPayload (default game (Manager_games gm !! Game_ID game))
                      (Player_ID (Waiting_Player entry))).

(** The loop of [processQueue]. [newID i] is the value of [uuid.New()] in
    the [CreateGame] of round [i], and [clock] gives the readings of
    [time.Now()] of the round: one for [CreateGame], one for each
    [AddPlayerConnection]. The result is the queue left, the manager, and
    the [game_found] messages written, oldest first. *)
Fixpoint processQueue_loop (newID : nat -> UUID) (clock : nat -> Time) (i : nat)
    (queue : list WaitingEntry) (gm : Manager)
    : list WaitingEntry * Manager * list (UUID * GameFoundPayload) :=
  match queue with
  | player1Entry :: player2Entry :: rest =>
      let '(game, gm1) :=
        Manager_CreateGame (clock (3 * i)%nat) (newID i)
          (Waiting_Player player1Entry) (Waiting_Player player2Entry) gm in
      let gm2 := Manager_AddPlayerConnection (clock (3 * i + 1)%nat)
                   (Player_ID (Waiting_Player player1Entry)) (Game_ID game) gm1 in
      let gm3 := Manager_AddPlayerConnection (clock (3 * i + 2)%nat)
                   (Player_ID (Waiting_Player player2Entry)) (Game_ID game) gm2 in
      let note1 := notifyGameFound gm3 player1Entry game in
      let note2 := notifyGameFound gm3 player2Entry game in
      let '(queue', gm', notes) :=
        processQueue_loop newID clock (S i) rest gm3 in
      (queue', gm', note1 :: note2 :: notes)
  | _ => (queue, gm, [])
  end.

(** [func (m *Matchmaker) processQueue()] *)
Definition Matchmaker_processQueue (newID : nat -> UUID) (clock : nat -> Time)
    (mm : Matchmaker) : Matchmaker * list (UUID * GameFoundPayload) :=
  let '(queue', gm', notes) :=
    processQueue_loop newID clock 0 (Matchmaker_queue mm)
                      (Matchmaker_gameManager mm) in
  (mkMatchmaker queue' gm', notes).

(** [func (m *Matchmaker) matchWithBot(entry *QueueEntry)], run when the
    timer of [entry] fires. [gameID] and [botID] are the values of
    [uuid.New()], [tBot], [tGame] and [tConn] the readings of [time.Now()].
    The result is the matchmaker, the message written, and the session and
    bot for which the bot driver is started. *)
Definition Matchmaker_matchWithBot (tBot tGame tConn : Time) (gameID botID : UUID)
    (entry : WaitingEntry) (mm : Matchmaker)
    : Matchmaker * list (UUID * GameFoundPayload) * option (UUID * UUID) :=
  let '(queue', found) :=
    remove_entry (Player_ID (Waiting_Player entry)) (Matchmaker_queue mm) in
  if negb found then (mm, [], None)
  else
    let bot := NewBot tBot botID in
    let '(gameInstance, gm1) :=
      Manager_CreateGame tGame gameID (Waiting_Player entry) bot
                         (Matchmaker_gameManager mm) in
    let gm2 := Manager_AddPlayerConnection tConn
                 (Player_ID (Waiting_Player entry)) (Game_ID gameInstance) gm1 in
    (mkMatchmaker queue' gm2,
     [notifyGameFound gm2 entry gameInstance],
     Some (Game_ID gameInstance, Player_ID bot)).
(* ===================================================================== *)
(** * Properties *)
(* ===================================================================== *)

(** ** Machine integers *)

Lemma int_wrap_small (z : Z) : - 2 ^ 63 <= z < 2 ^ 63 -> int_wrap z = z.
Proof.
  intros Hz. unfold int_wrap.
  rewrite Z.mod_small by lia. lia.
Qed.

Lemma int_add_small (a b : Z) :
  - 2 ^ 62 <= a < 2 ^ 62 -> - 2 ^ 62 <= b < 2 ^ 62 -> int_add a b = a + b.
Proof. intros Ha Hb. unfold int_add. apply int_wrap_small. lia. Qed.

Lemma int_sub_small (a b : Z) :
  - 2 ^ 62 <= a < 2 ^ 62 -> - 2 ^ 62 <= b < 2 ^ 62 -> int_sub a b = a - b.
Proof. intros Ha Hb. unfold int_sub. apply int_wrap_small. lia. Qed.

Lemma color_code (color : PlayerColor) :
  valid_color color -> int_add color 1 = color + 1 /\ color + 1 <> 0.
Proof. intros [-> | ->]; split; reflexivity || discriminate. Qed.

(** ** The board as an array *)

Section board_array.
Context (b : Board) (r c v : Z).

Lemma Board_set_wf : wf_board b -> wf_board (Board_set b r c v).
Proof.
  intros [Hlen Hrows]. unfold Board_set.
  destruct ((0 <=? r) && (0 <=? c)); [| by split].
  split; [by rewrite length_alter |].
  apply Forall_alter; [done |].
  intros row Hrow. rewrite length_insert.
  eapply Forall_lookup_1 in Hrows; eauto.
Qed.

Lemma Board_at_set_same :
  wf_board b -> 0 <= r < 6 -> 0 <= c < 7 -> Board_at (Board_set b r c v) r c = v.
Proof.
  intros [Hlen Hrows] Hr Hc. unfold Board_at, Board_set.
  replace (0 <=? r) with true by lia. replace (0 <=? c) with true by lia.
  simpl. rewrite list_lookup_alter_eq.
  destruct (lookup_lt_is_Some_2 b (Z.to_nat r)) as [row Hrow]; [lia |].
  rewrite Hrow. simpl.
  rewrite list_lookup_insert_eq; [done |].
  eapply Forall_lookup_1 in Hrows; eauto. simpl in Hrows. lia.
Qed.

Lemma Board_at_set_other (r' c' : Z) :
  r' <> r \/ c' <> c -> Board_at (Board_set b r c v) r' c' = Board_at b r' c'.
Proof.
  intros Hne. unfold Board_at, Board_set.
  destruct ((0 <=? r') && (0 <=? c')) eqn:Hin'; [| done].
  destruct ((0 <=? r) && (0 <=? c)) eqn:Hin; [| done].
  apply andb_prop in Hin as [Hr Hc]. apply andb_prop in Hin' as [Hr' Hc'].
  destruct (decide (r' = r)) as [-> | Hrr].
  - rewrite list_lookup_alter_eq.
    destruct (b !! Z.to_nat r) as [row |]; [| done]. simpl.
    rewrite list_lookup_insert_ne; [done | lia].
  - rewrite list_lookup_alter_ne; [done | lia].
Qed.
End board_array.

Lemma emptyBoard_wf : wf_board emptyBoard.
Proof. split; [reflexivity | repeat constructor]. Qed.

(** ** Placing a piece *)

Lemma Game_IsValidMove_iff (g : Game) (column : Z) :
  Game_IsValidMove g column = true
  <-> 0 <= column < 7 /\ Board_at (Game_Board g) 0 column = 0.
Proof.
  unfold Game_IsValidMove.
  destruct (column <? 0) eqn:H0; simpl; [split; [done | lia] |].
  destruct (column >=? 7) eqn:H7; simpl; [split; [done | lia] |].
  rewrite Z.eqb_eq. split; [intros ?; split; [lia | done] | tauto].
Qed.

Lemma lowestEmptyRow_spec (b : Board) (column : Z) (n : nat) :
  let row := lowestEmptyRow b column n in
  (row = -1 /\ forall k, 0 <= k < Z.of_nat n -> Board_at b k column <> 0)
  \/ (0 <= row < Z.of_nat n /\ Board_at b row column = 0
      /\ forall k, row < k < Z.of_nat n -> Board_at b k column <> 0).
Proof.
  induction n as [| n IH]; simpl.
  - left. split; [done | lia].
  - destruct (Board_at b (Z.of_nat n) column =? 0) eqn:Hcell.
    + right. apply Z.eqb_eq in Hcell. split; [lia |]. split; [done | lia].
    + apply Z.eqb_neq in Hcell.
      destruct IH as [[Hrow Hall] | (Hrow & Hzero & Hall)].
      * left. split; [done |]. intros k Hk.
        destruct (decide (k = Z.of_nat n)) as [-> | ?]; [done | apply Hall; lia].
      * right. split; [lia |]. split; [done |]. intros k Hk.
        destruct (decide (k = Z.of_nat n)) as [-> | ?]; [done | apply Hall; lia].
Qed.

Lemma lowestEmptyRow_valid (g : Game) (column : Z) :
  Game_IsValidMove g column = true ->
  let row := lowestEmptyRow (Game_Board g) column 6 in
  0 <= row < 6 /\ Board_at (Game_Board g) row column = 0
  /\ forall k, row < k < 6 -> Board_at (Game_Board g) k column <> 0.
Proof.
  intros Hvalid row. apply Game_IsValidMove_iff in Hvalid as [Hcol Htop].
  destruct (lowestEmptyRow_spec (Game_Board g) column 6) as [[_ Hall] | H].
  - exfalso. apply (Hall 0); [lia | done].
  - exact H.
Qed.

(** What [Game.MakeMove] returns, case by case. *)
Lemma Game_MakeMove_invalid (now : Time) (column : Z) (color : PlayerColor) (g : Game) :
  Game_IsValidMove g column = false ->
  Game_MakeMove now column color g = (None, g).
Proof. intros H. unfold Game_MakeMove. by rewrite H. Qed.

Lemma Game_MakeMove_valid (now : Time) (column : Z) (color : PlayerColor) (g : Game) :
  Game_IsValidMove g column = true ->
  let row := lowestEmptyRow (Game_Board g) column 6 in
  let move := mkMove uuid_Nil column row color now in
  Game_MakeMove now column color g =
    (Some move,
     set_LastMove (Some move)
       (set_Board (Board_set (Game_Board g) row column (int_add color 1)) g)).
Proof.
  intros H row move. unfold Game_MakeMove. rewrite H. cbv zeta. cbn [negb].
  destruct (lowestEmptyRow_valid g column H) as (Hrow & _).
  destruct (Z.eqb_spec (lowestEmptyRow (Game_Board g) column 6) (-1)); [lia | done].
Qed.

(** C3. The board-level move [Game.MakeMove] is accepted exactly when
    [0 <= column < 7] and the top cell of the column is empty (which is what
    [IsValidMove] tests). When it is accepted, the move goes to the lowest
    empty row of the column (every row below it is occupied), that cell
    receives the colour, and it is the one cell of the board that changes.
    When it is refused, in particular when the column is out of range or
    full, the result is [nil] and the game, hence every cell, is as before. *)
Theorem C3_board_move (now : Time) (g : Game) (column : Z) (color : PlayerColor) :
  wf_board (Game_Board g) ->
  valid_color color ->
  let b := Game_Board g in
  let res := fst (Game_MakeMove now column color g) in
  let g' := snd (Game_MakeMove now column color g) in
  (is_Some res <-> 0 <= column < 7 /\ Board_at b 0 column = 0)
  /\ (Game_IsValidMove g column = true
      <-> 0 <= column < 7 /\ Board_at b 0 column = 0)
  /\ (forall mv, res = Some mv ->
        Move_Column mv = column /\ Move_Color mv = color
        /\ 0 <= Move_Row mv < 6
        /\ Board_at b (Move_Row mv) column = 0
        /\ (forall r, Move_Row mv < r < 6 -> Board_at b r column <> 0)
        /\ Board_at (Game_Board g') (Move_Row mv) column = color + 1
        /\ forall r c, 0 <= r < 6 -> 0 <= c < 7 ->
             (Board_at (Game_Board g') r c <> Board_at b r c
              <-> r = Move_Row mv /\ c = column))
  /\ (res = None -> g' = g)
  /\ ((~ 0 <= column < 7 \/ forall r, 0 <= r < 6 -> Board_at b r column <> 0)
      -> res = None /\ g' = g).
Proof.
  intros Hwf Hcolor b res g'. subst b res g'.
  pose proof (Game_IsValidMove_iff g column) as Hiff.
  destruct (Game_IsValidMove g column) eqn:Hvalid.
  - destruct (lowestEmptyRow_valid g column Hvalid) as (Hrow & Hzero & Hbelow).
    rewrite Game_MakeMove_valid by done.
    set (row := lowestEmptyRow (Game_Board g) column 6) in *.
    destruct (color_code color Hcolor) as [Hcode Hnz]. rewrite Hcode.
    assert (Hcol : 0 <= column < 7 /\ Board_at (Game_Board g) 0 column = 0)
      by (by apply Hiff).
    cbn [fst snd Game_Board set_LastMove set_Board].
    split; [split; [done | by eexists] |].
    split; [done |].
    split.
    { intros mv [= <-]. cbn [Move_Column Move_Color Move_Row].
      split; [done |]. split; [done |]. split; [done |]. split; [done |].
      split; [done |].
      split; [apply Board_at_set_same; [done | done | lia] |].
      intros r c Hr Hc. split.
      - intros Hchg.
        destruct (decide (r = row)) as [-> | Hne];
          [destruct (decide (c = column)) as [-> | Hne] |]; [done | |];
          exfalso; apply Hchg; apply Board_at_set_other; auto.
      - intros [-> ->]. rewrite Board_at_set_same by (done || lia). lia. }
    split; [discriminate |].
    intros [Hout | Hfull]; [lia |].
    exfalso. apply (Hfull 0); [lia | apply Hcol].
  - rewrite Game_MakeMove_invalid by done. cbn [fst snd].
    split; [split; [intros [? [=]] | intros H; apply Hiff in H; discriminate] |].
    split; [done |].
    split; [discriminate |].
    done.
Qed.

Lemma C3_board_move_witness :
  wf_board (Game_Board example_game) /\ valid_color PlayerRed
  /\ is_Some (fst (Game_MakeMove 0 3 PlayerRed example_game)).
Proof.
  split; [exact emptyBoard_wf |]. split; [by left |].
  apply (C3_board_move 0 example_game 3 PlayerRed emptyBoard_wf
           (or_introl eq_refl)).
  split; [lia | reflexivity].
Defined.

(** ** The winner scan *)

Lemma first_some_ext_in {A B : Type} (f g : A -> option B) (l : list A) :
  (forall x, x ∈ l -> f x = g x) -> first_some f l = first_some g l.
Proof.
  induction l as [| x l IH]; intros Hfg; simpl; [done |].
  rewrite (Hfg x) by set_solver.
  rewrite IH; [done |]. intros y Hy. apply Hfg. set_solver.
Qed.

Lemma first_some_app {A B : Type} (f : A -> option B) (l1 l2 : list A) :
  first_some f (l1 ++ l2) =
  match first_some f l1 with
  | Some y => Some y
  | None => first_some f l2
  end.
Proof.
  induction l1 as [| x l1 IH]; simpl; [done |].
  destruct (f x); [done | exact IH].
Qed.

Lemma first_some_bind {A B C : Type} (f : B -> option C) (k : A -> list B)
    (l : list A) :
  first_some f (l ≫= k) = first_some (fun x => first_some f (k x)) l.
Proof.
  induction l as [| x l IH]; [done |].
  rewrite bind_cons, first_some_app, IH. simpl.
  by destruct (first_some f (k x)).
Qed.

Lemma first_some_singleton {A B : Type} (f : A -> option B) (x : A) :
  first_some f [x] = f x.
Proof. simpl. by destruct (f x). Qed.

Lemma forallb_ext_In {A : Type} (f g : A -> bool) (l : list A) :
  (forall x, In x l -> f x = g x) -> forallb f l = forallb g l.
Proof.
  induction l as [| x l IH]; intros Hfg; simpl; [done |].
  rewrite (Hfg x) by (by left).
  rewrite IH; [done |]. intros y Hy. apply Hfg. by right.
Qed.

(** [checkLine] from a cell of the board along one of the four directions
    is the line test of the specification: no step leaves the range of
    [int]. *)
Lemma Game_checkLine_four_in_line (g : Game) (row col dr dc : Z) :
  0 <= row < 6 -> 0 <= col < 7 -> -1 <= dr <= 1 -> -1 <= dc <= 1 ->
  Game_checkLine g row col dr dc (Board_at (Game_Board g) row col)
  = four_in_line (Game_Board g) row col (dr, dc).
Proof.
  intros Hrow Hcol Hdr Hdc. unfold Game_checkLine, four_in_line.
  change (seqZ 0 4) with [0; 1; 2; 3].
  apply forallb_ext_In. intros i Hi.
  assert (0 <= i <= 3) as Hi'.
  { simpl in Hi. lia. }
  cbn [fst snd].
  assert (int_mul i dr = i * dr) as ->.
  { unfold int_mul. apply int_wrap_small. nia. }
  assert (int_mul i dc = i * dc) as ->.
  { unfold int_mul. apply int_wrap_small. nia. }
  rewrite !int_add_small by nia.
  unfold in_bounds.
  destruct (row + i * dr <? 0) eqn:E1, (row + i * dr >=? 6) eqn:E2,
           (col + i * dc <? 0) eqn:E3, (col + i * dc >=? 7) eqn:E4;
    cbn [orb negb];
    try (replace (0 <=? row + i * dr) with false by lia; reflexivity);
    try (replace (row + i * dr <? 6) with false by lia;
         rewrite ?andb_false_r; reflexivity);
    try (replace (0 <=? col + i * dc) with false by lia;
         rewrite ?andb_false_r; reflexivity);
    try (replace (col + i * dc <? 7) with false by lia;
         rewrite ?andb_false_r; reflexivity).
  replace (0 <=? row + i * dr) with true by lia.
  replace (row + i * dr <? 6) with true by lia.
  replace (0 <=? col + i * dc) with true by lia.
  replace (col + i * dc <? 7) with true by lia.
  by rewrite negb_involutive.
Qed.

(** A line that starts too close to an edge leaves the board at its fourth
    cell, so the range tests in front of the four [checkLine] calls change
    nothing. *)
Lemma four_in_line_needs_room (b : Board) (row col : Z) (d : Z * Z) :
  four_in_line b row col d = true ->
  in_bounds (row + 3 * fst d) (col + 3 * snd d) = true.
Proof.
  unfold four_in_line. rewrite forallb_forall. intros H.
  specialize (H 3). apply andb_prop in H; [tauto |].
  simpl. tauto.
Qed.

Lemma CheckWinner_cell_spec (g : Game) (row col : Z) :
  0 <= row < 6 -> 0 <= col < 7 ->
  CheckWinner_cell g row col =
  if Board_at (Game_Board g) row col =? 0 then None
  else first_some
         (fun d => if four_in_line (Game_Board g) row col d
                   then Some (int_sub (Board_at (Game_Board g) row col) 1)
                   else None)
         directions.
Proof.
  intros Hrow Hcol. unfold CheckWinner_cell.
  destruct (Board_at (Game_Board g) row col =? 0); [done |].
  rewrite !Game_checkLine_four_in_line by lia.
  unfold directions. cbn [first_some].
  pose proof (four_in_line_needs_room (Game_Board g) row col (0, 1)) as H1.
  pose proof (four_in_line_needs_room (Game_Board g) row col (1, 0)) as H2.
  pose proof (four_in_line_needs_room (Game_Board g) row col (1, 1)) as H3.
  pose proof (four_in_line_needs_room (Game_Board g) row col (1, -1)) as H4.
  unfold in_bounds in *. cbn [fst snd] in *.
  destruct (four_in_line (Game_Board g) row col (0, 1)).
  { replace (col <=? 3) with true by (specialize (H1 eq_refl); lia). done. }
  rewrite andb_false_r.
  destruct (four_in_line (Game_Board g) row col (1, 0)).
  { replace (row <=? 2) with true by (specialize (H2 eq_refl); lia). done. }
  rewrite andb_false_r.
  destruct (four_in_line (Game_Board g) row col (1, 1)).
  { replace (row <=? 2) with true by (specialize (H3 eq_refl); lia).
    replace (col <=? 3) with true by (specialize (H3 eq_refl); lia). done. }
  rewrite andb_false_r.
  destruct (four_in_line (Game_Board g) row col (1, -1)).
  { replace (row <=? 2) with true by (specialize (H4 eq_refl); lia).
    replace (col >=? 3) with true by (specialize (H4 eq_refl); lia). done. }
  by rewrite andb_false_r.
Qed.

Lemma Game_CheckWinner_winner_scan (g : Game) :
  Game_CheckWinner g = winner_scan (Game_Board g).
Proof.
  unfold Game_CheckWinner, winner_scan, scan_order.
  rewrite first_some_bind.
  apply first_some_ext_in. intros row Hrow.
  rewrite first_some_bind.
  apply first_some_ext_in. intros col Hcol.
  rewrite first_some_singleton.
  apply elem_of_seqZ in Hrow. apply elem_of_seqZ in Hcol.
  apply CheckWinner_cell_spec; lia.
Qed.

Lemma first_some_None {A B : Type} (f : A -> option B) (l : list A) :
  first_some f l = None <-> forall x, x ∈ l -> f x = None.
Proof.
  induction l as [| x l IH]; simpl.
  - split; [intros _ y Hy; by apply elem_of_nil in Hy | done].
  - destruct (f x) eqn:Hfx.
    + split; [done |]. intros H. rewrite <- Hfx. apply H. by left.
    + rewrite IH. split.
      * intros H y Hy. apply elem_of_cons in Hy as [-> | Hy]; auto.
      * intros H y Hy. apply H. by right.
Qed.

(** C5. [CheckWinner] is the scan of the specification: the cells are
    visited by ascending row and, inside a row, by ascending column; at each
    occupied cell the directions right, down, down-right and down-left are
    tried in this order, each asking for four consecutive cells inside the
    board of the colour of the cell; the colour of the first hit is
    returned. The result is [nil] exactly when no occupied cell starts a
    line of four in any of the four directions. *)
Theorem C5_CheckWinner_scan (g : Game) :
  Game_CheckWinner g = winner_scan (Game_Board g)
  /\ (Game_CheckWinner g = None <->
      forall row col d, (row, col) ∈ scan_order -> d ∈ directions ->
        Board_at (Game_Board g) row col <> 0 ->
        four_in_line (Game_Board g) row col d = false).
Proof.
  split; [apply Game_CheckWinner_winner_scan |].
  rewrite Game_CheckWinner_winner_scan. unfold winner_scan.
  rewrite first_some_None. split.
  - intros H row col d Hcell Hd Hocc. specialize (H (row, col) Hcell).
    cbn beta iota in H.
    destruct (Z.eqb_spec (Board_at (Game_Board g) row col) 0); [done |].
    rewrite first_some_None in H. specialize (H d Hd). cbn beta in H.
    by destruct (four_in_line (Game_Board g) row col d).
  - intros H [row col] Hcell.
    destruct (Z.eqb_spec (Board_at (Game_Board g) row col) 0); [done |].
    apply first_some_None. intros d Hd. by rewrite (H row col d).
Qed.

(** ** Moves through the manager *)

Lemma Game_MakeMove_None (now : Time) (column : Z) (color : PlayerColor) (g : Game) :
  fst (Game_MakeMove now column color g) = None ->
  Game_IsValidMove g column = false /\ snd (Game_MakeMove now column color g) = g.
Proof.
  destruct (Game_IsValidMove g column) eqn:Hvalid.
  - rewrite Game_MakeMove_valid by done. discriminate.
  - rewrite Game_MakeMove_invalid by done. done.
Qed.

Lemma put_game_same (gameID : UUID) (game : Game) (m : Manager) :
  Manager_games m !! gameID = Some game -> put_game gameID game m = m.
Proof.
  intros H. destruct m as [games players]. unfold put_game. simpl in *.
  by rewrite insert_id.
Qed.

Lemma find_player_None (game : Game) (playerID : UUID) :
  find_player game playerID = None
  <-> Player_ID (fst (Game_Players game)) <> playerID
      /\ Player_ID (snd (Game_Players game)) <> playerID.
Proof.
  unfold find_player, players_of. simpl.
  destruct (N.eqb_spec (Player_ID (fst (Game_Players game))) playerID);
    [split; [done | tauto] |].
  destruct (N.eqb_spec (Player_ID (snd (Game_Players game))) playerID);
    [split; [done | tauto] |].
  done.
Qed.

Lemma find_player_Some (game : Game) (playerID : UUID) (player : Player) :
  find_player game playerID = Some player ->
  Player_ID player = playerID /\ player ∈ players_of game.
Proof.
  unfold find_player, players_of. simpl.
  destruct (N.eqb_spec (Player_ID (fst (Game_Players game))) playerID);
    [intros [= <-]; split; [done | set_solver] |].
  destruct (N.eqb_spec (Player_ID (snd (Game_Players game))) playerID);
    [intros [= <-]; split; [done | set_solver] | done].
Qed.

(** An error leaves the manager as it was. *)
Lemma MakeMove_error_unchanged (tMove tEnd : Time) (gameID playerID : UUID) (column : Z)
    (m : Manager) (e : GameError) :
  fst (Manager_MakeMove tMove tEnd gameID playerID column m) = MoveErr e ->
  snd (Manager_MakeMove tMove tEnd gameID playerID column m) = m.
Proof.
  unfold Manager_MakeMove.
  destruct (Manager_games m !! gameID) as [game |] eqn:Hgame; [| done].
  destruct (negb (bool_decide (Game_State game = GameStatePlaying))); [done |].
  destruct (find_player game playerID) as [player |]; [| done].
  destruct (negb (Player_Color player =? Game_CurrentTurn game)); [done |].
  destruct (Game_MakeMove tMove column (Player_Color player) game)
    as [[move |] game1] eqn:Hmove; [done |].
  intros _. cbn [snd].
  pose proof (Game_MakeMove_None tMove column (Player_Color player) game) as H.
  rewrite Hmove in H. destruct (H eq_refl) as [_ Heq]. cbn [snd] in Heq.
  subst game1. by apply put_game_same.
Qed.

(** Closes a branch whose premise names a test other than the one that
    failed. *)
Ltac refute_case :=
  let H := fresh "Hcase" in
  intros H;
  repeat match goal with
         | H' : ex _ |- _ => destruct H'
         | H' : _ /\ _ |- _ => destruct H'
         end;
  simplify_eq; (tauto || congruence).

(** C2. [Manager.MakeMove] runs its tests in the order of the
    specification, and each error is the answer exactly when its test is
    the first to fail: [ErrGameNotFound] when the id is not in the map;
    [ErrGameNotActive] when the session exists and is not [Playing];
    [ErrPlayerNotInGame] when (the session being played) the id is the id of
    neither player; [ErrNotPlayerTurn] when (the player being found) the
    colour of the player is not the turn colour; [ErrInvalidMove] when (it
    being the player's turn) [Game.MakeMove] refuses the placement. On every
    error the manager, and with it board, turn, state and winner of the
    session, is what it was. *)
Theorem C2_MakeMove_errors (tMove tEnd : Time) (gameID playerID : UUID)
    (column : Z) (m : Manager) :
  let res := fst (Manager_MakeMove tMove tEnd gameID playerID column m) in
  let m' := snd (Manager_MakeMove tMove tEnd gameID playerID column m) in
  (res = MoveErr ErrGameNotFound <-> Manager_games m !! gameID = None)
  /\ (res = MoveErr ErrGameNotActive <->
      exists game, Manager_games m !! gameID = Some game
        /\ Game_State game <> GameStatePlaying)
  /\ (res = MoveErr ErrPlayerNotInGame <->
      exists game, Manager_games m !! gameID = Some game
        /\ Game_State game = GameStatePlaying
        /\ Player_ID (fst (Game_Players game)) <> playerID
        /\ Player_ID (snd (Game_Players game)) <> playerID)
  /\ (res = MoveErr ErrNotPlayerTurn <->
      exists game player, Manager_games m !! gameID = Some game
        /\ Game_State game = GameStatePlaying
        /\ find_player game playerID = Some player
        /\ Player_Color player <> Game_CurrentTurn game)
  /\ (res = MoveErr ErrInvalidMove <->
      exists game player, Manager_games m !! gameID = Some game
        /\ Game_State game = GameStatePlaying
        /\ find_player game playerID = Some player
        /\ Player_Color player = Game_CurrentTurn game
        /\ fst (Game_MakeMove tMove column (Player_Color player) game) = None)
  /\ (forall e, res = MoveErr e -> m' = m).
Proof.
  intros res m'. subst res m'. unfold Manager_MakeMove.
  destruct (Manager_games m !! gameID) as [game |] eqn:Hgame; cbn [fst snd].
  2: { repeat split; try done; try refute_case. }
  destruct (bool_decide_reflect (Game_State game = GameStatePlaying))
    as [Hplay | Hplay]; cbn [negb fst snd].
  2: { repeat split; try done; try refute_case.
       intros _. by exists game. }
  destruct (find_player game playerID) as [player |] eqn:Hfind; cbn [fst snd].
  2: { pose proof (proj1 (find_player_None game playerID) Hfind) as [H0 H1].
       repeat split; try done; try refute_case.
       intros _. by exists game. }
  assert (Hin : ~ (Player_ID (fst (Game_Players game)) <> playerID
                   /\ Player_ID (snd (Game_Players game)) <> playerID)).
  { intros H. apply find_player_None in H. congruence. }
  destruct (Z.eqb_spec (Player_Color player) (Game_CurrentTurn game))
    as [Hturn | Hturn]; cbn [negb fst snd].
  2: { repeat split; try done; try refute_case.
       intros _. by exists game, player. }
  destruct (Game_MakeMove tMove column (Player_Color player) game)
    as [[move |] game1] eqn:Hmove; cbn [fst snd].
  - repeat split; try done; try refute_case.
    intros (game' & player' & Hg' & _ & Hf' & _ & Hnone).
    assert (game' = game) as -> by congruence.
    assert (player' = player) as -> by congruence.
    rewrite Hmove in Hnone. discriminate.
  - assert (game1 = game) as ->.
    { pose proof (Game_MakeMove_None tMove column (Player_Color player) game) as H.
      rewrite Hmove in H. by apply H. }
    repeat split; try done; try refute_case.
    + intros _. exists game, player. by rewrite Hmove.
    + intros e _. by apply put_game_same.
Qed.

Lemma Game_CheckWinner_board (g1 g2 : Game) :
  Game_Board g1 = Game_Board g2 -> Game_CheckWinner g1 = Game_CheckWinner g2.
Proof. intros H. by rewrite !Game_CheckWinner_winner_scan, H. Qed.

Lemma Game_IsBoardFull_board (g1 g2 : Game) :
  Game_Board g1 = Game_Board g2 -> Game_IsBoardFull g1 = Game_IsBoardFull g2.
Proof. intros H. unfold Game_IsBoardFull. by rewrite H. Qed.

Lemma after_move_board (tEnd : Time) (game2 : Game) :
  Game_Board (after_move tEnd game2) = Game_Board game2
  /\ Game_Players (after_move tEnd game2) = Game_Players game2.
Proof.
  unfold after_move.
  destruct (Game_CheckWinner game2); [done |].
  destruct (Game_IsBoardFull game2); [done |].
  by destruct (Game_CurrentTurn game2 =? PlayerRed).
Qed.

(** A successful [Manager.MakeMove], step by step. *)
Lemma Manager_MakeMove_ok (tMove tEnd : Time) (gameID playerID : UUID)
    (column : Z) (m : Manager) (mv : Move) :
  fst (Manager_MakeMove tMove tEnd gameID playerID column m) = MoveOk mv ->
  exists game player,
    Manager_games m !! gameID = Some game
    /\ Game_State game = GameStatePlaying
    /\ find_player game playerID = Some player
    /\ Player_Color player = Game_CurrentTurn game
    /\ Game_IsValidMove game column = true
    /\ let row := lowestEmptyRow (Game_Board game) column 6 in
       mv = mkMove playerID column row (Player_Color player) tMove
       /\ snd (Manager_MakeMove tMove tEnd gameID playerID column m)
          = put_game gameID
              (after_move tEnd
                 (set_LastMove (Some mv)
                    (set_Board (Board_set (Game_Board game) row column
                                  (int_add (Player_Color player) 1)) game)))
              m.
Proof.
  unfold Manager_MakeMove.
  destruct (Manager_games m !! gameID) as [game |] eqn:Hgame; [| done].
  destruct (bool_decide_reflect (Game_State game = GameStatePlaying))
    as [Hplay | Hplay]; cbn [negb]; [| done].
  destruct (find_player game playerID) as [player |] eqn:Hfind; [| done].
  destruct (Z.eqb_spec (Player_Color player) (Game_CurrentTurn game))
    as [Hturn | Hturn]; cbn [negb]; [| done].
  destruct (Game_IsValidMove game column) eqn:Hvalid.
  - rewrite Game_MakeMove_valid by done. cbn [fst snd].
    intros [= <-]. exists game, player. repeat split; done.
  - rewrite Game_MakeMove_invalid by done. done.
Qed.

(** C4. After a successful [Manager.MakeMove] (the session was [Playing] and
    the mover's colour was the turn colour): when [CheckWinner] finds a
    colour on the resulting board, the session is [Finished] with that
    winner and the finish time, and the turn colour stays; otherwise, when
    the board is full, the session is [Finished] with no winner; otherwise
    the session is still [Playing], the turn colour is the other colour,
    every later move that succeeds on this state has a colour other than the
    mover's, and the same player id is answered [ErrNotPlayerTurn]. *)
Theorem C4_MakeMove_success (tMove tEnd : Time) (gameID playerID : UUID)
    (column : Z) (m : Manager) (game : Game) (mv : Move) :
  Manager_games m !! gameID = Some game ->
  Game_inv game ->
  fst (Manager_MakeMove tMove tEnd gameID playerID column m) = MoveOk mv ->
  let m' := snd (Manager_MakeMove tMove tEnd gameID playerID column m) in
  exists game',
    Manager_games m' !! gameID = Some game'
    /\ Game_State game = GameStatePlaying
    /\ Move_Color mv = Game_CurrentTurn game
    /\ match Game_CheckWinner game' with
       | Some winner =>
           Game_State game' = GameStateFinished
           /\ Game_Winner game' = Some winner
           /\ Game_FinishedAt game' = Some tEnd
           /\ Game_CurrentTurn game' = Game_CurrentTurn game
       | None =>
           if Game_IsBoardFull game'
           then Game_State game' = GameStateFinished
                /\ Game_Winner game' = None
                /\ Game_FinishedAt game' = Some tEnd
           else Game_State game' = GameStatePlaying
                /\ valid_color (Game_CurrentTurn game')
                /\ Game_CurrentTurn game' <> Move_Color mv
                /\ (forall tMove' tEnd' playerID' column' mv',
                      fst (Manager_MakeMove tMove' tEnd' gameID playerID'
                             column' m') = MoveOk mv' ->
                      Move_Color mv' <> Move_Color mv)
                /\ (forall tMove' tEnd' column',
                      fst (Manager_MakeMove tMove' tEnd' gameID playerID
                             column' m') = MoveErr ErrNotPlayerTurn)
       end.
Proof.
  intros Hgame (Hwf & Hred & Hyellow & Hturnc & Hnowin) Hok m'. subst m'.
  apply Manager_MakeMove_ok in Hok
    as (game0 & player & Hgame0 & Hplay & Hfind & Hturn & Hvalid & Hmv & ->).
  assert (game0 = game) as -> by congruence.
  set (row := lowestEmptyRow (Game_Board game) column 6) in *.
  set (game2 := set_LastMove (Some mv)
                  (set_Board (Board_set (Game_Board game) row column
                                (int_add (Player_Color player) 1)) game)).
  exists (after_move tEnd game2).
  split; [unfold put_game; cbn [Manager_games]; by rewrite lookup_insert_eq |].
  split; [done |].
  split; [by rewrite Hmv |].
  destruct (Hnowin Hplay) as [Hw Hf].
  destruct (after_move_board tEnd game2) as [Hboard Hplayers].
  rewrite (Game_CheckWinner_board _ _ Hboard),
          (Game_IsBoardFull_board _ _ Hboard).
  unfold after_move.
  destruct (Game_CheckWinner game2) as [winner |] eqn:Hcheck; [done |].
  destruct (Game_IsBoardFull game2) eqn:Hfull; [done |].
  assert (Hcolor : Move_Color mv = Game_CurrentTurn game) by (by rewrite Hmv).
  change (Game_CurrentTurn game2) with (Game_CurrentTurn game).
  assert (Hnext :
    let g3 := if Game_CurrentTurn game =? PlayerRed
              then set_CurrentTurn PlayerYellow 2 game2
              else set_CurrentTurn PlayerRed 1 game2 in
    Game_State g3 = GameStatePlaying /\ valid_color (Game_CurrentTurn g3)
    /\ Game_CurrentTurn g3 <> Game_CurrentTurn game
    /\ Game_Players g3 = Game_Players game).
  { destruct Hturnc as [-> | ->]; cbn; unfold valid_color; repeat split;
      try done; auto. }
  cbv zeta in Hnext.
  set (g3 := if Game_CurrentTurn game =? PlayerRed
             then set_CurrentTurn PlayerYellow 2 game2
             else set_CurrentTurn PlayerRed 1 game2) in *.
  destruct Hnext as (Hs3 & Hv3 & Hne3 & Hp3).
  split; [done |]. split; [done |]. split; [congruence |].
  split.
  - intros tMove' tEnd' playerID' column' mv' Hok'.
    apply Manager_MakeMove_ok in Hok'
      as (game' & player' & Hgame' & _ & _ & Hturn' & _ & Hmv' & _).
    unfold put_game in Hgame'. cbn [Manager_games] in Hgame'.
    rewrite lookup_insert_eq in Hgame'. injection Hgame' as <-.
    rewrite Hmv'. cbn [Move_Color]. congruence.
  - intros tMove' tEnd' column'. unfold Manager_MakeMove, put_game.
    cbn [Manager_games]. rewrite lookup_insert_eq.
    rewrite Hs3. cbn [bool_decide negb].
    rewrite bool_decide_eq_true_2 by done. cbn [negb].
    assert (find_player g3 playerID = Some player) as ->.
    { unfold find_player, players_of in *. by rewrite Hp3. }
    destruct (Z.eqb_spec (Player_Color player) (Game_CurrentTurn g3)); [| done].
    congruence.
Qed.

(** ** The session invariant *)

Lemma example_game_inv : Game_inv example_game.
Proof.
  split; [exact emptyBoard_wf |].
  split; [reflexivity |]. split; [reflexivity |].
  split; [by left |]. done.
Qed.

Lemma CreateGame_inv (now : Time) (gameID : UUID) (player1 player2 : Player)
    (m : Manager) :
  Manager_inv m -> Manager_inv (snd (Manager_CreateGame now gameID player1 player2 m)).
Proof.
  intros Hinv gid g. unfold Manager_CreateGame, put_game. cbn [snd Manager_games].
  destruct (decide (gameID = gid)) as [-> | Hne].
  - rewrite lookup_insert_eq. intros [= <-].
    split; [exact emptyBoard_wf |].
    split; [reflexivity |]. split; [reflexivity |].
    split; [by left |]. done.
  - rewrite lookup_insert_ne by done. apply Hinv.
Qed.

Lemma after_move_inv (tEnd : Time) (game2 : Game) :
  wf_board (Game_Board game2) ->
  Player_Color (fst (Game_Players game2)) = PlayerRed ->
  Player_Color (snd (Game_Players game2)) = PlayerYellow ->
  valid_color (Game_CurrentTurn game2) ->
  Game_Winner game2 = None -> Game_FinishedAt game2 = None ->
  Game_inv (after_move tEnd game2).
Proof.
  intros Hwf Hred Hyellow Hturn Hw Hf. unfold after_move, Game_inv.
  destruct (Game_CheckWinner game2); [cbn; split_and!; done |].
  destruct (Game_IsBoardFull game2); [cbn; split_and!; done |].
  destruct (Game_CurrentTurn game2 =? PlayerRed); cbn; split_and!;
    try done; by (left + right).
Qed.

Lemma MakeMove_inv (tMove tEnd : Time) (gameID playerID : UUID) (column : Z)
    (m : Manager) :
  Manager_inv m ->
  Manager_inv (snd (Manager_MakeMove tMove tEnd gameID playerID column m)).
Proof.
  intros Hinv.
  destruct (fst (Manager_MakeMove tMove tEnd gameID playerID column m))
    as [mv | e] eqn:Hres.
  - apply Manager_MakeMove_ok in Hres
      as (game & player & Hgame & Hplay & _ & _ & _ & _ & ->).
    destruct (Hinv _ _ Hgame) as (Hwf & Hred & Hyellow & Hturn & Hnowin).
    destruct (Hnowin Hplay) as [Hw Hf].
    intros gid g. unfold put_game. cbn [Manager_games].
    destruct (decide (gameID = gid)) as [-> | Hne].
    + rewrite lookup_insert_eq. intros [= <-].
      apply after_move_inv; try done. by apply Board_set_wf.
    + rewrite lookup_insert_ne by done. apply Hinv.
  - pose proof (MakeMove_error_unchanged tMove tEnd gameID playerID column m) as H.
    by rewrite (H e Hres).
Qed.

(** ** The disconnect sweep *)

Lemma forfeit_Some (now tEnd : Time) (game game' : Game) :
  forfeit now tEnd game = Some game' ->
  Game_State game = GameStatePlaying
  /\ (exists p, p ∈ players_of game /\ disconnectedTooLong now p = true)
  /\ Game_State game' = GameStateFinished
  /\ Game_FinishedAt game' = Some tEnd
  /\ Game_Board game' = Game_Board game
  /\ Game_Players game' = Game_Players game
  /\ Game_CurrentTurn game' = Game_CurrentTurn game
  /\ Game_Winner game' =
       match find Player_Connected (players_of game) with
       | Some p => Some (Player_Color p)
       | None => Game_Winner game
       end.
Proof.
  unfold forfeit.
  destruct (bool_decide_reflect (Game_State game = GameStatePlaying))
    as [Hplay | Hplay]; cbn [negb]; [| done].
  destruct (find (disconnectedTooLong now) (players_of game)) as [p |] eqn:Hfind;
    [| done].
  apply find_some in Hfind as [Hin Hlong].
  change (players_of (set_FinishedAt (Some tEnd)
                        (set_State GameStateFinished game)))
    with (players_of game).
  assert (exists p, p ∈ players_of game /\ disconnectedTooLong now p = true)
    by (exists p; split; [by apply list_elem_of_In | done]).
  destruct (find Player_Connected (players_of game)); by intros [= <-].
Qed.

Lemma forfeit_None (now tEnd : Time) (game : Game) :
  forfeit now tEnd game = None <->
  Game_State game <> GameStatePlaying
  \/ forall p, p ∈ players_of game -> disconnectedTooLong now p = false.
Proof.
  unfold forfeit.
  destruct (bool_decide_reflect (Game_State game = GameStatePlaying))
    as [Hplay | Hplay]; cbn [negb]; [| by split; [left |]].
  destruct (find (disconnectedTooLong now) (players_of game)) as [p |] eqn:Hfind.
  - apply find_some in Hfind as [Hin Hlong]. split; [done |].
    intros [? | Hall]; [done |].
    rewrite Hall in Hlong; [done | by apply list_elem_of_In].
  - split; [| done]. intros _. right. intros p Hp.
    eapply find_none in Hfind; [done | by apply list_elem_of_In].
Qed.

(** The sweep passes over a game twice as it passes over it once. *)
Lemma forfeit_idem (now tEnd tEnd' : Time) (game : Game) :
  let game' := default game (forfeit now tEnd game) in
  default game' (forfeit now tEnd' game') = game'.
Proof.
  cbv zeta. destruct (forfeit now tEnd game) as [game' |] eqn:Hf; simpl.
  - apply forfeit_Some in Hf as (_ & _ & Hfin & _).
    assert (forfeit now tEnd' game' = None) as ->; [| done].
    apply forfeit_None. left. by rewrite Hfin.
  - assert (forfeit now tEnd' game = None) as ->; [| done].
    apply forfeit_None. by apply forfeit_None in Hf.
Qed.

Lemma cleanup_game_state (now tEnd : Time) (gameID : UUID) (m : Manager)
    (game : Game) :
  Manager_games m !! gameID = Some game ->
  Manager_games (fst (cleanup_game now tEnd gameID m game))
    = <[gameID := default game (forfeit now tEnd game)]> (Manager_games m)
  /\ Manager_players (fst (cleanup_game now tEnd gameID m game))
     = Manager_players m.
Proof.
  intros Hgame. unfold cleanup_game.
  destruct (forfeit now tEnd game) as [game' |]; simpl; [done |].
  by rewrite insert_id.
Qed.

Local Abbreviation sweep_body now clock :=
  (fun '(m, out) gameID =>
     match Manager_games m !! gameID with
     | None => (m, out)
     | Some game =>
         let '(m', sent) := cleanup_game now (clock gameID) gameID m game in
         (m', out ++ sent)
     end).

Lemma sweep_fold_lookup (now : Time) (clock : UUID -> Time) (order : list UUID)
    (m : Manager) (out : list (UUID * WSMessage)) (gameID : UUID) :
  Manager_games (fst (foldl (sweep_body now clock) (m, out) order)) !! gameID
  = (fun g => if bool_decide (gameID ∈ order)
              then default g (forfeit now (clock gameID) g) else g)
      <$> Manager_games m !! gameID.
Proof.
  revert m out. induction order as [| gid order IH]; intros m out.
  - simpl. by destruct (Manager_games m !! gameID).
  - cbn [foldl].
    destruct (Manager_games m !! gid) as [game |] eqn:Hgame.
    + pose proof (cleanup_game_state now (clock gid) gid m game Hgame)
        as [Hgames _].
      destruct (cleanup_game now (clock gid) gid m game) as [m' sent].
      cbn [fst] in Hgames. rewrite IH, Hgames.
      destruct (decide (gid = gameID)) as [-> | Hne].
      * rewrite lookup_insert_eq, Hgame. cbn [fmap option_fmap option_map].
        rewrite (bool_decide_eq_true_2 (gameID ∈ gameID :: order))
          by set_solver.
        f_equal. case_bool_decide; [| done].
        apply (forfeit_idem now (clock gameID) (clock gameID) game).
      * rewrite lookup_insert_ne by done.
        destruct (Manager_games m !! gameID); [| done]. simpl.
        by rewrite (bool_decide_ext (gameID ∈ gid :: order) (gameID ∈ order))
          by (rewrite elem_of_cons; intuition congruence).
    + rewrite IH.
      destruct (Manager_games m !! gameID) eqn:Hg; [| done]. simpl.
      assert (gameID <> gid) by congruence.
      by rewrite (bool_decide_ext (gameID ∈ gid :: order) (gameID ∈ order))
        by (rewrite elem_of_cons; intuition congruence).
Qed.

Lemma sweep_lookup (now : Time) (clock : UUID -> Time) (order : list UUID)
    (m : Manager) (gameID : UUID) :
  Manager_games (fst (Manager_cleanupDisconnectedPlayers now clock order m))
    !! gameID
  = (fun g => if bool_decide (gameID ∈ order)
              then default g (forfeit now (clock gameID) g) else g)
      <$> Manager_games m !! gameID.
Proof. apply sweep_fold_lookup. Qed.

(** No message of the sweep names a winner. *)
Lemma broadcast_payload (m : Manager) (gameID : UUID) (message : WSMessage)
    (d : UUID * WSMessage) :
  d ∈ Manager_BroadcastToGame m gameID message -> snd d = message.
Proof.
  unfold Manager_BroadcastToGame.
  destruct (Manager_games m !! gameID) as [game |];
    [| by intros ?%elem_of_nil].
  intros Hd. apply list_elem_of_omap in Hd as (p & _ & Hp).
  destruct (Manager_players m !! Player_ID p); [| done].
  by injection Hp as <-.
Qed.

Lemma sweep_fold_messages (now : Time) (clock : UUID -> Time)
    (order : list UUID) (m : Manager) (out : list (UUID * WSMessage)) :
  Forall (fun d => GameEnd_Winner (WS_Payload (snd d)) = None) out ->
  Forall (fun d => GameEnd_Winner (WS_Payload (snd d)) = None)
         (snd (foldl (sweep_body now clock) (m, out) order)).
Proof.
  revert m out. induction order as [| gid order IH]; intros m out Hout;
    [done |].
  cbn [foldl]. destruct (Manager_games m !! gid) as [game |]; [| by apply IH].
  destruct (cleanup_game now (clock gid) gid m game) as [m' sent] eqn:Hc.
  apply IH. apply Forall_app. split; [done |].
  unfold cleanup_game in Hc.
  destruct (forfeit now (clock gid) game) as [game' |];
    injection Hc as <- <-; [| constructor].
  apply Forall_forall. intros d Hd.
  by rewrite (broadcast_payload _ _ _ _ Hd).
Qed.

Lemma sweep_messages_name_no_winner (now : Time) (clock : UUID -> Time)
    (order : list UUID) (m : Manager) :
  Forall (fun d => GameEnd_Winner (WS_Payload (snd d)) = None)
         (snd (Manager_cleanupDisconnectedPlayers now clock order m)).
Proof. apply sweep_fold_messages. constructor. Qed.

(** The forfeit itself: a session that is played, is visited by the sweep
    and has a player away for longer than the grace period is finished at
    the time read, and the first connected player, if any, wins. *)
Lemma sweep_forfeit (now : Time) (clock : UUID -> Time) (order : list UUID)
    (m : Manager) (gameID : UUID) (game : Game) (p : Player) :
  Manager_games m !! gameID = Some game ->
  gameID ∈ order ->
  Game_State game = GameStatePlaying ->
  p ∈ players_of game -> disconnectedTooLong now p = true ->
  exists game',
    Manager_games (fst (Manager_cleanupDisconnectedPlayers now clock order m))
      !! gameID = Some game'
    /\ Game_State game' = GameStateFinished
    /\ Game_FinishedAt game' = Some (clock gameID)
    /\ Game_Board game' = Game_Board game
    /\ Game_Winner game' =
         match find Player_Connected (players_of game) with
         | Some q => Some (Player_Color q)
         | None => Game_Winner game
         end.
Proof.
  intros Hgame Hin Hplay Hp Hlong.
  destruct (forfeit now (clock gameID) game) as [game' |] eqn:Hf.
  - exists game'. rewrite sweep_lookup, Hgame. simpl.
    rewrite bool_decide_eq_true_2 by done. rewrite Hf. simpl.
    apply forfeit_Some in Hf as (_ & _ & ? & ? & ? & _ & _ & ?). done.
  - apply forfeit_None in Hf as [? | Hall]; [done |].
    rewrite Hall in Hlong; done.
Qed.

(** C9. A session that is played when the sweep visits it, has a player
    away for longer than the grace period, and whose players are both not
    connected: the sweep marks it [Finished] with the finish time and writes
    no winner; the winner field is what it was, which for a played session
    is [nil]. *)
Theorem C9_double_disconnect (now : Time) (clock : UUID -> Time)
    (order : list UUID) (m : Manager) (gameID : UUID) (game : Game)
    (p : Player) :
  Manager_games m !! gameID = Some game ->
  gameID ∈ order ->
  Game_State game = GameStatePlaying ->
  p ∈ players_of game -> disconnectedTooLong now p = true ->
  (forall q, q ∈ players_of game -> Player_Connected q = false) ->
  exists game',
    Manager_games (fst (Manager_cleanupDisconnectedPlayers now clock order m))
      !! gameID = Some game'
    /\ Game_State game' = GameStateFinished
    /\ Game_FinishedAt game' = Some (clock gameID)
    /\ Game_Winner game' = Game_Winner game
    /\ (Game_inv game -> Game_Winner game' = None).
Proof.
  intros Hgame Hin Hplay Hp Hlong Hnone.
  destruct (sweep_forfeit now clock order m gameID game p)
    as (game' & Hgame' & Hfin & Htime & _ & Hwin); try done.
  exists game'. split; [done |]. split; [done |]. split; [done |].
  assert (find Player_Connected (players_of game) = None) as Hfind.
  { destruct (find Player_Connected (players_of game)) as [q |] eqn:Hq;
      [| done].
    apply find_some in Hq as [Hq Hc]. apply list_elem_of_In in Hq.
    rewrite (Hnone q Hq) in Hc. done. }
  rewrite Hfind in Hwin. split; [done |].
  intros (_ & _ & _ & _ & Hnowin). rewrite Hwin. by apply Hnowin.
Qed.

(** C1 (where the code departs from the claim). Alice has been away for one
    second longer than the grace period and bob is connected. The sweep
    finishes the session, records bob's colour as the winner and sets the
    finish time, as the claim says; the one [game_end] message it writes,
    to bob, has an empty [Winner] field. *)
Theorem C1_forfeit_message_winner_empty :
  let r := Manager_cleanupDisconnectedPlayers sweep_time (fun _ => sweep_time)
             [7%N] forfeit_manager in
  (exists game game',
      Manager_games forfeit_manager !! 7%N = Some game
      /\ Game_State game = GameStatePlaying
      /\ map Player_Connected (players_of game) = [false; true]
      /\ map (disconnectedTooLong sweep_time) (players_of game) = [true; false]
      /\ Manager_games (fst r) !! 7%N = Some game'
      /\ Game_State game' = GameStateFinished
      /\ Game_Winner game' = Some PlayerYellow
      /\ Game_FinishedAt game' = Some sweep_time)
  /\ map (fun d => (fst d, WS_Type (snd d), GameEnd_Winner (WS_Payload (snd d))))
         (snd r)
     = [(2%N, MsgGameEnd, None)].
Proof.
  cbv zeta. split.
  - eexists _, _. split; [vm_compute; reflexivity |].
    split; [reflexivity |]. split; [reflexivity |]. split; [reflexivity |].
    split; [vm_compute; reflexivity |].
    split; [reflexivity |]. split; reflexivity.
  - vm_compute. reflexivity.
Qed.

(** ** What no operation undoes *)

Lemma keeps_refl (g : Game) : keeps g g.
Proof. by split. Qed.

Lemma keeps_trans (g1 g2 g3 : Game) : keeps g1 g2 -> keeps g2 g3 -> keeps g1 g3.
Proof.
  intros [Hc12 Hf12] [Hc23 Hf23]. split.
  - intros r c Hocc. rewrite <- (Hc12 r c Hocc). apply Hc23.
    by rewrite (Hc12 r c Hocc).
  - intros Hfin. destruct (Hf12 Hfin) as (Hs & Hb & Hw & Ht).
    destruct (Hf23 Hs) as (Hs' & Hb' & Hw' & Ht'). split; [done |].
    split; [congruence |]. split; congruence.
Qed.

Lemma keeps_players (g : Game) (ps : Player * Player) :
  keeps g (set_Players ps g).
Proof. by split. Qed.

Lemma update_player_keeps (playerID : UUID) (f : Player -> Player) (g : Game) :
  keeps g (update_player playerID f g).
Proof.
  unfold update_player. destruct (Game_Players g) as [p0 p1].
  destruct (Player_ID p0 =? playerID)%N; [apply keeps_players |].
  destruct (Player_ID p1 =? playerID)%N; [apply keeps_players |].
  apply keeps_refl.
Qed.

Lemma forfeit_keeps (now tEnd : Time) (g : Game) :
  keeps g (default g (forfeit now tEnd g)).
Proof.
  destruct (forfeit now tEnd g) as [g' |] eqn:Hf; [| apply keeps_refl].
  apply forfeit_Some in Hf as (Hplay & _ & _ & _ & Hboard & _). simpl.
  split; [by rewrite Hboard | congruence].
Qed.

Lemma move_keeps (tEnd : Time) (g : Game) (column : Z) (v : Z) (mv : Move) :
  Game_State g = GameStatePlaying ->
  Game_IsValidMove g column = true ->
  keeps g (after_move tEnd
             (set_LastMove (Some mv)
                (set_Board (Board_set (Game_Board g)
                              (lowestEmptyRow (Game_Board g) column 6)
                              column v) g))).
Proof.
  intros Hplay Hvalid. split; [| congruence].
  intros r c Hocc.
  destruct (after_move_board tEnd
              (set_LastMove (Some mv)
                 (set_Board (Board_set (Game_Board g)
                               (lowestEmptyRow (Game_Board g) column 6)
                               column v) g))) as [-> _].
  cbn [Game_Board set_LastMove set_Board].
  destruct (lowestEmptyRow_valid g column Hvalid) as (_ & Hzero & _).
  apply Board_at_set_other.
  destruct (decide (r = lowestEmptyRow (Game_Board g) column 6)) as [-> | ?];
    [| by left].
  destruct (decide (c = column)) as [-> | ?]; [done | by right].
Qed.

(** One operation. *)
Lemma step_keeps (op : Op) (m : Manager) (gameID : UUID) (game : Game) :
  Manager_games m !! gameID = Some game ->
  exists game', Manager_games (step m op) !! gameID = Some game'
                /\ keeps game game'.
Proof.
  intros Hgame.
  destruct op as [tMove tEnd gid playerID column | now clock order
                 | now playerID gid | now playerID]; cbn [step].
  - destruct (fst (Manager_MakeMove tMove tEnd gid playerID column m))
      as [mv | e] eqn:Hres.
    + apply Manager_MakeMove_ok in Hres
        as (g & player & Hg & Hplay & _ & _ & Hvalid & _ & ->).
      unfold put_game. cbn [Manager_games].
      destruct (decide (gid = gameID)) as [-> | Hne].
      * rewrite lookup_insert_eq. eexists. split; [done |].
        assert (g = game) as -> by congruence. by apply move_keeps.
      * rewrite lookup_insert_ne by done. exists game.
        split; [done | apply keeps_refl].
    + rewrite (MakeMove_error_unchanged _ _ _ _ _ _ _ Hres).
      exists game. split; [done | apply keeps_refl].
  - rewrite sweep_lookup, Hgame. simpl. eexists. split; [done |].
    case_bool_decide; [apply forfeit_keeps | apply keeps_refl].
  - unfold Manager_AddPlayerConnection.
    destruct (Manager_games m !! gid) as [g |] eqn:Hg; cbn [Manager_games].
    + destruct (decide (gid = gameID)) as [-> | Hne].
      * rewrite lookup_insert_eq. eexists. split; [done |].
        assert (g = game) as -> by congruence. apply update_player_keeps.
      * rewrite lookup_insert_ne by done. exists game.
        split; [done | apply keeps_refl].
    + exists game. split; [done | apply keeps_refl].
  - unfold Manager_RemovePlayerConnection.
    destruct (Manager_players m !! playerID) as [conn |];
      [| exists game; split; [done | apply keeps_refl]].
    cbn [Manager_games].
    destruct (Manager_games m !! Conn_GameID conn) as [g |] eqn:Hg;
      [| exists game; split; [done | apply keeps_refl]].
    destruct (decide (Conn_GameID conn = gameID)) as [Heq | Hne].
    + rewrite Heq in *. rewrite lookup_insert_eq. eexists. split; [done |].
      assert (g = game) as -> by congruence. apply update_player_keeps.
    + rewrite lookup_insert_ne by done. exists game.
      split; [done | apply keeps_refl].
Qed.

Lemma run_keeps (ops : list Op) (m : Manager) (gameID : UUID) (game : Game) :
  Manager_games m !! gameID = Some game ->
  exists game', Manager_games (run ops m) !! gameID = Some game'
                /\ keeps game game'.
Proof.
  revert m game. induction ops as [| op ops IH]; intros m game Hgame.
  - exists game. split; [done | apply keeps_refl].
  - destruct (step_keeps op m gameID game Hgame) as (g1 & Hg1 & Hk1).
    destruct (IH (step m op) g1 Hg1) as (g2 & Hg2 & Hk2).
    exists g2. split; [exact Hg2 | by eapply keeps_trans].
Qed.

(** C6. Take any session of any manager state and run any sequence of
    [MakeMove] calls (on any session, by any player), sweeps, and connection
    changes. The session is still there; every cell that was occupied holds
    what it held; and if the session was [Finished] it is [Finished], with
    the board, winner and finish time it had. *)
Theorem C6_nothing_undone (ops : list Op) (m : Manager) (gameID : UUID)
    (game : Game) :
  Manager_games m !! gameID = Some game ->
  exists game',
    Manager_games (run ops m) !! gameID = Some game'
    /\ (forall r c, Board_at (Game_Board game) r c <> 0 ->
          Board_at (Game_Board game') r c = Board_at (Game_Board game) r c)
    /\ (Game_State game = GameStateFinished ->
        Game_State game' = GameStateFinished
        /\ Game_Board game' = Game_Board game
        /\ Game_Winner game' = Game_Winner game
        /\ Game_FinishedAt game' = Game_FinishedAt game).
Proof.
  intros Hgame.
  destruct (run_keeps ops m gameID game Hgame) as (game' & Hgame' & Hc & Hf).
  exists game'. done.
Qed.

(** ** Every reachable session satisfies the invariant *)

Lemma forfeit_inv (now tEnd : Time) (g : Game) :
  Game_inv g -> Game_inv (default g (forfeit now tEnd g)).
Proof.
  intros Hinv. destruct (forfeit now tEnd g) as [g' |] eqn:Hf; [| done].
  apply forfeit_Some in Hf as (_ & _ & Hfin & _ & Hb & Hp & Ht & _).
  destruct Hinv as (Hwf & Hred & Hyellow & Hturn & _). simpl.
  unfold Game_inv. rewrite Hb, Hp, Ht, Hfin. by split_and!.
Qed.

Lemma update_player_inv (playerID : UUID) (b : bool) (t : Time) (g : Game) :
  Game_inv g -> Game_inv (update_player playerID (set_Connected b t) g).
Proof.
  intros (Hwf & Hred & Hyellow & Hturn & Hnowin). unfold update_player.
  destruct (Game_Players g) as [p0 p1] eqn:Hps. cbn [fst snd] in *.
  destruct (Player_ID p0 =? playerID)%N;
    [| destruct (Player_ID p1 =? playerID)%N];
    unfold Game_inv; cbn; rewrite ?Hps; by split_and!.
Qed.

Lemma step_inv (op : Op) (m : Manager) : Manager_inv m -> Manager_inv (step m op).
Proof.
  intros Hinv.
  destruct op as [tMove tEnd gid playerID column | now clock order
                 | now playerID gid | now playerID]; cbn [step].
  - by apply MakeMove_inv.
  - intros gameID g. rewrite sweep_lookup.
    destruct (Manager_games m !! gameID) as [g0 |] eqn:Hg0; [| done].
    simpl. intros [= <-]. specialize (Hinv _ _ Hg0).
    case_bool_decide; [by apply forfeit_inv | done].
  - intros gameID g. unfold Manager_AddPlayerConnection.
    destruct (Manager_games m !! gid) as [g0 |] eqn:Hg0; cbn [Manager_games];
      [| apply Hinv].
    destruct (decide (gid = gameID)) as [-> | Hne].
    + rewrite lookup_insert_eq. intros [= <-].
      apply update_player_inv. by eapply Hinv.
    + rewrite lookup_insert_ne by done. apply Hinv.
  - intros gameID g. unfold Manager_RemovePlayerConnection.
    destruct (Manager_players m !! playerID) as [conn |]; [| apply Hinv].
    cbn [Manager_games].
    destruct (Manager_games m !! Conn_GameID conn) as [g0 |] eqn:Hg0;
      [| apply Hinv].
    destruct (decide (Conn_GameID conn = gameID)) as [Heq | Hne].
    + rewrite Heq in *. rewrite lookup_insert_eq. intros [= <-].
      apply update_player_inv. by eapply Hinv.
    + rewrite lookup_insert_ne by done. apply Hinv.
Qed.

Lemma run_inv (ops : list Op) (m : Manager) : Manager_inv m -> Manager_inv (run ops m).
Proof.
  revert m. induction ops as [| op ops IH]; intros m Hinv; [done |].
  apply IH. by apply step_inv.
Qed.

Lemma example_manager_inv : Manager_inv example_manager.
Proof.
  apply CreateGame_inv. intros gameID game. cbn [Manager_games].
  by rewrite lookup_empty.
Qed.

(** ** The bot *)

Lemma set_Board_same (g : Game) : set_Board (Game_Board g) g = g.
Proof. by destruct g. Qed.

Section exec.
Context {A B : Type}.

Lemma Exec_bind_run (c : Exec A) (f : A -> Exec B) (σ σ1 : gmap positive Game)
    (a : A) :
  c σ = Some (a, σ1) -> (c ≫= f) σ = f a σ1.
Proof. intros H. unfold mbind, Exec_bind. by rewrite H. Qed.

Lemma call_run (p : positive) (method : Game -> A * Game)
    (σ : gmap positive Game) (g : Game) :
  σ !! p = Some g ->
  call p method σ = Some (fst (method g), <[p := snd (method g)]> σ).
Proof.
  intros H. unfold call, mbind, Exec_bind, deref, assign. rewrite H.
  destruct (method g) as [a g']. by rewrite H.
Qed.
End exec.

Lemma deref_run (p : positive) (σ : gmap positive Game) (g : Game) :
  σ !! p = Some g -> deref p σ = Some (g, σ).
Proof. intros H. unfold deref. by rewrite H. Qed.

Lemma assign_run (p : positive) (σ : gmap positive Game) (g0 g : Game) :
  σ !! p = Some g0 -> assign p g σ = Some (tt, <[p := g]> σ).
Proof. intros H. unfold assign. by rewrite H. Qed.

(** The loop of [findWinningMove] answers the first column of [cols] that
    passes [wins_at], and writes to its local copies only: the memory it
    leaves extends the memory it was given. *)
Lemma findWinningMove_loop_run (now : Time) (game : positive)
    (color : PlayerColor) (g : Game) (cols : list Z) :
  forall σ : gmap positive Game, σ !! game = Some g ->
  exists σ', findWinningMove_loop now game color cols σ
             = Some (default (-1) (find (wins_at now g color) cols), σ')
             /\ σ ⊆ σ'.
Proof.
  induction cols as [| col rest IH]; intros σ Hg.
  - exists σ. done.
  - cbn [findWinningMove_loop find].
    rewrite (Exec_bind_run _ _ σ σ g) by (by apply deref_run).
    unfold wins_at at 1.
    destruct (Game_IsValidMove g col) eqn:Hvalid; cbn [negb andb].
    2: { apply IH. done. }
    rewrite (Exec_bind_run _ _ σ σ g) by (by apply deref_run).
    set (t := fresh (dom σ)).
    assert (Ht : σ !! t = None).
    { apply not_elem_of_dom. apply is_fresh. }
    assert (Hne : t <> game) by congruence.
    rewrite (Exec_bind_run _ _ σ (<[t := g]> σ) t) by done.
    assert (H1g : <[t := g]> σ !! game = Some g)
      by (by rewrite lookup_insert_ne).
    assert (H1t : <[t := g]> σ !! t = Some g) by (by rewrite lookup_insert_eq).
    rewrite (Exec_bind_run _ _ _ _ g) by (by apply deref_run).
    rewrite (Exec_bind_run _ _ _ _ g) by (by apply deref_run).
    rewrite set_Board_same.
    erewrite Exec_bind_run by (by eapply assign_run).
    rewrite insert_insert_eq.
    erewrite Exec_bind_run by (by eapply call_run).
    rewrite insert_insert_eq.
    rewrite Game_MakeMove_valid by done. cbn [fst snd].
    erewrite Exec_bind_run by (eapply call_run; apply lookup_insert_eq).
    rewrite insert_insert_eq. cbn [fst snd].
    match goal with |- context [<[t := ?x]> σ] => set (g' := x) end.
    assert (Hsub : σ ⊆ <[t := g']> σ) by (by apply insert_subseteq).
    assert (Hg' : <[t := g']> σ !! game = Some g)
      by (by rewrite lookup_insert_ne).
    destruct (Game_CheckWinner g') as [w |].
    + destruct (w =? color).
      * eexists. split; [reflexivity | done].
      * destruct (IH _ Hg') as (σ' & -> & Hsub'). exists σ'.
        split; [done | by etrans].
    + destruct (IH _ Hg') as (σ' & -> & Hsub'). exists σ'.
      split; [done | by etrans].
Qed.

Lemma find_seqZ_Some (P : Z -> bool) (n : nat) (m c : Z) :
  find P (seqZ m (Z.of_nat n)) = Some c
  <-> m <= c < m + Z.of_nat n /\ P c = true
      /\ forall c', m <= c' < c -> P c' = false.
Proof.
  revert m. induction n as [| n IH]; intros m.
  - simpl. split; [done | lia].
  - rewrite seqZ_cons by lia.
    replace (Z.pred (Z.of_nat (S n))) with (Z.of_nat n) by lia.
    cbn [find]. destruct (P m) eqn:Hm.
    + split.
      * intros [= <-]. split; [lia |]. split; [done | lia].
      * intros (Hr & Hc & Hlow). f_equal.
        destruct (decide (m = c)) as [| Hne]; [done |].
        rewrite (Hlow m) in Hm; [done | lia].
    + rewrite IH. split.
      * intros (Hr & Hc & Hlow). split; [lia |]. split; [done |].
        intros c' Hc'. destruct (decide (c' = m)) as [-> | ?]; [done |].
        apply Hlow. lia.
      * intros (Hr & Hc & Hlow).
        assert (m <> c) by congruence.
        split; [lia |]. split; [done |]. intros c' Hc'. apply Hlow. lia.
Qed.

Lemma find_seqZ_None (P : Z -> bool) (n : nat) (m : Z) :
  find P (seqZ m (Z.of_nat n)) = None
  <-> forall c, m <= c < m + Z.of_nat n -> P c = false.
Proof.
  split.
  - intros Hnone c Hc. eapply find_none in Hnone; [done |].
    apply list_elem_of_In, elem_of_seqZ. lia.
  - intros Hall. destruct (find P (seqZ m (Z.of_nat n))) as [c |] eqn:Hf;
      [| done].
    apply find_seqZ_Some in Hf as (Hr & Hc & _).
    rewrite Hall in Hc; [done | lia].
Qed.

Lemma find_lowest_column (P : Z -> bool) (c : Z) :
  find P (seqZ 0 7) = Some c <-> lowest_column P c.
Proof. apply (find_seqZ_Some P 7 0 c). Qed.

Lemma find_no_column (P : Z -> bool) :
  find P (seqZ 0 7) = None <-> no_column P.
Proof. apply (find_seqZ_None P 7 0). Qed.

(** When no column of [centerColumns] is valid, no column is: the random
    choice at the end of [GetBestMove] has nothing to choose from. *)
Lemma center_none_valid (g : Game) :
  find (Game_IsValidMove g) centerColumns = None ->
  filter (fun col => Game_IsValidMove g col = true) (seqZ 0 7) = [].
Proof.
  intros Hnone.
  assert (forall c, In c centerColumns -> Game_IsValidMove g c = false) as Hall
    by (intros c Hc; by eapply find_none in Hnone).
  change (seqZ 0 7) with [0; 1; 2; 3; 4; 5; 6].
  unfold centerColumns in Hall.
  rewrite !filter_cons, filter_nil.
  rewrite !decide_False; [done | | | | | | |];
    (rewrite Hall; [done | simpl; tauto]).
Qed.

(** [GetBestMove] answers [best_column] of the game behind its pointer, and
    leaves a memory that extends the one it was given. *)
Lemma GetBestMove_run (now : Time) (rnd : Z -> Z) (game : positive)
    (botColor : PlayerColor) (g : Game) (σ : gmap positive Game) :
  σ !! game = Some g ->
  exists σ', GetBestMove now rnd game botColor σ
             = Some (best_column now g botColor, σ')
             /\ σ ⊆ σ'.
Proof.
  intros Hg. unfold GetBestMove, findWinningMove, best_column.
  destruct (findWinningMove_loop_run now game botColor g (seqZ 0 7) σ Hg)
    as (σ1 & Hrun1 & Hsub1).
  rewrite (Exec_bind_run _ _ _ _ _ Hrun1).
  destruct (find (wins_at now g botColor) (seqZ 0 7)) as [c |] eqn:Hf1.
  { apply find_lowest_column in Hf1 as (Hc & _). cbn [default from_option id].
    destruct (Z.eqb_spec c (-1)); [lia |]. cbn [negb].
    exists σ1. split; [reflexivity | done]. }
  cbn [default from_option]. change (-1 =? -1) with true. cbn [negb].
  assert (Hg1 : σ1 !! game = Some g) by (by eapply lookup_weaken).
  fold (opponent botColor).
  destruct (findWinningMove_loop_run now game (opponent botColor) g
              (seqZ 0 7) σ1 Hg1) as (σ2 & Hrun2 & Hsub2).
  rewrite (Exec_bind_run _ _ _ _ _ Hrun2).
  assert (Hsub : σ ⊆ σ2) by (by etrans).
  destruct (find (wins_at now g (opponent botColor)) (seqZ 0 7))
    as [c |] eqn:Hf2.
  { apply find_lowest_column in Hf2 as (Hc & _). cbn [default from_option id].
    destruct (Z.eqb_spec c (-1)); [lia |]. cbn [negb].
    exists σ2. split; [reflexivity | done]. }
  cbn [default from_option]. change (-1 =? -1) with true. cbn [negb].
  assert (Hg2 : σ2 !! game = Some g) by (by eapply lookup_weaken).
  rewrite (Exec_bind_run _ _ _ _ _ (deref_run _ _ _ Hg2)).
  destruct (find (Game_IsValidMove g) centerColumns) as [c |] eqn:Hf3.
  { exists σ2. split; [reflexivity | done]. }
  rewrite (center_none_valid g Hf3). cbn [length Z.of_nat Z.ltb Z.compare].
  exists σ2. split; [reflexivity | done].
Qed.

Lemma opponent_valid (botColor : PlayerColor) :
  valid_color botColor ->
  valid_color (opponent botColor) /\ opponent botColor <> botColor.
Proof. intros [-> | ->]; split; (by left) || (by right) || done. Qed.

(** C7, in the form that holds. For the game behind the pointer, the call
    returns: the lowest column 0..6 that is valid and whose simulated
    placement of the bot's colour makes [CheckWinner] answer the bot's
    colour; when there is none, the lowest column that does so for the
    opponent's colour; when there is none either, the first valid column of
    3, 2, 4, 1, 5, 0, 6. Hence, when the bot has no winning column and
    column 4 is the lowest column with which the opponent wins, the call
    returns 4. *)
Theorem C7_bot_priority (now : Time) (rnd : Z -> Z) (game : positive)
    (botColor : PlayerColor) (σ : gmap positive Game) (g : Game) :
  σ !! game = Some g ->
  exists col σ',
    GetBestMove now rnd game botColor σ = Some (col, σ')
    /\ (forall c, lowest_column (wins_at now g botColor) c -> col = c)
    /\ (no_column (wins_at now g botColor) ->
        forall c, lowest_column (wins_at now g (opponent botColor)) c ->
                  col = c)
    /\ (no_column (wins_at now g botColor) ->
        no_column (wins_at now g (opponent botColor)) ->
        forall c, find (Game_IsValidMove g) centerColumns = Some c -> col = c)
    /\ (no_column (wins_at now g botColor) ->
        wins_at now g (opponent botColor) 4 = true ->
        (forall c, 0 <= c < 4 -> wins_at now g (opponent botColor) c = false) ->
        col = 4).
Proof.
  intros Hg.
  destruct (GetBestMove_run now rnd game botColor g σ Hg) as (σ' & Hrun & _).
  exists (best_column now g botColor), σ'. split; [done |].
  unfold best_column.
  split; [| split; [| split]].
  - intros c Hc. apply find_lowest_column in Hc. by rewrite Hc.
  - intros Hnone c Hc. apply find_no_column in Hnone.
    apply find_lowest_column in Hc. by rewrite Hnone, Hc.
  - intros Hnone1 Hnone2 c Hc. apply find_no_column in Hnone1, Hnone2.
    by rewrite Hnone1, Hnone2, Hc.
  - intros Hnone H4 Hlow. apply find_no_column in Hnone.
    assert (lowest_column (wins_at now g (opponent botColor)) 4) as Hc
      by (split; [lia | by split]).
    apply find_lowest_column in Hc. by rewrite Hnone, Hc.
Qed.

Lemma C7_bot_priority_witness :
  exists col σ',
    GetBestMove 0 (fun _ => 0) 1%positive PlayerYellow
                {[1%positive := example_game]} = Some (col, σ')
    /\ col = 3.
Proof.
  destruct (C7_bot_priority 0 (fun _ => 0) 1%positive PlayerYellow
              {[1%positive := example_game]} example_game
              (lookup_singleton_eq 1%positive example_game))
    as (col & σ' & Hrun & _ & _ & Hcenter & _).
  exists col, σ'. split; [exact Hrun |].
  apply Hcenter.
  - intros c Hc.
    assert (c = 0 \/ c = 1 \/ c = 2 \/ c = 3 \/ c = 4 \/ c = 5 \/ c = 6)
      as Hcases by lia.
    destruct Hcases as [-> | [-> | [-> | [-> | [-> | [-> | ->]]]]]];
      vm_compute; reflexivity.
  - intros c Hc.
    assert (c = 0 \/ c = 1 \/ c = 2 \/ c = 3 \/ c = 4 \/ c = 5 \/ c = 6)
      as Hcases by lia.
    destruct Hcases as [-> | [-> | [-> | [-> | [-> | [-> | ->]]]]]];
      vm_compute; reflexivity.
  - vm_compute. reflexivity.
Defined.

(** C7 as it is worded fails: in [double_threat_game] nobody has won, the
    opponent (red) wins by playing column 4, the bot (yellow) has no winning
    column, and the call returns 0, the lower of red's two winning columns,
    not 4. *)
Lemma C7_counterexample :
  ~ (forall (now : Time) (rnd : Z -> Z) (game : positive)
            (botColor : PlayerColor) (σ : gmap positive Game) (g : Game),
       σ !! game = Some g ->
       Game_CheckWinner g = None ->
       valid_color botColor ->
       wins_at now g (opponent botColor) 4 = true ->
       no_column (wins_at now g botColor) ->
       exists σ', GetBestMove now rnd game botColor σ = Some (4, σ')).
Proof.
  intros Hclaim.
  destruct (Hclaim 0 (fun _ => 0) 1%positive PlayerYellow
              {[1%positive := double_threat_game]} double_threat_game)
    as (σ' & Hrun).
  - apply lookup_singleton_eq.
  - vm_compute. reflexivity.
  - by right.
  - vm_compute. reflexivity.
  - intros c Hc.
    assert (c = 0 \/ c = 1 \/ c = 2 \/ c = 3 \/ c = 4 \/ c = 5 \/ c = 6)
      as Hcases by lia.
    destruct Hcases as [-> | [-> | [-> | [-> | [-> | [-> | ->]]]]]];
      vm_compute; reflexivity.
  - destruct (GetBestMove_run 0 (fun _ => 0) 1%positive PlayerYellow
                double_threat_game {[1%positive := double_threat_game]})
      as (σ'' & Hrun' & _); [apply lookup_singleton_eq |].
    assert (best_column 0 double_threat_game PlayerYellow = 0) as Hbest
      by (vm_compute; reflexivity).
    rewrite Hbest in Hrun'.
    assert (Some 4 = Some 0) as Habs; [| discriminate].
    change (fst <$> Some (4, σ') = fst <$> Some (0, σ'')).
    by rewrite <- Hrun, <- Hrun'.
Qed.

(** C10. [GetBestMove] leaves the game it is given as it found it: after the
    call the pointer refers to the same game, field by field (board, turn,
    state, winner, last move), and so does every other address that was in
    use; the placements are made on copies at addresses of their own. The
    call also returns: it has a result whenever the pointer refers to a
    game. *)
Theorem C10_GetBestMove_frame (now : Time) (rnd : Z -> Z) (game : positive)
    (botColor : PlayerColor) (σ : gmap positive Game) (g : Game) :
  σ !! game = Some g ->
  exists col σ' g',
    GetBestMove now rnd game botColor σ = Some (col, σ')
    /\ σ' !! game = Some g'
    /\ Game_Board g' = Game_Board g
    /\ Game_CurrentTurn g' = Game_CurrentTurn g
    /\ Game_State g' = Game_State g
    /\ Game_Winner g' = Game_Winner g
    /\ Game_LastMove g' = Game_LastMove g
    /\ g' = g
    /\ forall p x, σ !! p = Some x -> σ' !! p = Some x.
Proof.
  intros Hg.
  destruct (GetBestMove_run now rnd game botColor g σ Hg) as (σ' & Hrun & Hsub).
  exists (best_column now g botColor), σ', g.
  split; [done |]. split; [by eapply lookup_weaken |].
  do 6 (split; [done |]).
  intros p x Hp. by eapply lookup_weaken.
Qed.

Lemma C10_GetBestMove_frame_witness :
  exists col σ',
    GetBestMove 0 (fun _ => 0) 1%positive PlayerYellow
                {[1%positive := double_threat_game]} = Some (col, σ')
    /\ σ' !! 1%positive = Some double_threat_game.
Proof.
  destruct (C10_GetBestMove_frame 0 (fun _ => 0) 1%positive PlayerYellow
              {[1%positive := double_threat_game]} double_threat_game
              (lookup_singleton_eq 1%positive double_threat_game))
    as (col & σ' & g' & Hrun & Hg' & _ & _ & _ & _ & _ & -> & _).
  exists col, σ'. split; [exact Hrun | exact Hg'].
Defined.

(** ** The matching pass *)

Lemma GetCompatibleMatch_Some (order : list UUID) (q : Queue)
    (entry candidate : QueueEntry) :
  Queue_GetCompatibleMatch order q entry = Some candidate ->
  Entry_PlayerID candidate <> Entry_PlayerID entry
  /\ Queue_areCompatible entry candidate = true
  /\ exists k, k ∈ order /\ Queue_entries q !! k = Some candidate.
Proof.
  unfold Queue_GetCompatibleMatch. intros Hfind.
  apply find_some in Hfind as [Hin Htest].
  apply andb_prop in Htest as [Hid Hcompat].
  split; [by destruct (N.eqb_spec (Entry_PlayerID candidate)
                                   (Entry_PlayerID entry)) |].
  split; [done |].
  apply list_elem_of_In, list_elem_of_omap in Hin. exact Hin.
Qed.

(** Whatever the orders of iteration, the two entries of a pair the pass
    creates have different ids and are compatible. *)
Lemma processMatches_loop_pairs (scan : nat -> list UUID) (entries : list QueueEntry) :
  forall (i : nat) (q : Queue) (entry1 entry2 : QueueEntry),
    (entry1, entry2) ∈ fst (processMatches_loop scan i entries q) ->
    Entry_PlayerID entry2 <> Entry_PlayerID entry1
    /\ Queue_areCompatible entry1 entry2 = true.
Proof.
  induction entries as [| e rest IH]; intros i q entry1 entry2; simpl.
  - by intros ?%elem_of_nil.
  - destruct (Queue_entries q !! Entry_PlayerID e); [| apply IH].
    destruct (Queue_GetCompatibleMatch (scan i) q e) as [c |] eqn:Hmatch;
      [| apply IH].
    destruct (processMatches_loop scan (S i) rest
                (Queue_Remove (Entry_PlayerID c)
                   (Queue_Remove (Entry_PlayerID e) q))) as [pairs q'] eqn:Hrest.
    cbn [fst]. intros Hin. apply elem_of_cons in Hin as [[= -> ->] | Hin].
    + apply GetCompatibleMatch_Some in Hmatch as (? & ? & _). done.
    + eapply IH. rewrite Hrest. exact Hin.
Qed.

(** C8 (where the code departs from the claim). With [a], [b], [c] waiting,
    joined in this order and all compatible, a pass whose [GetAllEntries]
    starts at [c] hands [c] and [a] to [createPlayerMatch] first: [c], the
    last to join, is paired before [b]. *)
Theorem C8_pairing_ignores_join_order :
  head (fst (processMatches [3%N; 1%N; 2%N] (fun _ => [1%N; 2%N; 3%N]) queue_abc))
    = Some (entry_c, entry_a)
  /\ Entry_JoinedAt entry_a < Entry_JoinedAt entry_b < Entry_JoinedAt entry_c
  /\ Queue_areCompatible entry_a entry_b = true
  /\ Queue_areCompatible entry_a entry_c = true
  /\ Queue_areCompatible entry_b entry_c = true.
Proof.
  split; [vm_compute; reflexivity |].
  split; [vm_compute; split; reflexivity |].
  split; [reflexivity |]. split; reflexivity.
Qed.

(** ** The theorems with premises, run on the example sessions *)

Lemma C4_MakeMove_success_witness :
  exists game',
    Manager_games (snd (Manager_MakeMove 1 2 7%N 1%N 3 example_manager)) !! 7%N
      = Some game'
    /\ Game_State game' = GameStatePlaying
    /\ Game_CurrentTurn game' = PlayerYellow.
Proof.
  assert (Manager_games example_manager !! 7%N = Some example_game) as Hgame
    by (vm_compute; reflexivity).
  assert (fst (Manager_MakeMove 1 2 7%N 1%N 3 example_manager)
          = MoveOk (mkMove 1%N 3 5 PlayerRed 1)) as Hok
    by (vm_compute; reflexivity).
  destruct (C4_MakeMove_success 1 2 7%N 1%N 3 example_manager example_game
              (mkMove 1%N 3 5 PlayerRed 1) Hgame example_game_inv Hok)
    as (game' & Hgame' & _ & _ & Hcases).
  exists game'. split; [exact Hgame' |].
  assert (Manager_games (snd (Manager_MakeMove 1 2 7%N 1%N 3 example_manager))
            !! 7%N
          = Some (after_move 2
                    (set_LastMove (Some (mkMove 1%N 3 5 PlayerRed 1))
                       (set_Board (Board_set emptyBoard 5 3 1) example_game))))
    as Hcomp by (vm_compute; reflexivity).
  rewrite Hcomp in Hgame'. injection Hgame' as <-.
  split; vm_compute; reflexivity.
Defined.

Lemma C6_nothing_undone_witness :
  exists game',
    Manager_games
      (run [OpMakeMove 6 6 7%N 2%N 0;
            OpSweep sweep_time (fun _ => sweep_time) [7%N]]
           double_threat_manager) !! 7%N = Some game'
    /\ Board_at (Game_Board game') 5 1 = 1.
Proof.
  assert (Manager_games double_threat_manager !! 7%N = Some double_threat_game)
    as Hgame by (vm_compute; reflexivity).
  destruct (C6_nothing_undone
              [OpMakeMove 6 6 7%N 2%N 0;
               OpSweep sweep_time (fun _ => sweep_time) [7%N]]
              double_threat_manager 7%N double_threat_game Hgame)
    as (game' & Hgame' & Hcells & _).
  exists game'. split; [exact Hgame' |].
  rewrite Hcells; vm_compute; [reflexivity | discriminate].
Defined.

Lemma C9_double_disconnect_witness :
  exists game',
    Manager_games
      (fst (Manager_cleanupDisconnectedPlayers sweep_time (fun _ => sweep_time)
              [7%N] both_away_manager)) !! 7%N = Some game'
    /\ Game_State game' = GameStateFinished
    /\ Game_FinishedAt game' = Some sweep_time
    /\ Game_Winner game' = None.
Proof.
  assert (Manager_games both_away_manager !! 7%N = Some both_away_game)
    as Hgame by (vm_compute; reflexivity).
  destruct (C9_double_disconnect sweep_time (fun _ => sweep_time) [7%N]
              both_away_manager 7%N both_away_game
              (fst (Game_Players both_away_game)) Hgame)
    as (game' & Hgame' & Hfin & Htime & Hwin & _).
  - apply list_elem_of_In. simpl. tauto.
  - reflexivity.
  - apply list_elem_of_In. simpl. tauto.
  - vm_compute. reflexivity.
  - intros q Hq. apply list_elem_of_In in Hq. simpl in Hq.
    destruct Hq as [<- | [<- | []]]; reflexivity.
  - exists game'. split; [exact Hgame' |]. split; [exact Hfin |].
    split; [exact Htime |]. rewrite Hwin. reflexivity.
Defined.

(* ===================================================================== *)
(** * Further properties of the board engine *)
(* ===================================================================== *)

Lemma Game_IsBoardFull_iff (g : Game) :
  Game_IsBoardFull g = true
  <-> forall col, 0 <= col < 7 -> Board_at (Game_Board g) 0 col <> 0.
Proof.
  unfold Game_IsBoardFull. rewrite forallb_forall. split.
  - intros H col Hcol.
    specialize (H col). rewrite negb_true_iff, Z.eqb_neq in H.
    apply H. apply list_elem_of_In, elem_of_seqZ. lia.
  - intros H col Hcol. apply list_elem_of_In, elem_of_seqZ in Hcol.
    rewrite negb_true_iff, Z.eqb_neq. apply H. lia.
Qed.

(** X1. [IsBoardFull] answers true exactly when [IsValidMove] refuses every
    column; then every [Game.MakeMove], whatever the column and colour,
    returns [nil] and leaves the game as it is. *)
Theorem X1_full_board_refuses_all (g : Game) :
  (Game_IsBoardFull g = true <-> forall column, Game_IsValidMove g column = false)
  /\ (Game_IsBoardFull g = true ->
      forall now column color, Game_MakeMove now column color g = (None, g)).
Proof.
  assert (Game_IsBoardFull g = true
          <-> forall column, Game_IsValidMove g column = false) as Hiff.
  { rewrite Game_IsBoardFull_iff. split.
    - intros Hfull column.
      destruct (Game_IsValidMove g column) eqn:Hvalid; [| done].
      apply Game_IsValidMove_iff in Hvalid as [Hcol Htop].
      by destruct (Hfull column Hcol).
    - intros Hnone col Hcol Htop.
      specialize (Hnone col).
      assert (Game_IsValidMove g col = true) by (by apply Game_IsValidMove_iff).
      congruence. }
  split; [exact Hiff |].
  intros Hfull now column color. apply Game_MakeMove_invalid. by apply Hiff.
Qed.

Lemma emptyBoard_at (r c : Z) : Board_at emptyBoard r c = 0.
Proof.
  unfold Board_at. destruct ((0 <=? r) && (0 <=? c)); [| done].
  unfold emptyBoard.
  destruct (replicate 6 (replicate 7 0) !! Z.to_nat r) as [row |] eqn:Hrow;
    [| done].
  apply lookup_replicate in Hrow as [-> _].
  destruct (replicate 7 0 !! Z.to_nat c) as [x |] eqn:Hx; [| done].
  by apply lookup_replicate in Hx as [-> _].
Qed.

Lemma emptyBoard_legal : legal_board emptyBoard.
Proof.
  split; [exact emptyBoard_wf |]. split.
  - intros r c. left. apply emptyBoard_at.
  - intros r c _ H. by rewrite emptyBoard_at in H.
Qed.

Lemma placement_legal (now : Time) (g : Game) (column : Z)
    (color : PlayerColor) :
  legal_board (Game_Board g) ->
  valid_color color ->
  legal_board (Game_Board (snd (Game_MakeMove now column color g))).
Proof.
  intros (Hwf & Hcells & Hgrav) Hcolor.
  destruct (Game_IsValidMove g column) eqn:Hvalid.
  2: { rewrite Game_MakeMove_invalid by done. done. }
  rewrite Game_MakeMove_valid by done.
  cbn [snd Game_Board set_LastMove set_Board].
  destruct (lowestEmptyRow_valid g column Hvalid) as (Hrow & Hzero & Hbelow).
  apply Game_IsValidMove_iff in Hvalid as [Hcol _].
  set (row := lowestEmptyRow (Game_Board g) column 6) in *.
  destruct (color_code color Hcolor) as [Hcode Hnz]. rewrite Hcode.
  split; [by apply Board_set_wf |]. split.
  + intros r c.
    destruct (decide (r = row /\ c = column)) as [[-> ->] | Hne].
    * rewrite Board_at_set_same by done.
      destruct Hcolor as [-> | ->]; [right; left | right; right]; done.
    * rewrite Board_at_set_other by (destruct (decide (r = row)); tauto).
      apply Hcells.
  + intros r c Hr Hocc.
    destruct (decide (r + 1 = row /\ c = column)) as [[<- ->] | Hne'].
    { rewrite Board_at_set_same by (done || lia). done. }
    rewrite Board_at_set_other by (destruct (decide (r + 1 = row)); tauto).
    destruct (decide (r = row /\ c = column)) as [[-> ->] | Hne].
    * apply Hbelow. lia.
    * rewrite Board_at_set_other in Hocc
        by (destruct (decide (r = row)); tauto).
      by apply Hgrav.
Qed.

(** X2. A placement keeps the position legal: the board is still 6 x 7,
    every cell holds 0, 1 or 2, and no piece floats. In a legal position a
    column refuses a piece exactly when it is out of range or all its six
    cells are occupied. *)
Theorem X2_placement_keeps_position_legal (now : Time) (g : Game) (column : Z)
    (color : PlayerColor) :
  legal_board (Game_Board g) ->
  valid_color color ->
  legal_board (Game_Board (snd (Game_MakeMove now column color g)))
  /\ (Game_IsValidMove g column = false
      <-> ~ 0 <= column < 7
          \/ forall r, 0 <= r < 6 -> Board_at (Game_Board g) r column <> 0).
Proof.
  intros (Hwf & Hcells & Hgrav) Hcolor. split.
  - by apply placement_legal.
  - split.
    + intros Hinvalid.
      destruct (decide (0 <= column < 7)) as [Hcol | ?]; [| by left].
      right.
      assert (Board_at (Game_Board g) 0 column <> 0) as Htop.
      { intros Htop.
        assert (Game_IsValidMove g column = true)
          by (by apply Game_IsValidMove_iff).
        congruence. }
      assert (forall n : nat, (n < 6)%nat ->
                Board_at (Game_Board g) (Z.of_nat n) column <> 0) as Hall.
      { induction n as [| n IH]; intros Hn; [done |].
        replace (Z.of_nat (S n)) with (Z.of_nat n + 1) by lia.
        apply Hgrav; [lia | apply IH; lia]. }
      intros r Hr. specialize (Hall (Z.to_nat r)).
      rewrite Z2Nat.id in Hall by lia. apply Hall. lia.
    + intros Hcase.
      destruct (Game_IsValidMove g column) eqn:Hvalid; [| done].
      apply Game_IsValidMove_iff in Hvalid as [Hcol Htop].
      destruct Hcase as [? | Hfull]; [done |].
      by destruct (Hfull 0).
Qed.

Lemma X2_placement_keeps_position_legal_witness :
  legal_board (Game_Board example_game) /\ valid_color PlayerRed
  /\ legal_board (Game_Board (snd (Game_MakeMove 0 3 PlayerRed example_game))).
Proof.
  split; [exact emptyBoard_legal |]. split; [by left |].
  apply (X2_placement_keeps_position_legal 0 example_game 3 PlayerRed
           emptyBoard_legal (or_introl eq_refl)).
Defined.

Lemma first_some_Some {A B : Type} (f : A -> option B) (l : list A) (y : B) :
  first_some f l = Some y -> exists x, x ∈ l /\ f x = Some y.
Proof.
  induction l as [| x l IH]; simpl; [done |].
  destruct (f x) as [y' |] eqn:Hfx.
  - intros [= ->]. exists x. split; [by left | done].
  - intros H. destruct (IH H) as (x' & Hin & Hx'). exists x'.
    split; [by right | done].
Qed.

Lemma four_in_line_cells (b : Board) (row col : Z) (d : Z * Z) :
  four_in_line b row col d = true <->
  forall i, 0 <= i < 4 ->
    in_bounds (row + i * fst d) (col + i * snd d) = true
    /\ Board_at b (row + i * fst d) (col + i * snd d) = Board_at b row col.
Proof.
  unfold four_in_line. rewrite forallb_forall. split.
  - intros H i Hi. specialize (H i).
    rewrite andb_true_iff, Z.eqb_eq in H. apply H. simpl. lia.
  - intros H i Hi. rewrite andb_true_iff, Z.eqb_eq. apply H.
    simpl in Hi. lia.
Qed.

(** X3. When [CheckWinner] answers a colour there is a line to show for it:
    a cell of the board and one of the four directions such that the four
    cells from the cell along the direction are inside the board and hold
    the same non-empty value, the colour plus one. On a board whose cells
    hold 0, 1 or 2 the answer is red or yellow. *)
Theorem X3_winner_has_a_line (g : Game) (w : PlayerColor) :
  Game_CheckWinner g = Some w ->
  (exists row col d,
      0 <= row < 6 /\ 0 <= col < 7 /\ d ∈ directions
      /\ Board_at (Game_Board g) row col <> 0
      /\ w = int_sub (Board_at (Game_Board g) row col) 1
      /\ forall i, 0 <= i < 4 ->
           in_bounds (row + i * fst d) (col + i * snd d) = true
           /\ Board_at (Game_Board g) (row + i * fst d) (col + i * snd d)
              = Board_at (Game_Board g) row col)
  /\ (cells_ok (Game_Board g) -> valid_color w).
Proof.
  rewrite Game_CheckWinner_winner_scan. unfold winner_scan. intros Hscan.
  apply first_some_Some in Hscan as ([row col] & Hcell & Hhit).
  destruct (Z.eqb_spec (Board_at (Game_Board g) row col) 0) as [| Hocc];
    [done |].
  apply first_some_Some in Hhit as (d & Hd & Hline).
  destruct (four_in_line (Game_Board g) row col d) eqn:Hfour; [| done].
  injection Hline as <-.
  assert (0 <= row < 6 /\ 0 <= col < 7) as [Hrow Hcol].
  { unfold scan_order in Hcell.
    apply list_elem_of_bind in Hcell as (r & Hcell & Hr).
    apply list_elem_of_bind in Hcell as (c & Hcell & Hc).
    apply list_elem_of_singleton in Hcell as [= -> ->].
    apply elem_of_seqZ in Hr, Hc. lia. }
  split.
  - exists row, col, d.
    split; [lia |]. split; [lia |]. split; [done |]. split; [done |].
    split; [done |]. by apply four_in_line_cells.
  - intros Hcells.
    destruct (Hcells row col) as [? | [-> | ->]]; [done | by left | by right].
Qed.

Lemma X3_winner_has_a_line_witness :
  Game_CheckWinner (snd (Game_MakeMove 6 0 PlayerRed double_threat_game))
    = Some PlayerRed
  /\ exists row col,
       Board_at (Game_Board (snd (Game_MakeMove 6 0 PlayerRed double_threat_game)))
                row col <> 0.
Proof.
  assert (Game_CheckWinner
            (snd (Game_MakeMove 6 0 PlayerRed double_threat_game))
          = Some PlayerRed) as Hwin by (vm_compute; reflexivity).
  split; [exact Hwin |].
  destruct (X3_winner_has_a_line _ _ Hwin)
    as [(row & col & d & _ & _ & _ & Hocc & _) _].
  exists row, col. exact Hocc.
Defined.

Lemma scan_order_NoDup : NoDup scan_order.
Proof. refine (bool_decide_unpack (NoDup scan_order) _). vm_compute. exact I. Qed.

Lemma scan_order_elem (r c : Z) :
  (r, c) ∈ scan_order <-> 0 <= r < 6 /\ 0 <= c < 7.
Proof.
  unfold scan_order. rewrite list_elem_of_bind. split.
  - intros (r' & Hin & Hr). apply list_elem_of_bind in Hin as (c' & Hin & Hc).
    apply list_elem_of_singleton in Hin as [= -> ->].
    apply elem_of_seqZ in Hr, Hc. lia.
  - intros [Hr Hc]. exists r. split; [| apply elem_of_seqZ; lia].
    apply list_elem_of_bind. exists c.
    split; [by apply list_elem_of_singleton | apply elem_of_seqZ; lia].
Qed.

Lemma count_same {A : Type} (P Q : A -> Prop)
    `{!forall x, Decision (P x)} `{!forall x, Decision (Q x)} (l : list A) :
  (forall y, y ∈ l -> (P y <-> Q y)) ->
  length (filter Q l) = length (filter P l).
Proof.
  induction l as [| a l IH]; intros Hsame; [done |].
  rewrite !filter_cons.
  assert (P a <-> Q a) as Ha by (apply Hsame; by left).
  assert (length (filter Q l) = length (filter P l)) as IH'
    by (apply IH; intros y Hy; apply Hsame; by right).
  destruct (decide (Q a)) as [Hq | Hq].
  - rewrite decide_True by (by apply Ha). simpl. by rewrite IH'.
  - rewrite decide_False by (by rewrite Ha). done.
Qed.

(** Counting the elements that satisfy a test, when one element of a list
    without repetition starts to satisfy it and nothing else changes. *)
Lemma count_one_more {A : Type} (P Q : A -> Prop)
    `{!forall x, Decision (P x)} `{!forall x, Decision (Q x)}
    (l : list A) (x : A) :
  NoDup l -> x ∈ l -> ~ P x -> Q x ->
  (forall y, y ∈ l -> y <> x -> (P y <-> Q y)) ->
  length (filter Q l) = S (length (filter P l)).
Proof.
  induction l as [| a l IH]; intros Hnd Hin HnP HQ Hsame.
  - by apply elem_of_nil in Hin.
  - apply NoDup_cons in Hnd as [Hnotin Hnd].
    rewrite !filter_cons.
    apply elem_of_cons in Hin as [<- | Hin].
    + rewrite decide_True by done. rewrite decide_False by done.
      simpl. f_equal.
      apply count_same. intros y Hy. apply Hsame; [by right |].
      intros ->. done.
    + assert (a <> x) as Hne by (intros ->; done).
      assert (length (filter Q l) = S (length (filter P l))) as IH'.
      { apply IH; try done. intros y Hy. apply Hsame. by right. }
      assert (P a <-> Q a) as Ha by (apply Hsame; [by left | done]).
      destruct (decide (Q a)) as [Hq | Hq].
      * rewrite decide_True by (by apply Ha). simpl. by rewrite IH'.
      * rewrite decide_False by (by rewrite Ha). done.
Qed.

Lemma occupied_after_placement (now : Time) (g : Game) (column : Z)
    (color : PlayerColor) :
  wf_board (Game_Board g) -> valid_color color ->
  Game_IsValidMove g column = true ->
  occupied (Game_Board (snd (Game_MakeMove now column color g)))
  = S (occupied (Game_Board g)).
Proof.
  intros Hwf Hcolor Hvalid.
  rewrite Game_MakeMove_valid by done.
  cbn [snd Game_Board set_LastMove set_Board].
  destruct (lowestEmptyRow_valid g column Hvalid) as (Hrow & Hzero & _).
  apply Game_IsValidMove_iff in Hvalid as [Hcol _].
  set (row := lowestEmptyRow (Game_Board g) column 6) in *.
  destruct (color_code color Hcolor) as [Hcode Hnz]. rewrite Hcode.
  unfold occupied.
  apply (count_one_more _ _ scan_order (row, column)).
  - exact scan_order_NoDup.
  - by apply scan_order_elem.
  - cbn [fst snd]. intros Hocc. by apply Hocc.
  - cbn [fst snd]. by rewrite Board_at_set_same.
  - intros [r c] _ Hne. cbn [fst snd].
    rewrite Board_at_set_other; [done |].
    destruct (decide (r = row)) as [-> | ?]; [| by left].
    right. intros ->. done.
Qed.

Lemma occupied_all_full (g : Game) :
  occupied (Game_Board g) = 42%nat -> Game_IsBoardFull g = true.
Proof.
  intros Hcount. apply Game_IsBoardFull_iff. intros col Hcol Htop.
  assert ((0, col) ∈ scan_order) as Hin by (apply scan_order_elem; lia).
  pose proof (length_filter_lt
                (fun rc => Board_at (Game_Board g) (fst rc) (snd rc) <> 0)
                scan_order (0, col) Hin) as Hlt.
  cbn [fst snd] in Hlt. unfold occupied in Hcount.
  rewrite Hcount in Hlt.
  assert (length scan_order = 42%nat) as Hlen by reflexivity.
  rewrite Hlen in Hlt. specialize (Hlt (fun H => H Htop)). lia.
Qed.

(** X4. Each [Game.MakeMove] that returns a move adds exactly one occupied
    cell: a series of placements that all succeed raises the number of
    occupied cells by the number of placements and keeps the position
    legal; when that brings the number to 42, [IsBoardFull] answers true.
    Starting from the empty board, 42 placements fill it. *)
Theorem X4_placements_fill_the_board (now : Time)
    (moves : list (Z * PlayerColor)) (g g' : Game) :
  legal_board (Game_Board g) ->
  Forall (fun mv => valid_color (snd mv)) moves ->
  place_all now moves g = Some g' ->
  legal_board (Game_Board g')
  /\ occupied (Game_Board g') = (occupied (Game_Board g) + length moves)%nat
  /\ ((occupied (Game_Board g) + length moves)%nat = 42%nat ->
      Game_IsBoardFull g' = true).
Proof.
  intros Hlegal Hcolors Hplace.
  assert (legal_board (Game_Board g')
          /\ occupied (Game_Board g')
             = (occupied (Game_Board g) + length moves)%nat) as [Hl Hc].
  { revert g Hlegal Hplace.
    induction Hcolors as [| [column color] moves Hcolor Hcolors IH];
      intros g Hlegal Hplace.
    - injection Hplace as <-. split; [done | simpl; lia].
    - cbn [place_all] in Hplace. cbn [snd] in Hcolor.
      destruct (Game_IsValidMove g column) eqn:Hvalid.
      2: { rewrite Game_MakeMove_invalid in Hplace by done. done. }
      pose proof (occupied_after_placement now g column color
                    (proj1 Hlegal) Hcolor Hvalid) as Hocc.
      pose proof (placement_legal now g column color Hlegal Hcolor) as Hl1.
      destruct (Game_MakeMove now column color g) as [[mv |] g1] eqn:Hmove;
        [| done].
      cbn [snd] in *.
      destruct (IH g1 Hl1 Hplace) as [Hl Hc].
      split; [done |]. rewrite Hc, Hocc. simpl. lia. }
  split; [done |]. split; [done |].
  intros H42. apply occupied_all_full. by rewrite Hc.
Qed.

Lemma X4_placements_fill_the_board_witness :
  exists g',
    place_all 0 [(3, PlayerRed); (3, PlayerYellow)] example_game = Some g'
    /\ occupied (Game_Board g') = 2%nat.
Proof.
  assert (exists g', place_all 0 [(3, PlayerRed); (3, PlayerYellow)] example_game
                     = Some g') as [g' Hplace]
    by (eexists; vm_compute; reflexivity).
  exists g'. split; [exact Hplace |].
  destruct (X4_placements_fill_the_board 0 [(3, PlayerRed); (3, PlayerYellow)]
              example_game g' emptyBoard_legal) as (_ & Hcount & _).
  - repeat constructor; by (left + right).
  - exact Hplace.
  - rewrite Hcount. reflexivity.
Defined.

(* ===================================================================== *)
(** * Further properties of the session manager *)
(* ===================================================================== *)

(** X5. [CreateGame] stores a session that is played, on the empty board,
    with red to move, the first player red and the second yellow, and
    touches no other session and no connection. On the new session the
    first player's move in any column 0..6 is accepted and lands in the
    bottom row, and the second player, when the ids differ, is answered
    [ErrNotPlayerTurn]. *)
Theorem X5_CreateGame_opens_with_red (now : Time) (gameID : UUID)
    (player1 player2 : Player) (m : Manager) :
  let game := fst (Manager_CreateGame now gameID player1 player2 m) in
  let m' := snd (Manager_CreateGame now gameID player1 player2 m) in
  Manager_games m' !! gameID = Some game
  /\ (forall gid, gid <> gameID -> Manager_games m' !! gid = Manager_games m !! gid)
  /\ Manager_players m' = Manager_players m
  /\ Game_State game = GameStatePlaying
  /\ Game_Board game = emptyBoard
  /\ Game_CurrentTurn game = PlayerRed
  /\ Game_Winner game = None
  /\ Player_ID (fst (Game_Players game)) = Player_ID player1
  /\ Player_ID (snd (Game_Players game)) = Player_ID player2
  /\ Player_Color (fst (Game_Players game)) = PlayerRed
  /\ Player_Color (snd (Game_Players game)) = PlayerYellow
  /\ (forall tMove tEnd column, 0 <= column < 7 ->
        fst (Manager_MakeMove tMove tEnd gameID (Player_ID player1) column m')
        = MoveOk (mkMove (Player_ID player1) column 5 PlayerRed tMove))
  /\ (Player_ID player2 <> Player_ID player1 ->
      forall tMove tEnd column,
        fst (Manager_MakeMove tMove tEnd gameID (Player_ID player2) column m')
        = MoveErr ErrNotPlayerTurn).
Proof.
  cbv zeta. unfold Manager_CreateGame, put_game. cbn [fst snd Manager_games
    Manager_players Game_State Game_Board Game_CurrentTurn Game_Winner
    Game_Players set_Color Player_ID Player_Color].
  split; [apply lookup_insert_eq |].
  split; [intros gid Hne; by rewrite lookup_insert_ne |].
  do 9 (split; [done |]).
  split.
  - intros tMove tEnd column Hcol. unfold Manager_MakeMove.
    cbn [Manager_games]. rewrite lookup_insert_eq.
    cbn [Game_State bool_decide negb].
    rewrite bool_decide_eq_true_2 by done. cbn [negb].
    unfold find_player, players_of. cbn [Game_Players fst snd find set_Color
      Player_ID].
    rewrite N.eqb_refl. cbn [Player_Color Game_CurrentTurn].
    change (PlayerRed =? PlayerRed) with true. cbn [negb].
    rewrite Game_MakeMove_valid.
    2: { apply Game_IsValidMove_iff. split; [done | apply emptyBoard_at]. }
    cbn [fst snd Game_Board].
    assert (lowestEmptyRow emptyBoard column 6 = 5) as ->.
    { cbn [lowestEmptyRow]. by rewrite emptyBoard_at. }
    reflexivity.
  - intros Hne tMove tEnd column. unfold Manager_MakeMove.
    cbn [Manager_games]. rewrite lookup_insert_eq.
    cbn [Game_State]. rewrite bool_decide_eq_true_2 by done. cbn [negb].
    unfold find_player, players_of. cbn [Game_Players fst snd find set_Color
      Player_ID].
    destruct (N.eqb_spec (Player_ID player1) (Player_ID player2)) as [Heq | _];
      [by destruct Hne |].
    rewrite N.eqb_refl. reflexivity.
Qed.

Lemma occupied_emptyBoard : occupied emptyBoard = 0%nat.
Proof. vm_compute. reflexivity. Qed.

Lemma find_player_color (g : Game) (playerID : UUID) (player : Player) :
  Game_inv g -> find_player g playerID = Some player ->
  valid_color (Player_Color player).
Proof.
  intros (_ & Hred & Hyellow & _) Hfind.
  apply find_player_Some in Hfind as [_ Hin].
  unfold players_of in Hin.
  apply elem_of_cons in Hin as [-> | Hin]; [by left |].
  apply list_elem_of_singleton in Hin as ->. by right.
Qed.

Lemma CreateGame_ok (now : Time) (gameID : UUID) (player1 player2 : Player)
    (m : Manager) :
  Session_ok (fst (Manager_CreateGame now gameID player1 player2 m)).
Proof.
  unfold Manager_CreateGame. cbn [fst]. unfold Session_ok.
  cbn [Game_Board Game_State Game_FinishedAt Game_CurrentTurnNumber
       Game_CurrentTurn].
  split.
  { split; [exact emptyBoard_wf |].
    split; [reflexivity |]. split; [reflexivity |].
    split; [by left |]. done. }
  split; [exact emptyBoard_legal |].
  split; [done |]. split; [done |]. split; [done |].
  intros _. rewrite occupied_emptyBoard. split; [intros _; by exists 0%nat | done].
Qed.

Lemma move_ok (tMove tEnd : Time) (playerID : UUID) (column : Z) (g : Game)
    (player : Player) (mv : Move) :
  Session_ok g ->
  Game_State g = GameStatePlaying ->
  find_player g playerID = Some player ->
  Player_Color player = Game_CurrentTurn g ->
  Game_IsValidMove g column = true ->
  Session_ok (after_move tEnd
                (set_LastMove (Some mv)
                   (set_Board (Board_set (Game_Board g)
                                 (lowestEmptyRow (Game_Board g) column 6)
                                 column (int_add (Player_Color player) 1)) g))).
Proof.
  intros (Hinv & Hlegal & Hnw & Hfin & Hnum & Hpar) Hplay Hfind Hturn Hvalid.
  pose proof (find_player_color g playerID player Hinv Hfind) as Hcolor.
  pose proof (placement_legal tMove g column (Player_Color player) Hlegal Hcolor)
    as Hlegal'.
  pose proof (occupied_after_placement tMove g column (Player_Color player)
                (proj1 Hlegal) Hcolor Hvalid) as Hocc.
  rewrite Game_MakeMove_valid in Hlegal', Hocc by done.
  cbn [snd Game_Board set_LastMove set_Board] in Hlegal', Hocc.
  set (b' := Board_set (Game_Board g) (lowestEmptyRow (Game_Board g) column 6)
               column (int_add (Player_Color player) 1)) in *.
  destruct Hinv as (Hwf & Hred & Hyellow & Hturnc & Hnowin).
  destruct (Hnowin Hplay) as [Hw Hf].
  set (game2 := set_LastMove (Some mv) (set_Board b' g)).
  assert (Game_inv (after_move tEnd game2)) as Hinv'.
  { apply after_move_inv; try done. apply Hlegal'. }
  split; [exact Hinv' |].
  destruct (after_move_board tEnd game2) as [Hboard _].
  rewrite Hboard. cbn [game2 Game_Board set_LastMove set_Board].
  split; [exact Hlegal' |].
  unfold after_move.
  destruct (Game_CheckWinner game2);
    [cbn; split_and!; done |].
  destruct (Game_IsBoardFull game2);
    [cbn; split_and!; done |].
  change (Game_CurrentTurn game2) with (Game_CurrentTurn g).
  specialize (Hpar Hplay). rewrite Hocc.
  destruct Hturnc as [Hc | Hc]; rewrite Hc in *; cbn.
  - split; [by rewrite Hplay |]. split; [by rewrite Hplay |].
    split; [done |]. intros _. split; [done |].
    intros Heven. apply Nat.Even_succ in Heven.
    destruct (proj1 Hpar eq_refl) as [k Hk]. destruct Heven as [k' Hk']. lia.
  - split; [by rewrite Hplay |]. split; [by rewrite Hplay |].
    split; [done |]. intros _. split; [| done].
    intros _. apply Nat.Even_succ.
    destruct (Nat.Even_or_Odd (occupied (Game_Board g))) as [Heven | Hodd];
      [| done].
    apply Hpar in Heven. done.
Qed.

Lemma forfeit_Some_rest (now tEnd : Time) (game game' : Game) :
  forfeit now tEnd game = Some game' ->
  Game_CurrentTurnNumber game' = Game_CurrentTurnNumber game
  /\ Game_LastMove game' = Game_LastMove game
  /\ Game_ID game' = Game_ID game
  /\ Game_CreatedAt game' = Game_CreatedAt game.
Proof.
  unfold forfeit.
  destruct (negb (bool_decide (Game_State game = GameStatePlaying))); [done |].
  destruct (find (disconnectedTooLong now) (players_of game)); [| done].
  change (players_of (set_FinishedAt (Some tEnd)
                        (set_State GameStateFinished game)))
    with (players_of game).
  destruct (find Player_Connected (players_of game)); by intros [= <-].
Qed.

Lemma forfeit_ok (now tEnd : Time) (g : Game) :
  Session_ok g -> Session_ok (default g (forfeit now tEnd g)).
Proof.
  intros Hok. pose proof (forfeit_inv now tEnd g (proj1 Hok)) as Hinv'.
  destruct (forfeit now tEnd g) as [g' |] eqn:Hf; [| done].
  pose proof (forfeit_Some_rest _ _ _ _ Hf) as (Hn & _).
  apply forfeit_Some in Hf as (_ & _ & Hfin & Ht & Hb & Hp & Hturn & _).
  destruct Hok as (_ & Hlegal & _ & _ & Hnum & _). simpl in *.
  split; [exact Hinv' |]. rewrite Hb, Hfin, Ht, Hturn, Hn.
  split; [done |]. split; [done |]. split; [done |].
  split; done.
Qed.

Lemma update_player_ok (playerID : UUID) (b : bool) (t : Time) (g : Game) :
  Session_ok g -> Session_ok (update_player playerID (set_Connected b t) g).
Proof.
  intros Hok.
  pose proof (update_player_inv playerID b t g (proj1 Hok)) as Hinv'.
  destruct Hok as (_ & Hlegal & Hnw & Hfin & Hnum & Hpar).
  split; [exact Hinv' |]. unfold update_player.
  destruct (Game_Players g) as [p0 p1].
  destruct (Player_ID p0 =? playerID)%N;
    [| destruct (Player_ID p1 =? playerID)%N]; cbn; by split_and!.
Qed.

Lemma step_ok (op : Op) (m : Manager) : Manager_ok m -> Manager_ok (step m op).
Proof.
  intros Hok.
  destruct op as [tMove tEnd gid playerID column | now clock order
                 | now playerID gid | now playerID]; cbn [step].
  - destruct (fst (Manager_MakeMove tMove tEnd gid playerID column m))
      as [mv | e] eqn:Hres.
    + apply Manager_MakeMove_ok in Hres
        as (g & player & Hg & Hplay & Hfind & Hturn & Hvalid & _ & ->).
      intros gameID game. unfold put_game. cbn [Manager_games].
      destruct (decide (gid = gameID)) as [-> | Hne].
      * rewrite lookup_insert_eq. intros [= <-].
        eapply move_ok; eauto.
      * rewrite lookup_insert_ne by done. apply Hok.
    + by rewrite (MakeMove_error_unchanged _ _ _ _ _ _ _ Hres).
  - intros gameID g. rewrite sweep_lookup.
    destruct (Manager_games m !! gameID) as [g0 |] eqn:Hg0; [| done].
    simpl. intros [= <-]. specialize (Hok _ _ Hg0).
    case_bool_decide; [by apply forfeit_ok | done].
  - intros gameID g. unfold Manager_AddPlayerConnection.
    destruct (Manager_games m !! gid) as [g0 |] eqn:Hg0; cbn [Manager_games];
      [| apply Hok].
    destruct (decide (gid = gameID)) as [-> | Hne].
    + rewrite lookup_insert_eq. intros [= <-].
      apply update_player_ok. by eapply Hok.
    + rewrite lookup_insert_ne by done. apply Hok.
  - intros gameID g. unfold Manager_RemovePlayerConnection.
    destruct (Manager_players m !! playerID) as [conn |]; [| apply Hok].
    cbn [Manager_games].
    destruct (Manager_games m !! Conn_GameID conn) as [g0 |] eqn:Hg0;
      [| apply Hok].
    destruct (decide (Conn_GameID conn = gameID)) as [Heq | Hne].
    + rewrite Heq in *. rewrite lookup_insert_eq. intros [= <-].
      apply update_player_ok. by eapply Hok.
    + rewrite lookup_insert_ne by done. apply Hok.
Qed.

(** X6. Every session the manager creates and works on stays well formed.
    [CreateGame] stores a session for which: the position is legal (6 x 7,
    cells 0, 1 or 2, no floating piece); the first player is red and the
    second yellow; the turn is red or yellow, and the turn number kept for
    the front end is the turn colour plus one; the state is [Playing] or
    [Finished]; a played session has neither winner nor finish time and
    has red to move exactly when the number of pieces is even; a finished
    session has its finish time. Moves, sweeps and connection changes, in
    any number and order, keep all of this for every session. *)
Theorem X6_sessions_stay_well_formed (ops : list Op) (m : Manager) :
  Manager_ok m ->
  Manager_ok (run ops m)
  /\ forall now gameID player1 player2,
       Manager_ok (snd (Manager_CreateGame now gameID player1 player2
                          (run ops m))).
Proof.
  intros Hok.
  assert (Manager_ok (run ops m)) as Hrun.
  { revert m Hok. induction ops as [| op ops IH]; intros m Hok; [done |].
    apply IH. by apply step_ok. }
  split; [exact Hrun |].
  intros now gameID player1 player2 gid g.
  unfold Manager_CreateGame, put_game. cbn [snd Manager_games].
  destruct (decide (gameID = gid)) as [-> | Hne].
  - rewrite lookup_insert_eq. intros [= <-].
    apply (CreateGame_ok now gid player1 player2 (run ops m)).
  - rewrite lookup_insert_ne by done. apply Hrun.
Qed.

Lemma X6_sessions_stay_well_formed_witness :
  Manager_ok (mkManager ∅ ∅)
  /\ Manager_ok
       (run [OpMakeMove 1 1 7%N 1%N 3; OpSweep 2 (fun _ => 2) [7%N]]
            (snd (Manager_CreateGame 0 7%N alice bob (run [] (mkManager ∅ ∅))))).
Proof.
  assert (Manager_ok (mkManager ∅ ∅)) as Hempty.
  { intros gid g. cbn [Manager_games]. by rewrite lookup_empty. }
  split; [exact Hempty |].
  exact (proj1 (X6_sessions_stay_well_formed
                  [OpMakeMove 1 1 7%N 1%N 3; OpSweep 2 (fun _ => 2) [7%N]]
                  (snd (Manager_CreateGame 0 7%N alice bob
                          (run [] (mkManager ∅ ∅))))
                  (proj2 (X6_sessions_stay_well_formed [] (mkManager ∅ ∅)
                            Hempty) 0 7%N alice bob))).
Defined.

Lemma disconnectedTooLong_iff (now : Time) (p : Player) :
  disconnectedTooLong now p = true
  <-> Player_Connected p = false /\ now - Player_LastSeen p > gracePeriod.
Proof.
  unfold disconnectedTooLong, Time_Sub, gracePeriod.
  rewrite andb_true_iff, negb_true_iff. split.
  - intros [Hc Hlong]. split; [done |]. lia.
  - intros [Hc Hlong]. split; [done |]. lia.
Qed.

Lemma sweep_fold_noop (now : Time) (clock : UUID -> Time) (order : list UUID)
    (m : Manager) (out : list (UUID * WSMessage)) :
  (forall gid g, gid ∈ order -> Manager_games m !! gid = Some g ->
                 forfeit now (clock gid) g = None) ->
  foldl (sweep_body now clock) (m, out) order = (m, out).
Proof.
  induction order as [| gid order IH]; intros Hnone; [done |].
  cbn [foldl].
  destruct (Manager_games m !! gid) as [g |] eqn:Hg.
  - unfold cleanup_game. rewrite (Hnone gid g) by (done || by left).
    rewrite app_nil_r. apply IH. intros gid' g' Hin. apply Hnone. by right.
  - apply IH. intros gid' g' Hin. apply Hnone. by right.
Qed.

(** X7. The sweep leaves a session alone unless it is played and has a
    player who is not connected and was last seen more than 30 seconds
    before: a session that is finished, or whose every player is connected
    or was last seen at most 30 seconds before (30 seconds exactly
    included), is after the sweep what it was before, whatever happens to
    the other sessions. When this holds of every session, the sweep
    changes nothing at all and writes no message. *)
Theorem X7_sweep_spares_sessions_in_grace (now : Time) (clock : UUID -> Time)
    (order : list UUID) (m : Manager) (gameID : UUID) (game : Game) :
  let spared (g : Game) :=
    Game_State g <> GameStatePlaying
    \/ forall p, p ∈ players_of g ->
         Player_Connected p = true \/ now - Player_LastSeen p <= gracePeriod in
  Manager_games m !! gameID = Some game ->
  spared game ->
  Manager_games (fst (Manager_cleanupDisconnectedPlayers now clock order m))
    !! gameID = Some game
  /\ ((forall gid g, Manager_games m !! gid = Some g -> spared g) ->
      Manager_cleanupDisconnectedPlayers now clock order m = (m, [])).
Proof.
  intros spared Hgame Hspared.
  assert (forall g t, spared g -> forfeit now t g = None) as Hnone.
  { intros g t [Hstate | Hplayers]; apply forfeit_None; [by left | right].
    intros p Hp.
    destruct (disconnectedTooLong now p) eqn:Hlong; [| done].
    apply disconnectedTooLong_iff in Hlong as [Hc Hl].
    destruct (Hplayers p Hp) as [? | ?]; [congruence | lia]. }
  split.
  - rewrite sweep_lookup, Hgame. simpl.
    case_bool_decide; [| done]. by rewrite Hnone.
  - intros Hall. apply sweep_fold_noop. intros gid g _ Hg.
    apply Hnone. by eapply Hall.
Qed.

Lemma X7_sweep_spares_sessions_in_grace_witness :
  Manager_games
    (fst (Manager_cleanupDisconnectedPlayers gracePeriod (fun _ => gracePeriod)
            [7%N] forfeit_manager)) !! 7%N
  = Manager_games forfeit_manager !! 7%N.
Proof.
  assert (Manager_games forfeit_manager !! 7%N
          = Some (default example_game (Manager_games forfeit_manager !! 7%N)))
    as Hgame by (vm_compute; reflexivity).
  rewrite Hgame.
  apply (X7_sweep_spares_sessions_in_grace gracePeriod (fun _ => gracePeriod)
           [7%N] forfeit_manager 7%N _ Hgame).
  right. intros p Hp. apply list_elem_of_In in Hp. simpl in Hp.
  destruct Hp as [<- | [<- | []]]; [right | left]; vm_compute; done.
Defined.

Lemma sweep_forfeit_other (now : Time) (clock : UUID -> Time)
    (order : list UUID) (m : Manager) (gameID : UUID) (game : Game)
    (away other : Player) :
  Manager_games m !! gameID = Some game ->
  gameID ∈ order ->
  Game_State game = GameStatePlaying ->
  Game_Players game = (away, other) \/ Game_Players game = (other, away) ->
  Player_Connected away = false ->
  now - Player_LastSeen away > gracePeriod ->
  Player_Connected other = true ->
  exists game',
    Manager_games (fst (Manager_cleanupDisconnectedPlayers now clock order m))
      !! gameID = Some game'
    /\ Game_State game' = GameStateFinished
    /\ Game_FinishedAt game' = Some (clock gameID)
    /\ Game_Winner game' = Some (Player_Color other)
    /\ Game_Board game' = Game_Board game.
Proof.
  intros Hgame Hin Hplay Hplayers Haway Hlong Hother.
  assert (disconnectedTooLong now away = true) as Hd
    by (by apply disconnectedTooLong_iff).
  assert (away ∈ players_of game) as Hp.
  { unfold players_of. destruct Hplayers as [-> | ->]; cbn [fst snd];
      [by left | right; by left]. }
  destruct (sweep_forfeit now clock order m gameID game away)
    as (game' & Hgame' & Hfin & Htime & Hboard & Hwin); try done.
  exists game'. split; [done |]. split; [done |]. split; [done |].
  split; [| done]. rewrite Hwin. unfold players_of.
  destruct Hplayers as [-> | ->]; cbn [fst snd find].
  - by rewrite Haway, Hother.
  - by rewrite Hother.
Qed.

(** X8. The forfeit of the sweep. For a played session that the sweep
    visits, with a player who is not connected and was last seen more than
    30 seconds before: the session is finished at the time read, board and
    turn stay, and the winner is the colour of the other player when that
    one is connected. This holds whichever of the two players is away. *)
Theorem X8_forfeit_goes_to_connected_player (now : Time) (clock : UUID -> Time)
    (order : list UUID) (m : Manager) (gameID : UUID) (game : Game)
    (away other : Player) :
  Manager_games m !! gameID = Some game ->
  gameID ∈ order ->
  Game_State game = GameStatePlaying ->
  Game_Players game = (away, other) \/ Game_Players game = (other, away) ->
  Player_Connected away = false ->
  now - Player_LastSeen away > gracePeriod ->
  Player_Connected other = true ->
  exists game',
    Manager_games (fst (Manager_cleanupDisconnectedPlayers now clock order m))
      !! gameID = Some game'
    /\ Game_State game' = GameStateFinished
    /\ Game_FinishedAt game' = Some (clock gameID)
    /\ Game_Winner game' = Some (Player_Color other)
    /\ Game_Board game' = Game_Board game.
Proof. apply sweep_forfeit_other. Qed.

Lemma X8_forfeit_goes_to_connected_player_witness :
  exists game',
    Manager_games
      (fst (Manager_cleanupDisconnectedPlayers sweep_time (fun _ => sweep_time)
              [7%N] forfeit_manager)) !! 7%N = Some game'
    /\ Game_Winner game' = Some PlayerYellow.
Proof.
  assert (Manager_games forfeit_manager !! 7%N
          = Some (default example_game (Manager_games forfeit_manager !! 7%N)))
    as Hgame by (vm_compute; reflexivity).
  destruct (X8_forfeit_goes_to_connected_player sweep_time
              (fun _ => sweep_time) [7%N] forfeit_manager 7%N _
              (fst (Game_Players
                      (default example_game
                         (Manager_games forfeit_manager !! 7%N))))
              (snd (Game_Players
                      (default example_game
                         (Manager_games forfeit_manager !! 7%N))))
              Hgame)
    as (game' & Hgame' & _ & _ & Hwin & _).
  - apply list_elem_of_In. simpl. tauto.
  - reflexivity.
  - left. reflexivity.
  - reflexivity.
  - vm_compute. reflexivity.
  - reflexivity.
  - exists game'. split; [exact Hgame' | exact Hwin].
Defined.

(** X9. A forfeit is declared once. After a sweep, a second sweep with the
    same reading of the clock, over sessions the first one visited and in
    any order, changes nothing and writes no message. *)
Theorem X9_second_sweep_is_silent (now : Time) (clock clock' : UUID -> Time)
    (order order' : list UUID) (m : Manager) :
  (forall gid, gid ∈ order' -> gid ∈ order) ->
  let m1 := fst (Manager_cleanupDisconnectedPlayers now clock order m) in
  Manager_cleanupDisconnectedPlayers now clock' order' m1 = (m1, []).
Proof.
  intros Hsub m1. apply sweep_fold_noop. intros gid g Hin Hg.
  unfold m1 in Hg. rewrite sweep_lookup in Hg.
  destruct (Manager_games m !! gid) as [g0 |] eqn:Hg0; [| done].
  simpl in Hg. rewrite bool_decide_eq_true_2 in Hg by (by apply Hsub).
  injection Hg as <-.
  pose proof (forfeit_idem now (clock gid) (clock' gid) g0) as Hidem.
  cbv zeta in Hidem.
  destruct (forfeit now (clock' gid) (default g0 (forfeit now (clock gid) g0)))
    as [g2 |] eqn:Hf2; [| done].
  simpl in Hidem. subst g2.
  apply forfeit_Some in Hf2 as (Hplay & _ & Hfin & _). congruence.
Qed.

Lemma X9_second_sweep_is_silent_witness :
  Manager_cleanupDisconnectedPlayers sweep_time (fun _ => sweep_time) [7%N]
    (fst (Manager_cleanupDisconnectedPlayers sweep_time (fun _ => sweep_time)
            [7%N] forfeit_manager))
  = (fst (Manager_cleanupDisconnectedPlayers sweep_time (fun _ => sweep_time)
            [7%N] forfeit_manager), []).
Proof.
  apply (X9_second_sweep_is_silent sweep_time (fun _ => sweep_time)
           (fun _ => sweep_time) [7%N] [7%N] forfeit_manager).
  intros gid Hgid. exact Hgid.
Defined.

Lemma update_player_fields (playerID : UUID) (f : Player -> Player) (g : Game) :
  let g' := update_player playerID f g in
  Game_State g' = Game_State g /\ Game_Board g' = Game_Board g
  /\ Game_CurrentTurn g' = Game_CurrentTurn g /\ Game_Winner g' = Game_Winner g
  /\ Game_FinishedAt g' = Game_FinishedAt g /\ Game_LastMove g' = Game_LastMove g.
Proof.
  cbv zeta. unfold update_player. destruct (Game_Players g) as [p0 p1].
  destruct (Player_ID p0 =? playerID)%N;
    [| destruct (Player_ID p1 =? playerID)%N]; done.
Qed.

Lemma update_player_players (playerID : UUID) (f : Player -> Player) (g : Game)
    (p0 p1 : Player) :
  Game_Players g = (p0, p1) ->
  Game_Players (update_player playerID f g)
  = if (Player_ID p0 =? playerID)%N then (f p0, p1)
    else if (Player_ID p1 =? playerID)%N then (p0, f p1)
    else (p0, p1).
Proof.
  intros Hps. unfold update_player. rewrite Hps.
  destruct (Player_ID p0 =? playerID)%N;
    [| destruct (Player_ID p1 =? playerID)%N]; done.
Qed.

(** X10. Adding or removing a connection never moves a game on: every
    session is still there, with the state, board, turn, winner, finish
    time and last move it had. Removing the connection of a player id that
    has none changes nothing at all; otherwise the entry of the id is gone
    from the connection table; adding one stores the entry for the id. *)
Theorem X10_connections_leave_games_alone (now : Time) (playerID gameID : UUID)
    (m : Manager) (gid : UUID) (g : Game) :
  Manager_games m !! gid = Some g ->
  (exists g',
      Manager_games (Manager_AddPlayerConnection now playerID gameID m) !! gid
        = Some g'
      /\ Game_State g' = Game_State g /\ Game_Board g' = Game_Board g
      /\ Game_CurrentTurn g' = Game_CurrentTurn g
      /\ Game_Winner g' = Game_Winner g
      /\ Game_FinishedAt g' = Game_FinishedAt g
      /\ Game_LastMove g' = Game_LastMove g)
  /\ (exists g',
      Manager_games (Manager_RemovePlayerConnection now playerID m) !! gid
        = Some g'
      /\ Game_State g' = Game_State g /\ Game_Board g' = Game_Board g
      /\ Game_CurrentTurn g' = Game_CurrentTurn g
      /\ Game_Winner g' = Game_Winner g
      /\ Game_FinishedAt g' = Game_FinishedAt g
      /\ Game_LastMove g' = Game_LastMove g)
  /\ Manager_players (Manager_AddPlayerConnection now playerID gameID m)
       !! playerID = Some (mkPlayerConnection playerID gameID now)
  /\ Manager_players (Manager_RemovePlayerConnection now playerID m)
       !! playerID = None
  /\ (Manager_players m !! playerID = None ->
      Manager_RemovePlayerConnection now playerID m = m).
Proof.
  intros Hg. split; [| split; [| split; [| split]]].
  - unfold Manager_AddPlayerConnection.
    destruct (Manager_games m !! gameID) as [g0 |] eqn:Hg0; cbn [Manager_games].
    + destruct (decide (gameID = gid)) as [-> | Hne].
      * rewrite lookup_insert_eq. eexists. split; [done |].
        assert (g0 = g) as -> by congruence. apply update_player_fields.
      * rewrite lookup_insert_ne by done. by exists g.
    + by exists g.
  - unfold Manager_RemovePlayerConnection.
    destruct (Manager_players m !! playerID) as [conn |]; [| by exists g].
    cbn [Manager_games].
    destruct (Manager_games m !! Conn_GameID conn) as [g0 |] eqn:Hg0;
      [| by exists g].
    destruct (decide (Conn_GameID conn = gid)) as [Heq | Hne].
    + rewrite Heq in *. rewrite lookup_insert_eq. eexists. split; [done |].
      assert (g0 = g) as -> by congruence. apply update_player_fields.
    + rewrite lookup_insert_ne by done. by exists g.
  - unfold Manager_AddPlayerConnection.
    destruct (Manager_games m !! gameID); cbn [Manager_players];
      apply lookup_insert_eq.
  - unfold Manager_RemovePlayerConnection.
    destruct (Manager_players m !! playerID) as [conn |] eqn:Hc; [| done].
    cbn [Manager_players]. apply lookup_delete_eq.
  - intros Hnone. unfold Manager_RemovePlayerConnection. by rewrite Hnone.
Qed.

Lemma X10_connections_leave_games_alone_witness :
  exists g',
    Manager_games (Manager_RemovePlayerConnection 5 1%N forfeit_manager) !! 7%N
      = Some g'
    /\ Game_State g' = GameStatePlaying.
Proof.
  assert (Manager_games forfeit_manager !! 7%N
          = Some (default example_game (Manager_games forfeit_manager !! 7%N)))
    as Hgame by (vm_compute; reflexivity).
  destruct (X10_connections_leave_games_alone 5 1%N 7%N forfeit_manager 7%N _
              Hgame) as (_ & (g' & Hg' & Hstate & _) & _).
  exists g'. split; [exact Hg' |]. rewrite Hstate. reflexivity.
Defined.

(** X11. Disconnection followed by the sweep. In a played session whose
    two players have different ids, let the connection of one of them,
    registered for this session, be removed at time [t] while the other is
    connected. A sweep that visits the session more than 30 seconds after
    [t] finishes it with the other player's colour as winner; a sweep at
    most 30 seconds after [t] leaves it played. *)
Theorem X11_disconnect_then_sweep (t now : Time) (clock : UUID -> Time)
    (order : list UUID) (m : Manager) (gameID : UUID) (game : Game)
    (away other : Player) (conn : PlayerConnection) :
  Manager_games m !! gameID = Some game ->
  gameID ∈ order ->
  Game_State game = GameStatePlaying ->
  Game_Players game = (away, other) \/ Game_Players game = (other, away) ->
  Player_ID away <> Player_ID other ->
  Player_Connected other = true ->
  Manager_players m !! Player_ID away = Some conn ->
  Conn_GameID conn = gameID ->
  let m1 := Manager_RemovePlayerConnection t (Player_ID away) m in
  let m2 := fst (Manager_cleanupDisconnectedPlayers now clock order m1) in
  exists game',
    Manager_games m2 !! gameID = Some game'
    /\ Game_Board game' = Game_Board game
    /\ (now - t > gracePeriod ->
        Game_State game' = GameStateFinished
        /\ Game_Winner game' = Some (Player_Color other)
        /\ Game_FinishedAt game' = Some (clock gameID))
    /\ (now - t <= gracePeriod ->
        Game_State game' = GameStatePlaying
        /\ Game_Winner game' = Game_Winner game).
Proof.
  intros Hgame Hin Hplay Hplayers Hids Hother Hconn Hcg m1 m2.
  set (game1 := update_player (Player_ID away) (set_Connected false t) game).
  assert (Manager_games m1 !! gameID = Some game1) as Hgame1.
  { unfold m1, Manager_RemovePlayerConnection. rewrite Hconn, Hcg, Hgame.
    cbn [Manager_games]. apply lookup_insert_eq. }
  destruct (update_player_fields (Player_ID away) (set_Connected false t) game)
    as (Hs1 & Hb1 & _ & Hw1 & _). fold game1 in Hs1, Hb1, Hw1.
  set (away' := set_Connected false t away).
  assert (Game_Players game1 = (away', other)
          \/ Game_Players game1 = (other, away')) as Hplayers1.
  { unfold game1. destruct Hplayers as [Hps | Hps];
      rewrite (update_player_players _ _ _ _ _ Hps).
    - rewrite N.eqb_refl. by left.
    - destruct (N.eqb_spec (Player_ID other) (Player_ID away)) as [Heq | _];
        [by destruct Hids |].
      rewrite N.eqb_refl. by right. }
  destruct (decide (now - t > gracePeriod)) as [Hlong | Hshort].
  - destruct (sweep_forfeit_other now clock order m1 gameID game1 away' other)
      as (game' & Hgame' & Hfin & Htime & Hwin & Hboard); try done.
    { by rewrite Hs1. }
    exists game'. split; [done |]. split; [congruence |].
    split; [done | lia].
  - exists game1. split.
    + unfold m2. rewrite sweep_lookup, Hgame1. simpl.
      case_bool_decide; [| done].
      assert (forfeit now (clock gameID) game1 = None) as ->; [| done].
      apply forfeit_None. right. intros p Hp.
      destruct (disconnectedTooLong now p) eqn:Hd; [| done].
      apply disconnectedTooLong_iff in Hd as [Hc Hl].
      unfold players_of in Hp.
      destruct Hplayers1 as [Hps | Hps]; rewrite Hps in Hp; cbn [fst snd] in Hp;
        apply elem_of_cons in Hp as [-> | Hp];
        try apply list_elem_of_singleton in Hp as ->;
        cbn in Hl; (congruence || lia).
    + split; [done |]. split; [lia |]. intros _. by rewrite Hs1, Hw1.
Qed.

Lemma X11_disconnect_then_sweep_witness :
  exists game',
    Manager_games
      (fst (Manager_cleanupDisconnectedPlayers sweep_time (fun _ => sweep_time)
              [7%N] (Manager_RemovePlayerConnection 0 1%N connected_manager)))
      !! 7%N = Some game'
    /\ Game_State game' = GameStateFinished
    /\ Game_Winner game' = Some PlayerYellow.
Proof.
  assert (Manager_games connected_manager !! 7%N = Some connected_game)
    as Hgame by (vm_compute; reflexivity).
  assert (Manager_players connected_manager !! 1%N
          = Some (mkPlayerConnection 1%N 7%N 0)) as Hconn
    by (vm_compute; reflexivity).
  destruct (X11_disconnect_then_sweep 0 sweep_time (fun _ => sweep_time) [7%N]
              connected_manager 7%N connected_game
              (fst (Game_Players connected_game))
              (snd (Game_Players connected_game))
              (mkPlayerConnection 1%N 7%N 0) Hgame)
    as (game' & Hgame' & _ & Hlong & _).
  - apply list_elem_of_In. simpl. tauto.
  - reflexivity.
  - left. reflexivity.
  - vm_compute. discriminate.
  - reflexivity.
  - exact Hconn.
  - reflexivity.
  - exists game'. split; [exact Hgame' |].
    destruct Hlong as (Hfin & Hwin & _); [vm_compute; reflexivity |].
    split; [exact Hfin | exact Hwin].
Defined.

(** X12. Reconnection in time. In a played session whose two players have
    different ids, once a connection is added for one of them while the
    other is connected, no sweep, at whatever time it runs, ends the
    session: after the sweep the session is the one the reconnection
    left, still played. *)
Theorem X12_reconnected_session_is_not_forfeited (t now : Time)
    (clock : UUID -> Time) (order : list UUID) (m : Manager) (gameID : UUID)
    (game : Game) (back other : Player) :
  Manager_games m !! gameID = Some game ->
  Game_State game = GameStatePlaying ->
  Game_Players game = (back, other) \/ Game_Players game = (other, back) ->
  Player_ID back <> Player_ID other ->
  Player_Connected other = true ->
  let m1 := Manager_AddPlayerConnection t (Player_ID back) gameID m in
  exists game1,
    Manager_games m1 !! gameID = Some game1
    /\ Game_State game1 = GameStatePlaying
    /\ Forall (fun p => Player_Connected p = true) (players_of game1)
    /\ Manager_games
         (fst (Manager_cleanupDisconnectedPlayers now clock order m1)) !! gameID
       = Some game1.
Proof.
  intros Hgame Hplay Hplayers Hids Hother m1.
  set (game1 := update_player (Player_ID back) (set_Connected true t) game).
  assert (Manager_games m1 !! gameID = Some game1) as Hgame1.
  { unfold m1, Manager_AddPlayerConnection. rewrite Hgame.
    cbn [Manager_games]. apply lookup_insert_eq. }
  destruct (update_player_fields (Player_ID back) (set_Connected true t) game)
    as (Hs1 & _). fold game1 in Hs1.
  assert (Forall (fun p => Player_Connected p = true) (players_of game1))
    as Hall.
  { unfold players_of, game1.
    destruct Hplayers as [Hps | Hps];
      rewrite (update_player_players _ _ _ _ _ Hps).
    - rewrite N.eqb_refl. cbn [fst snd]. by repeat constructor.
    - destruct (N.eqb_spec (Player_ID other) (Player_ID back)) as [Heq | _];
        [by destruct Hids |].
      rewrite N.eqb_refl. cbn [fst snd]. by repeat constructor. }
  exists game1. split; [done |]. split; [congruence |]. split; [done |].
  rewrite sweep_lookup, Hgame1. simpl.
  case_bool_decide; [| done].
  assert (forfeit now (clock gameID) game1 = None) as ->; [| done].
  apply forfeit_None. right. intros p Hp.
  rewrite Forall_forall in Hall.
  unfold disconnectedTooLong. by rewrite (Hall p Hp).
Qed.

Lemma X12_reconnected_session_is_not_forfeited_witness :
  exists game1,
    Manager_games
      (fst (Manager_cleanupDisconnectedPlayers sweep_time (fun _ => sweep_time)
              [7%N] (Manager_AddPlayerConnection 9 1%N 7%N forfeit_manager)))
      !! 7%N = Some game1
    /\ Game_State game1 = GameStatePlaying.
Proof.
  assert (Manager_games forfeit_manager !! 7%N
          = Some (default example_game (Manager_games forfeit_manager !! 7%N)))
    as Hgame by (vm_compute; reflexivity).
  destruct (X12_reconnected_session_is_not_forfeited 9 sweep_time
              (fun _ => sweep_time) [7%N] forfeit_manager 7%N _
              (fst (Game_Players
                      (default example_game
                         (Manager_games forfeit_manager !! 7%N))))
              (snd (Game_Players
                      (default example_game
                         (Manager_games forfeit_manager !! 7%N))))
              Hgame)
    as (game1 & _ & Hplay & _ & Hafter).
  - reflexivity.
  - left. reflexivity.
  - vm_compute. discriminate.
  - reflexivity.
  - exists game1. split; [exact Hafter | exact Hplay].
Defined.

(** X13. [BroadcastToGame] writes the message to the players of the session
    whose id has an entry in the connection table, and to nobody else; for
    an id that is not a session it writes nothing. After the connection of
    a player id is removed, no broadcast reaches that id. *)
Theorem X13_broadcast_reaches_registered_players (m : Manager) (gameID : UUID)
    (message : WSMessage) :
  (forall d, d ∈ Manager_BroadcastToGame m gameID message <->
     exists game p,
       Manager_games m !! gameID = Some game /\ p ∈ players_of game
       /\ is_Some (Manager_players m !! Player_ID p)
       /\ d = (Player_ID p, message))
  /\ (Manager_games m !! gameID = None ->
      Manager_BroadcastToGame m gameID message = [])
  /\ (forall now playerID d,
        d ∈ Manager_BroadcastToGame
              (Manager_RemovePlayerConnection now playerID m) gameID message ->
        fst d <> playerID).
Proof.
  assert (forall (m0 : Manager) d,
            d ∈ Manager_BroadcastToGame m0 gameID message <->
            exists game p,
              Manager_games m0 !! gameID = Some game /\ p ∈ players_of game
              /\ is_Some (Manager_players m0 !! Player_ID p)
              /\ d = (Player_ID p, message)) as Hchar.
  { intros m0 d. unfold Manager_BroadcastToGame.
    destruct (Manager_games m0 !! gameID) as [game |] eqn:Hgame.
    - rewrite list_elem_of_omap. split.
      + intros (p & Hp & Hd). exists game, p. split; [done |]. split; [done |].
        destruct (Manager_players m0 !! Player_ID p) eqn:Hc; [| done].
        injection Hd as <-. split; [by eexists | done].
      + intros (game' & p & [= <-] & Hp & [c Hc] & ->). exists p.
        split; [done |]. by rewrite Hc.
    - split; [by intros ?%elem_of_nil |]. by intros (? & ? & ? & _). }
  split; [apply Hchar |]. split.
  - intros Hnone. unfold Manager_BroadcastToGame. by rewrite Hnone.
  - intros now playerID d Hd. apply Hchar in Hd
      as (game & p & _ & _ & [c Hc] & ->). cbn [fst]. intros Heq.
    rewrite Heq in Hc. unfold Manager_RemovePlayerConnection in Hc.
    destruct (Manager_players m !! playerID) as [conn |] eqn:Hconn.
    + cbn [Manager_players] in Hc. by rewrite lookup_delete_eq in Hc.
    + congruence.
Qed.

(* ===================================================================== *)
(** * Further properties of the bot *)
(* ===================================================================== *)

Lemma wins_at_valid (now : Time) (g : Game) (color : PlayerColor) (col : Z) :
  wins_at now g color col = true -> Game_IsValidMove g col = true.
Proof. unfold wins_at. by intros [? _]%andb_prop. Qed.

Lemma best_column_valid (now : Time) (g : Game) (botColor : PlayerColor) :
  (best_column now g botColor = -1
   /\ forall c, Game_IsValidMove g c = false)
  \/ (0 <= best_column now g botColor < 7
      /\ Game_IsValidMove g (best_column now g botColor) = true).
Proof.
  unfold best_column.
  destruct (find (wins_at now g botColor) (seqZ 0 7)) as [c |] eqn:Hf1.
  { right. apply find_lowest_column in Hf1 as (Hc & Hw & _).
    split; [done | by eapply wins_at_valid]. }
  destruct (find (wins_at now g (opponent botColor)) (seqZ 0 7))
    as [c |] eqn:Hf2.
  { right. apply find_lowest_column in Hf2 as (Hc & Hw & _).
    split; [done | by eapply wins_at_valid]. }
  destruct (find (Game_IsValidMove g) centerColumns) as [c |] eqn:Hf3.
  - right. apply find_some in Hf3 as [Hin Hvalid]. cbn [default from_option id].
    split; [| done]. by apply Game_IsValidMove_iff in Hvalid as [? _].
  - left. split; [done |]. intros c.
    destruct (Game_IsValidMove g c) eqn:Hvalid; [| done].
    apply Game_IsValidMove_iff in Hvalid as Hrange. destruct Hrange as [Hc _].
    assert (In c centerColumns) as Hin.
    { unfold centerColumns. simpl. lia. }
    eapply find_none in Hf3; [| exact Hin]. congruence.
Qed.

(** X14. The column the bot proposes can be played: whenever the pointer
    refers to a game, [GetBestMove] returns either a column 0..6 that
    [IsValidMove] accepts, or -1, and -1 only when [IsValidMove] refuses
    every column. *)
Theorem X14_bot_proposes_a_valid_column (now : Time) (rnd : Z -> Z)
    (game : positive) (botColor : PlayerColor) (σ : gmap positive Game)
    (g : Game) :
  σ !! game = Some g ->
  exists col σ',
    GetBestMove now rnd game botColor σ = Some (col, σ')
    /\ ((col = -1 /\ forall c, Game_IsValidMove g c = false)
        \/ (0 <= col < 7 /\ Game_IsValidMove g col = true)).
Proof.
  intros Hg.
  destruct (GetBestMove_run now rnd game botColor g σ Hg) as (σ' & Hrun & _).
  exists (best_column now g botColor), σ'. split; [done |].
  apply best_column_valid.
Qed.

Lemma X14_bot_proposes_a_valid_column_witness :
  exists col σ',
    GetBestMove 0 (fun _ => 0) 1%positive PlayerRed
                {[1%positive := example_game]} = Some (col, σ')
    /\ col <> -1.
Proof.
  destruct (X14_bot_proposes_a_valid_column 0 (fun _ => 0) 1%positive PlayerRed
              {[1%positive := example_game]} example_game
              (lookup_singleton_eq 1%positive example_game))
    as (col & σ' & Hrun & [[_ Hnone] | [Hcol _]]).
  - specialize (Hnone 0). vm_compute in Hnone. discriminate.
  - exists col, σ'. split; [exact Hrun | lia].
Defined.

(** X15. The random choice at the end of [GetBestMove] is never made: the
    call does the same, result and memory, whatever [rand.Intn] would
    answer. *)
Theorem X15_bot_random_fallback_is_dead (now : Time) (rnd rnd' : Z -> Z)
    (game : positive) (botColor : PlayerColor) (σ : gmap positive Game) :
  GetBestMove now rnd game botColor σ = GetBestMove now rnd' game botColor σ.
Proof.
  unfold GetBestMove, mbind, Exec_bind.
  destruct (findWinningMove now game botColor σ) as [[move σ1] |]; [| done].
  destruct (negb (move =? -1)); [done |].
  destruct (findWinningMove now game
              (if botColor =? PlayerRed then PlayerYellow else PlayerRed) σ1)
    as [[move2 σ2] |]; [| done].
  destruct (negb (move2 =? -1)); [done |].
  destruct (deref game σ2) as [[g σ3] |]; [| done].
  destruct (find (Game_IsValidMove g) centerColumns) eqn:Hf; [done |].
  by rewrite (center_none_valid g Hf).
Qed.

(** The converse of [Manager_MakeMove_ok]: what passes the four tests is
    applied. *)
Lemma Manager_MakeMove_accepts (tMove tEnd : Time) (gameID playerID : UUID)
    (column : Z) (m : Manager) (game : Game) (player : Player) :
  Manager_games m !! gameID = Some game ->
  Game_State game = GameStatePlaying ->
  find_player game playerID = Some player ->
  Player_Color player = Game_CurrentTurn game ->
  Game_IsValidMove game column = true ->
  let row := lowestEmptyRow (Game_Board game) column 6 in
  let mv := mkMove playerID column row (Player_Color player) tMove in
  Manager_MakeMove tMove tEnd gameID playerID column m
  = (MoveOk mv,
     put_game gameID
       (after_move tEnd
          (set_LastMove (Some mv)
             (set_Board (Board_set (Game_Board game) row column
                           (int_add (Player_Color player) 1)) game)))
       m).
Proof.
  intros Hgame Hplay Hfind Hturn Hvalid row mv. unfold Manager_MakeMove.
  rewrite Hgame, bool_decide_eq_true_2 by done. cbn [negb].
  rewrite Hfind.
  destruct (Z.eqb_spec (Player_Color player) (Game_CurrentTurn game));
    [| done].
  cbn [negb]. rewrite Game_MakeMove_valid by done. reflexivity.
Qed.

(** X16. The bot's move goes through. In a played session where it is the
    bot's turn, with the pointer of the bot driver referring to the
    session: when [GetBestMove] returns a column other than -1,
    [Manager.MakeMove] with that column succeeds; and when some column wins
    for the bot, the move finishes the session with the bot's colour as
    winner. *)
Theorem X16_bot_move_is_accepted_and_wins (now tMove tEnd : Time)
    (rnd : Z -> Z) (p : positive) (σ : gmap positive Game) (m : Manager)
    (gameID botID : UUID) (game : Game) (bot : Player) :
  Manager_games m !! gameID = Some game ->
  σ !! p = Some game ->
  Game_State game = GameStatePlaying ->
  find_player game botID = Some bot ->
  Player_Color bot = Game_CurrentTurn game ->
  exists col σ',
    GetBestMove now rnd p (Player_Color bot) σ = Some (col, σ')
    /\ (col <> -1 ->
        exists mv, fst (Manager_MakeMove tMove tEnd gameID botID col m)
                   = MoveOk mv
                   /\ Move_Column mv = col /\ Move_PlayerID mv = botID)
    /\ ((exists c, 0 <= c < 7 /\ wins_at now game (Player_Color bot) c = true) ->
        exists game',
          Manager_games (snd (Manager_MakeMove tMove tEnd gameID botID col m))
            !! gameID = Some game'
          /\ Game_State game' = GameStateFinished
          /\ Game_Winner game' = Some (Player_Color bot)
          /\ Game_FinishedAt game' = Some tEnd).
Proof.
  intros Hgame Hσ Hplay Hfind Hturn.
  destruct (GetBestMove_run now rnd p (Player_Color bot) game σ Hσ)
    as (σ' & Hrun & _).
  exists (best_column now game (Player_Color bot)), σ'. split; [done |].
  split.
  - intros Hcol.
    destruct (best_column_valid now game (Player_Color bot))
      as [[? _] | [_ Hvalid]]; [done |].
    rewrite (Manager_MakeMove_accepts tMove tEnd gameID botID _ m game bot)
      by done.
    eexists. split; [reflexivity |]. done.
  - intros (c & Hc & Hwins).
    assert (exists c0, lowest_column (wins_at now game (Player_Color bot)) c0)
      as [c0 Hlow].
    { destruct (find (wins_at now game (Player_Color bot)) (seqZ 0 7))
        as [c0 |] eqn:Hf.
      - exists c0. by apply find_lowest_column.
      - apply find_no_column in Hf. rewrite (Hf c Hc) in Hwins. done. }
    assert (best_column now game (Player_Color bot) = c0) as ->.
    { unfold best_column. apply find_lowest_column in Hlow. by rewrite Hlow. }
    destruct Hlow as (_ & Hw & _).
    pose proof (wins_at_valid _ _ _ _ Hw) as Hvalid.
    rewrite (Manager_MakeMove_accepts tMove tEnd gameID botID _ m game bot)
      by done.
    cbn [snd]. unfold put_game. cbn [Manager_games].
    rewrite lookup_insert_eq. eexists. split; [reflexivity |].
    unfold wins_at in Hw. rewrite Hvalid in Hw. cbn [andb] in Hw.
    rewrite Game_MakeMove_valid in Hw by done. cbn [snd] in Hw.
    unfold after_move.
    match goal with
    | |- context [Game_CheckWinner ?g2] =>
        assert (Game_CheckWinner g2 = Some (Player_Color bot)) as Hcheck
    end.
    { match type of Hw with
      | match Game_CheckWinner ?g1 with _ => _ end = true =>
          erewrite (Game_CheckWinner_board _ g1) by reflexivity;
          destruct (Game_CheckWinner g1) as [w |]; [| done]
      end.
      apply Z.eqb_eq in Hw. by subst w. }
    rewrite Hcheck. done.
Qed.

Lemma X16_bot_move_is_accepted_and_wins_witness :
  exists col σ',
    GetBestMove 0 (fun _ => 0) 1%positive PlayerYellow
                {[1%positive := double_threat_game]} = Some (col, σ')
    /\ exists mv, fst (Manager_MakeMove 6 6 7%N 2%N col double_threat_manager)
                  = MoveOk mv.
Proof.
  assert (Manager_games double_threat_manager !! 7%N = Some double_threat_game)
    as Hgame by (vm_compute; reflexivity).
  destruct (X16_bot_move_is_accepted_and_wins 0 6 6 (fun _ => 0) 1%positive
              {[1%positive := double_threat_game]} double_threat_manager
              7%N 2%N double_threat_game
              (snd (Game_Players double_threat_game)) Hgame
              (lookup_singleton_eq 1%positive double_threat_game))
    as (col & σ' & Hrun & Hacc & _).
  - reflexivity.
  - reflexivity.
  - reflexivity.
  - exists col, σ'. split; [exact Hrun |].
    destruct (GetBestMove_run 0 (fun _ => 0) 1%positive PlayerYellow
                double_threat_game {[1%positive := double_threat_game]}
                (lookup_singleton_eq 1%positive double_threat_game))
      as (σ'' & Hrun' & _).
    assert (best_column 0 double_threat_game PlayerYellow = 0) as Hbest
      by (vm_compute; reflexivity).
    rewrite Hbest in Hrun'.
    assert (Some col = Some 0) as Hcol.
    { change (fst <$> Some (col, σ') = fst <$> Some (0, σ'')).
      by rewrite <- Hrun, <- Hrun'. }
    injection Hcol as ->.
    destruct Hacc as (mv & Hmv & _); [discriminate |].
    exists mv. exact Hmv.
Defined.

(* ===================================================================== *)
(** * Further properties of the matchmaking queue *)
(* ===================================================================== *)

Lemma abs_small (x : Z) : - 2 ^ 62 <= x < 2 ^ 62 -> abs x = Z.abs x.
Proof.
  intros Hx. unfold abs. destruct (Z.ltb_spec x 0).
  - rewrite int_sub_small by lia. lia.
  - lia.
Qed.

(** X17. Two entries are compatible exactly when their skill levels differ
    by at most 2, and the test does not depend on the order of its
    arguments (for skill levels far from the ends of the range of [int],
    as the 1-10 scale is). *)
Theorem X17_compatible_is_skill_within_two (player1 player2 : QueueEntry) :
  - 2 ^ 61 <= Pref_SkillLevel (Entry_Preferences player1) < 2 ^ 61 ->
  - 2 ^ 61 <= Pref_SkillLevel (Entry_Preferences player2) < 2 ^ 61 ->
  (Queue_areCompatible player1 player2 = true
   <-> Z.abs (Pref_SkillLevel (Entry_Preferences player1)
              - Pref_SkillLevel (Entry_Preferences player2)) <= 2)
  /\ Queue_areCompatible player1 player2 = Queue_areCompatible player2 player1.
Proof.
  intros H1 H2.
  assert (forall a b : QueueEntry,
            - 2 ^ 61 <= Pref_SkillLevel (Entry_Preferences a) < 2 ^ 61 ->
            - 2 ^ 61 <= Pref_SkillLevel (Entry_Preferences b) < 2 ^ 61 ->
            Queue_areCompatible a b
            = (Z.abs (Pref_SkillLevel (Entry_Preferences a)
                      - Pref_SkillLevel (Entry_Preferences b)) <=? 2)) as Hchar.
  { intros a b Ha Hb. unfold Queue_areCompatible.
    rewrite int_sub_small by lia. rewrite abs_small by lia.
    destruct (Z.gtb_spec
                (Z.abs (Pref_SkillLevel (Entry_Preferences a)
                        - Pref_SkillLevel (Entry_Preferences b))) 2);
      symmetry; [apply Z.leb_gt | apply Z.leb_le]; lia. }
  split.
  - rewrite Hchar by done. apply Z.leb_le.
  - rewrite !Hchar by done.
    replace (Pref_SkillLevel (Entry_Preferences player2)
             - Pref_SkillLevel (Entry_Preferences player1))
      with (- (Pref_SkillLevel (Entry_Preferences player1)
               - Pref_SkillLevel (Entry_Preferences player2))) by lia.
    by rewrite Z.abs_opp.
Qed.

Lemma X17_compatible_is_skill_within_two_witness :
  Queue_areCompatible entry_a entry_b = Queue_areCompatible entry_b entry_a.
Proof.
  apply (X17_compatible_is_skill_within_two entry_a entry_b);
    vm_compute; split; (discriminate || reflexivity).
Defined.

(** X18. [GetCompatibleMatch] finds a partner whenever the map has one. Its
    answer is an entry of the map, with an id other than the asker's and
    compatible with the asker; it answers [nil] exactly when no key the
    [range] visits holds such an entry. *)
Theorem X18_GetCompatibleMatch_finds_a_partner (order : list UUID) (q : Queue)
    (entry : QueueEntry) :
  (forall candidate,
     Queue_GetCompatibleMatch order q entry = Some candidate ->
     Entry_PlayerID candidate <> Entry_PlayerID entry
     /\ Queue_areCompatible entry candidate = true
     /\ exists k, k ∈ order /\ Queue_entries q !! k = Some candidate)
  /\ (Queue_GetCompatibleMatch order q entry = None
      <-> forall k candidate,
            k ∈ order -> Queue_entries q !! k = Some candidate ->
            Entry_PlayerID candidate = Entry_PlayerID entry
            \/ Queue_areCompatible entry candidate = false).
Proof.
  split; [intros candidate; apply GetCompatibleMatch_Some |].
  unfold Queue_GetCompatibleMatch. split.
  - intros Hnone k candidate Hk Hcand.
    eapply find_none in Hnone.
    2: { apply list_elem_of_In, list_elem_of_omap. by exists k. }
    cbn beta in Hnone. apply andb_false_iff in Hnone as [Hid | Hc].
    + left. apply negb_false_iff in Hid. by apply N.eqb_eq.
    + by right.
  - intros Hall.
    destruct (find _ (omap (fun k => Queue_entries q !! k) order))
      as [c |] eqn:Hfind; [| done].
    apply find_some in Hfind as [Hin Htest].
    apply list_elem_of_In, list_elem_of_omap in Hin as (k & Hk & Hcand).
    apply andb_prop in Htest as [Hid Hc].
    destruct (Hall k c Hk Hcand) as [Heq | Hno].
    + rewrite Heq, N.eqb_refl in Hid. done.
    + congruence.
Qed.

Lemma processMatches_loop_frame (scan : nat -> list UUID)
    (entries : list QueueEntry) :
  forall (i : nat) (q : Queue),
    let r := processMatches_loop scan i entries q in
    Queue_entries (snd r) = Queue_entries q
    /\ Queue_removeChan (snd r)
       = Queue_removeChan q
         ++ (fst r ≫= fun pair => [Entry_PlayerID (fst pair);
                                    Entry_PlayerID (snd pair)])
    /\ forall entry1 entry2, (entry1, entry2) ∈ fst r ->
         entry1 ∈ entries
         /\ exists k, Queue_entries q !! k = Some entry2.
Proof.
  induction entries as [| e rest IH]; intros i q; cbn zeta.
  - simpl. split; [done |]. split; [by rewrite app_nil_r |].
    by intros ? ? ?%elem_of_nil.
  - cbn [processMatches_loop].
    destruct (Queue_entries q !! Entry_PlayerID e) eqn:He.
    2: { destruct (IH (S i) q) as (H1 & H2 & H3). split; [done |].
         split; [done |]. intros e1 e2 Hin. destruct (H3 e1 e2 Hin).
         split; [by right | done]. }
    destruct (Queue_GetCompatibleMatch (scan i) q e) as [c |] eqn:Hmatch.
    2: { destruct (IH (S i) q) as (H1 & H2 & H3). split; [done |].
         split; [done |]. intros e1 e2 Hin. destruct (H3 e1 e2 Hin).
         split; [by right | done]. }
    specialize (IH (S i) (Queue_Remove (Entry_PlayerID c)
                            (Queue_Remove (Entry_PlayerID e) q))).
    cbn zeta in IH.
    destruct (processMatches_loop scan (S i) rest
                (Queue_Remove (Entry_PlayerID c)
                   (Queue_Remove (Entry_PlayerID e) q))) as [pairs q'].
    cbn [fst snd] in *. destruct IH as (H1 & H2 & H3).
    split; [done |]. split.
    + rewrite H2. cbn [Queue_Remove Queue_removeChan].
      rewrite bind_cons. cbn [fst snd]. by rewrite <- !app_assoc.
    + intros e1 e2 Hin. apply elem_of_cons in Hin as [[= -> ->] | Hin].
      * split; [by left |].
        apply GetCompatibleMatch_Some in Hmatch as (_ & _ & k & _ & Hk).
        by exists k.
      * destruct (H3 e1 e2 Hin) as [? Hk]. split; [by right | done].
Qed.

(** X19. What a matching pass hands to [createPlayerMatch]: each pair is an
    entry of the snapshot with an entry of the map, of different ids and
    compatible. The pass itself takes nothing out of the map: it only
    queues, for the worker, the two ids of each pair, in the order of the
    pairs. *)
Theorem X19_matching_pass_pairs (order : list UUID) (scan : nat -> list UUID)
    (q : Queue) :
  let r := processMatches order scan q in
  (forall entry1 entry2, (entry1, entry2) ∈ fst r ->
     Entry_PlayerID entry2 <> Entry_PlayerID entry1
     /\ Queue_areCompatible entry1 entry2 = true
     /\ entry1 ∈ Queue_GetAllEntries order q
     /\ exists k, Queue_entries q !! k = Some entry2)
  /\ Queue_entries (snd r) = Queue_entries q
  /\ Queue_removeChan (snd r)
     = Queue_removeChan q
       ++ (fst r ≫= fun pair => [Entry_PlayerID (fst pair);
                                  Entry_PlayerID (snd pair)]).
Proof.
  cbv zeta. unfold processMatches.
  destruct (processMatches_loop_frame scan (Queue_GetAllEntries order q) 0%nat q)
    as (H1 & H2 & H3).
  split; [| by split].
  intros entry1 entry2 Hin.
  destruct (processMatches_loop_pairs scan _ _ _ _ _ Hin) as [Hid Hc].
  destruct (H3 _ _ Hin) as [Hsnap Hk]. done.
Qed.

Lemma oldest_fold_Some (l : list QueueEntry) :
  forall a : QueueEntry,
    exists o,
      foldl (fun oldest entry =>
               match oldest with
               | None => Some entry
               | Some o =>
                   if Entry_JoinedAt entry <? Entry_JoinedAt o
                   then Some entry else Some o
               end) (Some a) l = Some o
      /\ (o = a \/ o ∈ l)
      /\ Entry_JoinedAt o <= Entry_JoinedAt a
      /\ forall e, e ∈ l -> Entry_JoinedAt o <= Entry_JoinedAt e.
Proof.
  induction l as [| x l IH]; intros a.
  - exists a. split; [done |]. split; [by left |]. split; [lia |].
    by intros ? ?%elem_of_nil.
  - cbn [foldl].
    destruct (Z.ltb_spec (Entry_JoinedAt x) (Entry_JoinedAt a)) as [Hlt | Hge].
    + destruct (IH x) as (o & Hr & Hfrom & Hox & Hle).
      exists o. split; [done |].
      split; [right; destruct Hfrom as [-> | ?]; [by left | by right] |].
      split; [lia |].
      intros e He. apply elem_of_cons in He as [-> | He]; [done | by apply Hle].
    + destruct (IH a) as (o & Hr & Hfrom & Hoa & Hle).
      exists o. split; [done |].
      split; [destruct Hfrom as [-> | ?]; [by left | right; by right] |].
      split; [done |].
      intros e He. apply elem_of_cons in He as [-> | He]; [lia | by apply Hle].
Qed.

Lemma oldest_fold (l : list QueueEntry) :
  let r := foldl (fun oldest entry =>
                    match oldest with
                    | None => Some entry
                    | Some o =>
                        if Entry_JoinedAt entry <? Entry_JoinedAt o
                        then Some entry else Some o
                    end) None l in
  (l = [] /\ r = None)
  \/ exists o, r = Some o /\ o ∈ l
       /\ forall e, e ∈ l -> Entry_JoinedAt o <= Entry_JoinedAt e.
Proof.
  destruct l as [| x l]; cbn zeta; [by left | right].
  cbn [foldl]. destruct (oldest_fold_Some l x) as (o & Hr & Hfrom & Hox & Hle).
  exists o. split; [done |].
  split; [destruct Hfrom as [-> | ?]; [by left | by right] |].
  intros e He. apply elem_of_cons in He as [-> | He]; [done | by apply Hle].
Qed.

(** X20. [GetOldestEntry] answers an entry of the map whose join time is at
    most the join time of every entry the [range] visits, and [nil] only
    when the [range] visits no entry. For that entry [calculatePosition]
    answers 1, over any [range] that visits no key the first did not. *)
Theorem X20_oldest_entry_is_first_in_line (order order' : list UUID)
    (q : Queue) :
  (Queue_GetOldestEntry order q = None <-> Queue_GetAllEntries order q = [])
  /\ forall oldest,
       Queue_GetOldestEntry order q = Some oldest ->
       oldest ∈ Queue_GetAllEntries order q
       /\ (forall e, e ∈ Queue_GetAllEntries order q ->
             Entry_JoinedAt oldest <= Entry_JoinedAt e)
       /\ ((forall k, k ∈ order' -> k ∈ order) ->
           calculatePosition order' q oldest = 1).
Proof.
  unfold Queue_GetOldestEntry, Queue_GetAllEntries.
  destruct (oldest_fold (omap (fun k => Queue_entries q !! k) order))
    as [(Hnil & Hr) | (o & Hr & Hin & Hle)]; cbv zeta in Hr.
  - rewrite Hr, Hnil. split; [done |]. by intros ? [=].
  - rewrite Hr. split.
    + split; [done |]. intros Hnil. rewrite Hnil in Hin.
      by apply elem_of_nil in Hin.
    + intros oldest [= <-]. split; [done |]. split; [done |].
      intros Hsub. unfold calculatePosition, Queue_GetAllEntries.
      assert (forall e, e ∈ omap (fun k => Queue_entries q !! k) order' ->
                Entry_JoinedAt o <= Entry_JoinedAt e) as Hle'.
      { intros e He. apply list_elem_of_omap in He as (k & Hk & He).
        apply Hle. apply list_elem_of_omap. exists k. split; [auto | done]. }
      revert Hle'.
      generalize (omap (fun k => Queue_entries q !! k) order') as l.
      induction l as [| e l IH]; intros Hle'; [done |].
      cbn [foldl].
      destruct (Z.ltb_spec (Entry_JoinedAt e) (Entry_JoinedAt o)) as [Hlt | _].
      * specialize (Hle' e). assert (e ∈ e :: l) as He by (by left).
        specialize (Hle' He). lia.
      * apply IH. intros e' He'. apply Hle'. by right.
Qed.

(* ===================================================================== *)
(** * Properties of the matchmaker with the ordered queue *)
(* ===================================================================== *)

Lemma update_player_ids (playerID : UUID) (b : bool) (t : Time) (g : Game) :
  let g' := update_player playerID (set_Connected b t) g in
  Player_ID (fst (Game_Players g')) = Player_ID (fst (Game_Players g))
  /\ Player_ID (snd (Game_Players g')) = Player_ID (snd (Game_Players g))
  /\ Player_Color (fst (Game_Players g')) = Player_Color (fst (Game_Players g))
  /\ Player_Color (snd (Game_Players g')) = Player_Color (snd (Game_Players g))
  /\ Game_ID g' = Game_ID g.
Proof.
  cbv zeta. unfold update_player. destruct (Game_Players g) as [p0 p1] eqn:Hps.
  destruct (Player_ID p0 =? playerID)%N;
    [| destruct (Player_ID p1 =? playerID)%N]; cbn; by rewrite ?Hps.
Qed.

(** The session as the two players of a round are told about it. *)
Lemma pairing_round (tGame t1 t2 : Time) (gameID : UUID) (p1 p2 : Player)
    (gm : Manager) :
  let game := fst (Manager_CreateGame tGame gameID p1 p2 gm) in
  let gm1 := snd (Manager_CreateGame tGame gameID p1 p2 gm) in
  let gm3 := Manager_AddPlayerConnection t2 (Player_ID p2) (Game_ID game)
               (Manager_AddPlayerConnection t1 (Player_ID p1) (Game_ID game)
                  gm1) in
  exists g,
    Manager_games gm3 !! Game_ID game = Some g
    /\ Game_ID g = gameID
    /\ Game_State g = GameStatePlaying
    /\ Game_Board g = emptyBoard
    /\ Game_CurrentTurn g = PlayerRed
    /\ Player_ID (fst (Game_Players g)) = Player_ID p1
    /\ Player_ID (snd (Game_Players g)) = Player_ID p2
    /\ Player_Color (fst (Game_Players g)) = PlayerRed
    /\ Player_Color (snd (Game_Players g)) = PlayerYellow.
Proof.
  cbv zeta. unfold Manager_CreateGame. cbn [fst snd Game_ID].
  set (game := mkGame gameID GameStatePlaying emptyBoard
                 (set_Color PlayerRed 1 p1, set_Color PlayerYellow 2 p2)
                 PlayerRed 1 None tGame None None).
  unfold Manager_AddPlayerConnection at 2. unfold put_game at 1.
  cbn [Manager_games Manager_players]. rewrite lookup_insert_eq.
  unfold Manager_AddPlayerConnection. cbn [Manager_games Manager_players].
  rewrite lookup_insert_eq. cbn [Manager_games]. rewrite lookup_insert_eq.
  eexists. split; [reflexivity |].
  destruct (update_player_ids (Player_ID p2) true t2
              (update_player (Player_ID p1) (set_Connected true t1) game))
    as (Ha & Hb & Hc & Hd & He). cbv zeta in *.
  destruct (update_player_ids (Player_ID p1) true t1 game)
    as (Ha' & Hb' & Hc' & Hd' & He'). cbv zeta in *.
  destruct (update_player_fields (Player_ID p2) (set_Connected true t2)
              (update_player (Player_ID p1) (set_Connected true t1) game))
    as (Hs & Hbd & Ht & _). cbv zeta in *.
  destruct (update_player_fields (Player_ID p1) (set_Connected true t1) game)
    as (Hs' & Hbd' & Ht' & _). cbv zeta in *.
  rewrite He, He', Hs, Hs', Hbd, Hbd', Ht, Ht', Ha, Ha', Hb, Hb', Hc, Hc',
    Hd, Hd'.
  done.
Qed.

Lemma processQueue_loop_spec (newID : nat -> UUID) (clock : nat -> Time)
    (n : nat) :
  forall (queue : list WaitingEntry) (i : nat) (gm : Manager),
    (length queue <= n)%nat ->
    let r := processQueue_loop newID clock i queue gm in
    (exists paired,
        queue = paired ++ fst (fst r)
        /\ length paired = length (snd r)
        /\ (length (fst (fst r)) < 2)%nat)
    /\ forall j e1 e2,
         queue !! (2 * j)%nat = Some e1 ->
         queue !! (2 * j + 1)%nat = Some e2 ->
         exists g,
           snd r !! (2 * j)%nat
             = Some (Player_ID (Waiting_Player e1),
                     mkGameFoundPayload g (Player_ID (Waiting_Player e1)))
           /\ snd r !! (2 * j + 1)%nat
              = Some (Player_ID (Waiting_Player e2),
                      mkGameFoundPayload g (Player_ID (Waiting_Player e2)))
           /\ Game_ID g = newID (i + j)%nat
           /\ Game_State g = GameStatePlaying
           /\ Game_Board g = emptyBoard
           /\ Game_CurrentTurn g = PlayerRed
           /\ Player_ID (fst (Game_Players g)) = Player_ID (Waiting_Player e1)
           /\ Player_ID (snd (Game_Players g)) = Player_ID (Waiting_Player e2)
           /\ Player_Color (fst (Game_Players g)) = PlayerRed
           /\ Player_Color (snd (Game_Players g)) = PlayerYellow.
Proof.
  induction n as [| n IH]; intros queue i gm Hlen; cbn zeta.
  - destruct queue as [| x queue]; [| simpl in Hlen; lia].
    simpl. split; [exists []; simpl; split_and!; (done || lia) |].
    intros j e1 e2 H. by rewrite lookup_nil in H.
  - destruct queue as [| x [| y rest]].
    + simpl. split; [exists []; simpl; split_and!; (done || lia) |].
      intros j e1 e2 H. by rewrite lookup_nil in H.
    + simpl. split; [exists []; simpl; split_and!; (done || lia) |].
      intros j e1 e2 _ H. destruct j; simpl in H; done.
    + cbn [processQueue_loop].
      pose proof (pairing_round (clock (3 * i)%nat) (clock (3 * i + 1)%nat)
                    (clock (3 * i + 2)%nat) (newID i) (Waiting_Player x)
                    (Waiting_Player y) gm) as Hround.
      cbv zeta in Hround.
      destruct (Manager_CreateGame (clock (3 * i)%nat) (newID i)
                  (Waiting_Player x) (Waiting_Player y) gm) as [game gm1].
      cbn [fst snd] in Hround.
      set (gm3 := Manager_AddPlayerConnection _ _ _
                    (Manager_AddPlayerConnection _ _ _ gm1)) in *.
      specialize (IH rest (S i) gm3). cbn zeta in IH.
      destruct (processQueue_loop newID clock (S i) rest gm3)
        as [[queue' gm'] notes].
      cbn [fst snd] in *.
      destruct IH as [(paired & Hq & Hl & Hlt) Hpairs];
        [simpl in Hlen; lia |].
      split.
      * exists (x :: y :: paired). rewrite Hq at 1. simpl.
        split; [done |]. split; [by rewrite Hl | done].
      * intros j e1 e2 H1 H2. destruct j as [| j].
        -- simpl in H1, H2. injection H1 as <-. injection H2 as <-.
           destruct Hround as (g & Hg & Hrest).
           exists g. unfold notifyGameFound. rewrite Hg. simpl.
           split; [done |]. split; [done |].
           rewrite Nat.add_0_r. exact Hrest.
        -- replace (2 * S j)%nat with (S (S (2 * j))) in * by lia.
           replace (S (S (2 * j)) + 1)%nat with (S (S (2 * j + 1))) in * by lia.
           simpl in H1, H2.
           destruct (Hpairs j e1 e2 H1 H2) as (g & Hn1 & Hn2 & Hid & Hrest).
           exists g. simpl. split; [done |]. split; [done |].
           split; [| done].
           rewrite Hid. f_equal. lia.
Qed.

(** X21. [processQueue] pairs in the order of joining: the first entry of
    the queue with the second, the third with the fourth, and so on, as
    long as two entries are left. For each pair one session is created,
    played, on the empty board, with the earlier entry's player red and to
    move and the later one's yellow, and each of the two is told of that
    session, in queue order. At most one entry, the last, stays queued. *)
Theorem X21_processQueue_pairs_in_join_order (newID : nat -> UUID)
    (clock : nat -> Time) (mm : Matchmaker) :
  let r := Matchmaker_processQueue newID clock mm in
  (exists paired,
      Matchmaker_queue mm = paired ++ Matchmaker_queue (fst r)
      /\ length paired = length (snd r)
      /\ (length (Matchmaker_queue (fst r)) < 2)%nat)
  /\ forall j e1 e2,
       Matchmaker_queue mm !! (2 * j)%nat = Some e1 ->
       Matchmaker_queue mm !! (2 * j + 1)%nat = Some e2 ->
       exists g,
         snd r !! (2 * j)%nat
           = Some (Player_ID (Waiting_Player e1),
                   mkGameFoundPayload g (Player_ID (Waiting_Player e1)))
         /\ snd r !! (2 * j + 1)%nat
            = Some (Player_ID (Waiting_Player e2),
                    mkGameFoundPayload g (Player_ID (Waiting_Player e2)))
         /\ Game_ID g = newID j
         /\ Game_State g = GameStatePlaying
         /\ Game_Board g = emptyBoard
         /\ Game_CurrentTurn g = PlayerRed
         /\ Player_ID (fst (Game_Players g)) = Player_ID (Waiting_Player e1)
         /\ Player_ID (snd (Game_Players g)) = Player_ID (Waiting_Player e2)
         /\ Player_Color (fst (Game_Players g)) = PlayerRed
         /\ Player_Color (snd (Game_Players g)) = PlayerYellow.
Proof.
  cbv zeta. unfold Matchmaker_processQueue.
  pose proof (processQueue_loop_spec newID clock
                (length (Matchmaker_queue mm)) (Matchmaker_queue mm) 0%nat
                (Matchmaker_gameManager mm) (le_n _)) as Hspec.
  cbv zeta in Hspec.
  destruct (processQueue_loop newID clock 0 (Matchmaker_queue mm)
              (Matchmaker_gameManager mm)) as [[queue' gm'] notes].
  exact Hspec.
Qed.
